(** * Minesweeper core of [sapper.cpp]: board model, generation, flood fill,
      win and loss determination.

    The development embeds the [Game] class and its collaborators
    ([ICellContent], [ICellState], [DefaultCellFactory],
    [DefaultBoardGenerator]) as executable Rocq definitions and proves
    the properties of the board model about them.  Of the presentation
    layer it embeds what computes with the game: [formatTime], [Layout],
    the drawing loop of [SfmlRenderer::render], the click mapping of
    [SfmlInputController::handleEvent] and [makeGameByDifficulty].  The
    SFML window, the fonts and the menu screen are not modelled.

    Conventions of the embedding.
    - [int] values are [Z].  Every [int] the core computes is a
      coordinate, a neighbour count or a cell counter bounded by the
      number of cells, so no signed overflow occurs on a board that fits
      in memory.
    - [float] is IEEE binary32 with round-to-nearest-even, given by
      [spec_float] with a 24 bit mantissa and [emax = 128].
    - [std::vector] indexing outside the vector is undefined behaviour in
      the source; the model returns [Undefined] there.
    - The [unique_ptr] members of a cell are never null after
      construction, so a cell is a pair of a content and a state.
    - [std::rand()] is an explicit list of draws handed to the generator.
      A rejection loop that is still running when the draws are used up
      yields [Exhausted], as does the recursion of [floodFill] when its
      depth budget is used up (which is proved not to happen).
    - The injected factory and generator are the default ones, as in
      [makeGameByDifficulty]. *)

From Stdlib Require Import ZArith Bool List Lia Permutation.
From Stdlib Require Import Floats.SpecFloat.
From stdpp Require Import base tactics option list list_numbers pretty.

Open Scope Z_scope.

(** ** Outcomes of the embedded code *)

Inductive result (A : Type) : Type :=
| Ok (a : A)
| Undefined   (* out-of-range vector access, or [% 0] *)
| Exhausted.  (* random draws or recursion budget used up *)
Arguments Ok {A} a.
Arguments Undefined {A}.
Arguments Exhausted {A}.

#[global] Instance result_ret : MRet result := fun A a => Ok a.
#[global] Instance result_bind : MBind result := fun A B k m =>
  match m with
  | Ok a => k a
  | Undefined => Undefined
  | Exhausted => Exhausted
  end.

(** ** Floating point: binary32 *)

Abbreviation float := spec_float.
Definition fadd : float -> float -> float := SFadd 24 128.
Definition fsub : float -> float -> float := SFsub 24 128.
Definition flt : float -> float -> bool := SFltb.
Definition fle : float -> float -> bool := SFleb.
Definition f0 : float := S754_zero false.
(** [0.2f] is the binary32 number [0x3E4CCCCD = 13421773 * 2^-26]. *)
Definition f0_2 : float := S754_finite false 13421773 (-26).

(** ** Content layer *)

Inductive ICellContent : Type :=
| MineContent
| NumberContent (n_ : Z)
| EmptyContent.

Definition isMine (c : ICellContent) : bool :=
  match c with MineContent => true | _ => false end.

Definition number (c : ICellContent) : Z :=
  match c with
  | MineContent => -1
  | NumberContent n => n
  | EmptyContent => 0
  end.

Definition isEmpty (c : ICellContent) : bool :=
  match c with
  | MineContent => false
  | NumberContent n => n =? 0
  | EmptyContent => true
  end.

Module CellContentFactory.
Definition makeMine : ICellContent := MineContent.
Definition makeEmpty : ICellContent := EmptyContent.
Definition makeNumber (n : Z) : ICellContent :=
  if n <=? 0 then makeEmpty else NumberContent n.
End CellContentFactory.

(** ** State layer *)

Inductive ICellState : Type :=
| ClosedState
| OpenedState
| FlaggedState.

Definition isOpen (s : ICellState) : bool :=
  match s with OpenedState => true | _ => false end.

Definition isFlagged (s : ICellState) : bool :=
  match s with FlaggedState => true | _ => false end.

Definition makeClosedState : ICellState := ClosedState.
Definition makeOpenedState : ICellState := OpenedState.
Definition makeFlaggedState : ICellState := FlaggedState.

Record Cell : Type := mkCell { content : ICellContent; state : ICellState }.

(** [DefaultCellFactory] *)
Definition makeInitialCell : Cell :=
  {| content := CellContentFactory.makeEmpty; state := makeClosedState |}.
Definition makeMineContent : ICellContent := CellContentFactory.makeMine.
Definition makeNumberContent (n : Z) : ICellContent := CellContentFactory.makeNumber n.

(** ** The game object *)

Record Game : Type := mkGame {
  W : Z; H : Z; MINES : Z;
  gameOver : bool;
  win : bool;
  firstClick : bool;
  explosion : bool;
  explosionTimer : float;
  timerRunning : bool;
  timeElapsed : float;
  field : list (list Cell)
}.

Definition set_field (f : list (list Cell)) (g : Game) : Game :=
  mkGame (W g) (H g) (MINES g) (gameOver g) (win g) (firstClick g)
         (explosion g) (explosionTimer g) (timerRunning g) (timeElapsed g) f.
Definition set_gameOver (b : bool) (g : Game) : Game :=
  mkGame (W g) (H g) (MINES g) b (win g) (firstClick g)
         (explosion g) (explosionTimer g) (timerRunning g) (timeElapsed g) (field g).
Definition set_win (b : bool) (g : Game) : Game :=
  mkGame (W g) (H g) (MINES g) (gameOver g) b (firstClick g)
         (explosion g) (explosionTimer g) (timerRunning g) (timeElapsed g) (field g).
Definition set_firstClick (b : bool) (g : Game) : Game :=
  mkGame (W g) (H g) (MINES g) (gameOver g) (win g) b
         (explosion g) (explosionTimer g) (timerRunning g) (timeElapsed g) (field g).
Definition set_explosion (b : bool) (g : Game) : Game :=
  mkGame (W g) (H g) (MINES g) (gameOver g) (win g) (firstClick g)
         b (explosionTimer g) (timerRunning g) (timeElapsed g) (field g).
Definition set_explosionTimer (t : float) (g : Game) : Game :=
  mkGame (W g) (H g) (MINES g) (gameOver g) (win g) (firstClick g)
         (explosion g) t (timerRunning g) (timeElapsed g) (field g).
Definition set_timerRunning (b : bool) (g : Game) : Game :=
  mkGame (W g) (H g) (MINES g) (gameOver g) (win g) (firstClick g)
         (explosion g) (explosionTimer g) b (timeElapsed g) (field g).
Definition set_timeElapsed (t : float) (g : Game) : Game :=
  mkGame (W g) (H g) (MINES g) (gameOver g) (win g) (firstClick g)
         (explosion g) (explosionTimer g) (timerRunning g) t (field g).

(** *** Vector access *)

(** [v[i]] *)
Definition at_ {A : Type} (v : list A) (i : Z) : result A :=
  if 0 <=? i then
    match v !! Z.to_nat i with
    | Some a => Ok a
    | None => Undefined
    end
  else Undefined.

(** [field[y][x]] read *)
Definition cellAt (f : list (list Cell)) (x y : Z) : result Cell :=
  row ← at_ f y; at_ row x.

(** [field[y][x].member = ...] *)
Definition updCell (upd : Cell -> Cell) (x y : Z) (g : Game) : result Game :=
  _ ← cellAt (field g) x y;
  Ok (set_field (alter (alter upd (Z.to_nat x)) (Z.to_nat y) (field g)) g).

Definition setState (s : ICellState) : Z -> Z -> Game -> result Game :=
  updCell (fun c => {| content := content c; state := s |}).
Definition setContent (k : ICellContent) : Z -> Z -> Game -> result Game :=
  updCell (fun c => {| content := k; state := state c |}).

(** *** Loops *)

(** [for (i in l) body], threading the mutated state. *)
Fixpoint forEach {A S : Type} (l : list A) (body : A -> S -> result S) (s : S)
  : result S :=
  match l with
  | [] => Ok s
  | i :: l' => s' ← body i s; forEach l' body s'
  end.

(** A loop body either falls through to the next iteration or executes
    [return]. *)
Inductive flow (S : Type) : Type :=
| Next (s : S)
| Return.
Arguments Next {S} s.
Arguments Return {S}.

Fixpoint forEachR {S : Type} (l : list Z) (body : Z -> S -> result (flow S))
  (s : S) : result (flow S) :=
  match l with
  | [] => Ok (Next s)
  | i :: l' =>
      r ← body i s;
      match r with
      | Next s' => forEachR l' body s'
      | Return => Ok Return
      end
  end.

(** [for (int i = 0; i < n; i++)] *)
Definition upto (n : Z) : list Z := seqZ 0 n.
(** [for (int d = -1; d <= 1; d++)] *)
Definition around : list Z := [-1; 0; 1].

(** [nx >= 0 && nx < W && ny >= 0 && ny < H] *)
Definition inBoard (g : Game) (nx ny : Z) : bool :=
  (0 <=? nx) && (nx <? W g) && (0 <=? ny) && (ny <? H g).

(** *** [Game] methods *)

Definition resetField (g : Game) : Game :=
  {| W := W g; H := H g; MINES := MINES g;
     field := replicate (Z.to_nat (H g)) (replicate (Z.to_nat (W g)) makeInitialCell);
     gameOver := false;
     win := false;
     firstClick := true;
     explosion := false;
     explosionTimer := f0;
     timerRunning := false;
     timeElapsed := f0 |}.

(** The constructor [Game(w, h, mines, ...)] with the default factory and
    generator.  (With a negative [w] or [h] the source's [resize] or
    [reserve] throws.) *)
Definition newGame (w h mines : Z) : Game :=
  resetField (mkGame w h mines false false true false f0 false f0 []).

Definition update (dt : float) (g : Game) : Game :=
  let g1 :=
    if explosion g then
      let g' := set_explosionTimer (fsub (explosionTimer g) dt) g in
      if flt (explosionTimer g') f0 then set_explosion false g' else g'
    else g in
  if timerRunning g1 && negb (gameOver g1) && negb (win g1)
  then set_timeElapsed (fadd (timeElapsed g1) dt) g1
  else g1.

Definition startTimerIfNeeded (g : Game) : Game :=
  if negb (timerRunning g) then set_timeElapsed f0 (set_timerRunning true g) else g.

Definition stopTimer (g : Game) : Game := set_timerRunning false g.

Definition countMinesAround (g : Game) (x y : Z) : result Z :=
  forEach around (fun dy cnt =>
    forEach around (fun dx cnt =>
      if negb ((dx =? 0) && (dy =? 0)) then
        let nx := x + dx in
        let ny := y + dy in
        if inBoard g nx ny then
          c ← cellAt (field g) nx ny;
          if isMine (content c) then Ok (cnt + 1) else Ok cnt
        else Ok cnt
      else Ok cnt) cnt) 0.

Fixpoint floodFill (depth : nat) (x y : Z) (g : Game) : result Game :=
  match depth with
  | O => Exhausted
  | S depth' =>
    forEach around (fun dy g =>
      forEach around (fun dx g =>
        if negb ((dx =? 0) && (dy =? 0)) then
          let nx := x + dx in
          let ny := y + dy in
          if inBoard g nx ny then
            c ← cellAt (field g) nx ny;
            if negb (isOpen (state c)) && negb (isFlagged (state c))
               && negb (isMine (content c)) then
              g1 ← setState makeOpenedState nx ny g;
              if isEmpty (content c) then floodFill depth' nx ny g1 else Ok g1
            else Ok g
          else Ok g
        else Ok g) g) g
  end.

Definition triggerExplosion (g : Game) : result Game :=
  let g := set_explosionTimer f0_2 (set_explosion true g) in
  g ← forEach (upto (H g)) (fun yy g =>
         forEach (upto (W g)) (fun xx g => setState makeOpenedState xx yy g) g) g;
  Ok (stopTimer (set_gameOver true g)).

Definition flagsCount (g : Game) : result Z :=
  forEach (upto (H g)) (fun y f =>
    forEach (upto (W g)) (fun x f =>
      c ← cellAt (field g) x y;
      if isFlagged (state c) then Ok (f + 1) else Ok f) f) 0.

Definition checkWinOpen (g : Game) : result Game :=
  r ← forEachR (upto (H g)) (fun y u =>
         forEachR (upto (W g)) (fun x u =>
           c ← cellAt (field g) x y;
           if negb (isMine (content c)) && negb (isOpen (state c))
           then Ok Return else Ok (Next u)) u) tt;
  match r with
  | Return => Ok g
  | Next _ => Ok (stopTimer (set_win true g))
  end.

Definition checkWinFlags (g : Game) : result Game :=
  r ← forEachR (upto (H g)) (fun y flagged =>
         forEachR (upto (W g)) (fun x flagged =>
           c ← cellAt (field g) x y;
           if isFlagged (state c) then
             let flagged := flagged + 1 in
             if negb (isMine (content c)) then Ok Return else Ok (Next flagged)
           else Ok (Next flagged)) flagged) 0;
  match r with
  | Return => Ok g
  | Next flagged =>
      if flagged =? MINES g then Ok (stopTimer (set_win true g)) else Ok g
  end.

Definition checkWin (g : Game) : result Game :=
  g ← checkWinOpen g;
  if negb (win g) then checkWinFlags g else Ok g.

(** *** [DefaultBoardGenerator] *)

(** [a % b] of C++ on [int]: truncating remainder, undefined for [b = 0]. *)
Definition c_mod (a b : Z) : result Z :=
  if b =? 0 then Undefined else Ok (Z.rem a b).

(** The rejection loop [while (placed < game.MINES)].  Each iteration
    consumes two draws of [std::rand()]. *)
Fixpoint placeMines (rnd : list Z) (safeX safeY : Z) (placed : Z) (g : Game)
  {struct rnd} : result Game :=
  if placed <? MINES g then
    match rnd with
    | rx :: ry :: rnd' =>
        x ← c_mod rx (W g);
        y ← c_mod ry (H g);
        c ← cellAt (field g) x y;
        if isMine (content c) then placeMines rnd' safeX safeY placed g
        else if (Z.abs (x - safeX) <=? 1) && (Z.abs (y - safeY) <=? 1)
        then placeMines rnd' safeX safeY placed g
        else
          g' ← setContent makeMineContent x y g;
          placeMines rnd' safeX safeY (placed + 1) g'
    | _ => Exhausted
    end
  else Ok g.

Definition clearContent (g : Game) : result Game :=
  forEach (upto (H g)) (fun y g =>
    forEach (upto (W g)) (fun x g => setContent (makeNumberContent 0) x y g) g) g.

Definition computeNumbers (g : Game) : result Game :=
  forEach (upto (H g)) (fun y g =>
    forEach (upto (W g)) (fun x g =>
      c ← cellAt (field g) x y;
      if isMine (content c) then Ok g
      else
        around ← countMinesAround g x y;
        setContent (makeNumberContent around) x y g) g) g.

Definition generate (rnd : list Z) (safeX safeY : Z) (g : Game) : result Game :=
  g ← clearContent g;
  g ← placeMines rnd safeX safeY 0 g;
  computeNumbers g.

(** *** Reveal and flag *)

(** Recursion budget handed to [floodFill]: one more than the number of
    cells.  Every nested call opens a closed cell first, so the depth
    never exceeds the number of cells ([floodFillOrd_total],
    [fillableCount_fillDepth]). *)
Definition fillDepth (g : Game) : nat := S (Z.to_nat (W g * H g)).

(** Lines 213-218 of [revealFromState]: the first accepted reveal generates
    the board around the clicked cell and starts the timer. *)
Definition firstClickStep (rnd : list Z) (x y : Z) (g : Game) : result Game :=
  if firstClick g then
    g ← generate rnd x y g;
    Ok (startTimerIfNeeded (set_firstClick false g))
  else Ok g.

(** Lines 220-234 of [revealFromState]: open the cell, then loss, flood
    fill and win check.  ([c] is a reference into the field, so it is read
    again after the field changed.) *)
Definition openCell (x y : Z) (g : Game) : result Game :=
  g ← setState makeOpenedState x y g;
  c ← cellAt (field g) x y;
  if isMine (content c) then triggerExplosion g else
  g ← (if isEmpty (content c) then floodFill (fillDepth g) x y g else Ok g);
  checkWin g.

Definition revealFromState (rnd : list Z) (x y : Z) (g : Game) : result Game :=
  if gameOver g || win g then Ok g else
  c ← cellAt (field g) x y;
  if isOpen (state c) || isFlagged (state c) then Ok g else
  g ← firstClickStep rnd x y g;
  openCell x y g.

Definition toggleFlagFromState (x y : Z) (g : Game) : result Game :=
  if gameOver g || win g then Ok g else
  c ← cellAt (field g) x y;
  if isOpen (state c) then Ok g else
  g ← (if isFlagged (state c) then setState makeClosedState x y g
       else setState makeFlaggedState x y g);
  checkWin g.

(** *** State pattern dispatch *)

Definition onLeftClick (s : ICellState) (rnd : list Z) (x y : Z) (g : Game)
  : result Game :=
  match s with
  | ClosedState => revealFromState rnd x y g
  | OpenedState => Ok g
  | FlaggedState => Ok g
  end.

Definition onRightClick (s : ICellState) (x y : Z) (g : Game) : result Game :=
  match s with
  | ClosedState => toggleFlagFromState x y g
  | OpenedState => Ok g
  | FlaggedState => setState makeClosedState x y g
  end.

Definition leftClickCell (rnd : list Z) (x y : Z) (g : Game) : result Game :=
  c ← cellAt (field g) x y; onLeftClick (state c) rnd x y g.

Definition rightClickCell (x y : Z) (g : Game) : result Game :=
  c ← cellAt (field g) x y; onRightClick (state c) x y g.

(** ** Presentation layer *)

(** The SFML side of the program is embedded as far as it computes with
    the game: the strings and rectangles a frame is drawn from, the
    mapping of a mouse click to a cell, and the choice of a board by
    difficulty.  Pixel coordinates are [int] values modelled as [Z].
    [Layout::recompute] multiplies a board dimension by the cell size:
    where one of its [int] operations overflows, which is undefined
    behaviour in the source, the model returns [Undefined].  The sums
    and differences of pixel coordinates in [handleEvent] and in the
    drawing loop are written in [Z].  The conversion of a pixel
    coordinate to [float] is exact below [2^24].
    A drawn rectangle is [(left, top, width, height)]; of a text the model keeps
    the string and the position, of a colour the theme method that
    supplies it.  Fonts, the window and the menu screen are not modelled. *)

(** *** [formatTime] *)

(** [(int)sec]: the conversion truncates toward zero; it is undefined for
    NaN, the infinities and values outside the range of [int]. *)
Definition float_to_int (f : float) : result Z :=
  match f with
  | S754_zero _ => Ok 0
  | S754_finite s m e =>
      let t := cond_Zopp s (if 0 <=? e then Z.pos m * 2 ^ e else Z.pos m / 2 ^ (- e)) in
      if (-2147483648 <=? t) && (t <=? 2147483647) then Ok t else Undefined
  | _ => Undefined
  end.

(** [%02d]: the decimal numeral, padded with a zero to two characters. *)
Definition fmt02d (n : Z) : string :=
  if (0 <=? n) && (n <? 10) then "0" +:+ pretty n else pretty n.

(** The buffer of 32 characters is never filled: the longest output,
    for [INT_MIN], has 12 characters. *)
Definition formatTime (sec : float) : result string :=
  total ← float_to_int sec;
  let m := Z.quot total 60 in
  let s := Z.rem total 60 in
  Ok (fmt02d m +:+ ":" +:+ fmt02d s).

(** *** [Layout] *)

Record Layout : Type := mkLayout {
  WINDOW_W : Z; WINDOW_H : Z; CELL : Z; OFFSET_Y : Z;
  boardWidthPx : Z; boardHeightPx : Z; XOFFSET : Z
}.

(** The member initialisers of [Layout]. *)
Definition defaultLayout : Layout :=
  {| WINDOW_W := 800; WINDOW_H := 800; CELL := 40; OFFSET_Y := 110;
     boardWidthPx := 0; boardHeightPx := 0; XOFFSET := 0 |}.

(** The value of an [int] operation whose exact result is [z]: signed
    overflow is undefined behaviour. *)
Definition c_int (z : Z) : result Z :=
  if (-2147483648 <=? z) && (z <=? 2147483647) then Ok z else Undefined.

Definition recompute (g : Game) (l : Layout) : result Layout :=
  bw ← c_int (W g * CELL l);
  bh ← c_int (H g * CELL l);
  d ← c_int (WINDOW_W l - bw);
  let xo := Z.quot d 2 in
  Ok {| WINDOW_W := WINDOW_W l; WINDOW_H := WINDOW_H l; CELL := CELL l;
        OFFSET_Y := OFFSET_Y l;
        boardWidthPx := bw; boardHeightPx := bh;
        XOFFSET := if xo <? 0 then 0 else xo |}.

(** *** Theme *)

(** The colour methods of [ITheme] that paint a cell. *)
Inductive ThemeColor : Type :=
| cellClosedColor | cellFlagColor | cellOpenedColor | mineColor | mineFlashColor.

Class ITheme : Type := { flagGlyph : string }.

Definition DefaultTheme : ITheme := {| flagGlyph := "F" |}.

(** *** [SfmlRenderer::render] *)

Record DrawnCell : Type := mkDrawnCell {
  rect : Z * Z * Z * Z;
  fill : ThemeColor;
  text : option (string * (Z * Z))
}.

Record Frame : Type := mkFrame {
  status : string;
  minesIndicator : string;
  timerText : string;
  board : list DrawnCell
}.

(** Line 534: [game.MINES - game.flagsCount()], the number on the mines
    indicator. *)
Definition remaining (g : Game) : result Z :=
  n ← flagsCount g; Ok (MINES g - n).

(** Lines 530-532. *)
Definition statusText (g : Game) : string :=
  if win g then "YOU WIN!" else if gameOver g then "YOU LOSE!" else "".

(** Lines 544-546: the rectangle of the cell at [(x, y)]. *)
Definition cellRect (layout : Layout) (x y : Z) : Z * Z * Z * Z :=
  (XOFFSET layout + x * CELL layout + 1, OFFSET_Y layout + y * CELL layout + 1,
   CELL layout - 2, CELL layout - 2).

(** Lines 544-586: the body of the drawing loop. *)
Definition drawCell {theme : ITheme} (g : Game) (layout : Layout) (x y : Z) (c : Cell)
  : DrawnCell :=
  if isOpen (state c) then
    {| rect := cellRect layout x y;
       fill := if isMine (content c)
               then (if explosion g then mineFlashColor else mineColor)
               else cellOpenedColor;
       text := if negb (isMine (content c)) && (0 <? number (content c))
               then Some (pretty (number (content c)),
                          (XOFFSET layout + x * CELL layout + 10,
                           OFFSET_Y layout + y * CELL layout + 5))
               else None |}
  else
    {| rect := cellRect layout x y;
       fill := if isFlagged (state c) then cellFlagColor else cellClosedColor;
       text := if isFlagged (state c)
               then Some (flagGlyph,
                          (XOFFSET layout + x * CELL layout + 10,
                           OFFSET_Y layout + y * CELL layout + 3))
               else None |}.

Definition render {theme : ITheme} (g : Game) (layout : Layout) : result Frame :=
  n ← remaining g;
  time ← formatTime (timeElapsed g);
  drawn ← forEach (upto (H g)) (fun y drawn =>
             forEach (upto (W g)) (fun x drawn =>
               c ← cellAt (field g) x y;
               Ok (drawn ++ [drawCell g layout x y c])) drawn) [];
  Ok {| status := statusText g;
        minesIndicator := "Mines: " +:+ pretty n;
        timerText := "Time: " +:+ time;
        board := drawn |}.

(** *** [SfmlInputController::handleEvent] *)

Module Mouse.
Inductive Button : Type := Left | Right | Middle | XButton1 | XButton2.
End Mouse.

(** [sf::Event], as far as [handleEvent] looks at it. *)
Module Event.
Inductive t : Type :=
| Closed
| MouseButtonPressed (button : Mouse.Button) (x y : Z)
| Other.
End Event.

Module AppActionType.
Inductive t : Type := None | Restart | BackToMenu | Quit.
End AppActionType.

(** The two buttons, as the hit tests
    [getGlobalBounds().contains((float)mx, (float)my)]. *)
Record UiWidgets : Type := mkUiWidgets {
  restartBtn : Z -> Z -> bool;
  menuBtn : Z -> Z -> bool
}.

(** [a / b] of C++ on [int]: truncating quotient, undefined for [b = 0]. *)
Definition c_div (a b : Z) : result Z :=
  if b =? 0 then Undefined else Ok (Z.quot a b).

(** The result is the returned action and the game after the call.
    ([window.close()] accompanies [Quit].) *)
Definition handleEvent (rnd : list Z) (e : Event.t) (g : Game) (layout : Layout)
    (ui : UiWidgets) : result (AppActionType.t * Game) :=
  match e with
  | Event.Closed => Ok (AppActionType.Quit, g)
  | Event.Other => Ok (AppActionType.None, g)
  | Event.MouseButtonPressed button mx my =>
      if restartBtn ui mx my then Ok (AppActionType.Restart, g) else
      if menuBtn ui mx my then Ok (AppActionType.BackToMenu, g) else
      if my <=? OFFSET_Y layout then Ok (AppActionType.None, g) else
      if (mx <? XOFFSET layout) || (mx >=? XOFFSET layout + boardWidthPx layout)
      then Ok (AppActionType.None, g) else
      x ← c_div (mx - XOFFSET layout) (CELL layout);
      y ← c_div (my - OFFSET_Y layout) (CELL layout);
      if (x <? 0) || (x >=? W g) || (y <? 0) || (y >=? H g)
      then Ok (AppActionType.None, g) else
      g ← (match button with Mouse.Left => leftClickCell rnd x y g | _ => Ok g end);
      g ← (match button with Mouse.Right => rightClickCell x y g | _ => Ok g end);
      Ok (AppActionType.None, g)
  end.

(** *** [makeGameByDifficulty] *)

Definition makeGameByDifficulty (choice : Z) : Game :=
  let '(w, h, mines) :=
    match choice with
    | 1 => (10, 10, 10)
    | 2 => (14, 14, 20)
    | 3 => (20, 20, 40)
    | _ => (10, 10, 10)
    end in
  newGame w h mines.

(** ** Specification vocabulary *)

(** The field is [H] rows of [W] cells: what [resetField] builds and every
    method preserves. *)
Definition wellFormed (g : Game) : Prop :=
  length (field g) = Z.to_nat (H g) ∧
  Forall (fun row : list Cell => length row = Z.to_nat (W g)) (field g).

(** [g'] is [g] with another field. *)
Definition sameSession (g g' : Game) : Prop := g' = set_field (field g') g.

(** Every cell of [g'] is related by [R] to the cell of [g] at the same place. *)
Definition cellwise (R : Cell -> Cell -> Prop) (g g' : Game) : Prop :=
  ∀ x y c, cellAt (field g) x y = Ok c →
    ∃ c', cellAt (field g') x y = Ok c' ∧ R c c'.

(** ** Loop ranges as lists of cells *)

(** The cells visited by [for y in ys: for x in xs], in that order. *)
Definition grid (ys xs : list Z) : list (Z * Z) :=
  y ← ys; x ← xs; [(x, y)].
Arguments grid : simpl never.

(** ** Win conditions in the words of the specification *)

(** Every non-mine cell is Opened. *)
Definition allSafeOpen (g : Game) : Prop :=
  ∀ x y c, cellAt (field g) x y = Ok c →
    isMine (content c) = false → isOpen (state c) = true.

(** Chosen property of the cell at a coordinate ([false] off the field). *)
Definition cellHas (P : Cell -> bool) (g : Game) (p : Z * Z) : bool :=
  match cellAt (field g) (fst p) (snd p) with
  | Ok c => P c
  | _ => false
  end.

(** All coordinates of the board, row by row. *)
Definition cells (g : Game) : list (Z * Z) := grid (upto (H g)) (upto (W g)).

(** The set of Flagged cells. *)
Definition flaggedCells (g : Game) : list (Z * Z) :=
  List.filter (cellHas (fun c => isFlagged (state c)) g) (cells g).

(** The set of cells carrying a mine. *)
Definition mineCells (g : Game) : list (Z * Z) :=
  List.filter (cellHas (fun c => isMine (content c)) g) (cells g).

(** Every Flagged cell is a mine. *)
Definition flagsOnlyOnMines (g : Game) : Prop :=
  ∀ x y c, cellAt (field g) x y = Ok c →
    isFlagged (state c) = true → isMine (content c) = true.

Definition winByFlags (g : Game) : Prop :=
  Z.of_nat (length (flaggedCells g)) = MINES g ∧ flagsOnlyOnMines g.

(** ** Sessions reachable through the public interface *)

(** The presentation layer constructs a game, then forwards left clicks
    ([revealAt]), right clicks ([toggleFlagAt]), frame ticks and restarts.
    Clicks are pre-validated to lie on the board; a click off the board is
    undefined behaviour and gives no successor state. *)
Inductive reachable : Game -> Prop :=
| reach_new w h mines :
    0 ≤ w → 0 ≤ h → reachable (newGame w h mines)
| reach_reveal g rnd x y g' :
    reachable g → leftClickCell rnd x y g = Ok g' → reachable g'
| reach_flag g x y g' :
    reachable g → rightClickCell x y g = Ok g' → reachable g'
| reach_tick g dt :
    reachable g → fle f0 dt = true → reachable (update dt g)
| reach_reset g :
    reachable g → reachable (resetField g).

(** A relation on cells that a method maintains at every coordinate,
    together with the rest of the session and the shape of the field. *)
Definition frames (R : Cell → Cell → Prop) (g g' : Game) : Prop :=
  sameSession g g' ∧ (wellFormed g → wellFormed g') ∧ cellwise R g g'.

(** The cells flood fill may open (the guard in [floodFill]): neither
    Opened nor Flagged, and not a mine. *)
Definition fillable (c : Cell) : bool :=
  negb (isOpen (state c)) && negb (isFlagged (state c)) && negb (isMine (content c)).

(** What flood fill may do to a cell: nothing, or open it if [fillable]. *)
Definition opensOnly (c c' : Cell) : Prop :=
  c' = c ∨ (fillable c = true ∧ c' = {| content := content c; state := OpenedState |}).

(** What generation may do to a cell: replace its content. *)
Definition keepsState (c c' : Cell) : Prop := state c' = state c.

(** ** Generated boards in the words of the specification *)

(** The eight offsets [(dx, dy)] of the grid neighbours. *)
Definition offsets8 : list (Z * Z) :=
  [(-1, -1); (0, -1); (1, -1); (-1, 0); (1, 0); (-1, 1); (0, 1); (1, 1)].

(** The up-to-8 in-bounds neighbours of [(x, y)]. *)
Definition neighbours (g : Game) (x y : Z) : list (Z * Z) :=
  List.filter (fun p => inBoard g (fst p) (snd p))
              (List.map (fun d => (x + fst d, y + snd d)) offsets8).

(** Brute-force count of the mines among the neighbours. *)
Definition mineNeighbours (g : Game) (x y : Z) : Z :=
  Z.of_nat (length (List.filter (cellHas (fun c => isMine (content c)) g)
                                (neighbours g x y))).

(** The 3x3 neighbourhood of the safe cell (Chebyshev distance at most 1). *)
Definition inSafeZone (safeX safeY x y : Z) : Prop :=
  Z.abs (x - safeX) ≤ 1 ∧ Z.abs (y - safeY) ≤ 1.

(** What the number pass may do to a cell: keep a mine, renumber the rest. *)
Definition keepsMines (c c' : Cell) : Prop :=
  state c' = state c ∧ isMine (content c') = isMine (content c) ∧
  (isMine (content c) = true → content c' = content c).

(** What the rejection loop may do to a cell: keep it, or turn a non-mine
    into a mine. *)
Definition addsMines (c c' : Cell) : Prop :=
  state c' = state c ∧
  (content c' = content c ∨
   (isMine (content c) = false ∧ content c' = MineContent)).

(** No mine lies in the 3x3 neighbourhood of the safe cell. *)
Definition safeZoneClear (safeX safeY : Z) (g : Game) : Prop :=
  ∀ x y c, cellAt (field g) x y = Ok c → inSafeZone safeX safeY x y →
    isMine (content c) = false.

(** ** Whole operations *)

(** The board keeps its dimensions, mine budget and shape. *)
Definition sameBoard (g g' : Game) : Prop :=
  W g' = W g ∧ H g' = H g ∧ MINES g' = MINES g ∧ (wellFormed g → wellFormed g').

(** [gameOver] and [win] are not both set. *)
Definition exclusiveEnd (g : Game) : Prop := gameOver g && win g = false.

(** What reveals and flags may do to a cell: anything but change its
    content. *)
Definition keepsContent (c c' : Cell) : Prop := content c' = content c.

(** ** Flood fill in the words of the specification *)

(** [(nx, ny)] is one of the eight grid neighbours of [(x, y)]. *)
Definition adjacent (x y nx ny : Z) : Prop :=
  Z.abs (nx - x) ≤ 1 ∧ Z.abs (ny - y) ≤ 1 ∧ ¬ (nx = x ∧ ny = y).

(** The region flood fill discloses from [(x, y)]: the cells reachable by
    steps to adjacent cells that are [fillable] (Closed, not a mine), where
    every cell stepped from, other than [(x, y)] itself, is Empty. *)
Inductive fillRegion (g : Game) (x y : Z) : Z -> Z -> Prop :=
| fill_near nx ny c :
    adjacent x y nx ny →
    cellAt (field g) nx ny = Ok c → fillable c = true →
    fillRegion g x y nx ny
| fill_far px py pc nx ny c :
    fillRegion g x y px py →
    cellAt (field g) px py = Ok pc → isEmpty (content pc) = true →
    adjacent px py nx ny →
    cellAt (field g) nx ny = Ok c → fillable c = true →
    fillRegion g x y nx ny.

(** The same recursion as [floodFill], visiting the neighbours in the order
    given by a list of offsets [(dx, dy)]. *)
Fixpoint floodFillOrd (order : list (Z * Z)) (depth : nat) (x y : Z) (g : Game)
  : result Game :=
  match depth with
  | O => Exhausted
  | S depth' =>
    forEach order (fun d g =>
      let nx := x + fst d in
      let ny := y + snd d in
      if inBoard g nx ny then
        c ← cellAt (field g) nx ny;
        if negb (isOpen (state c)) && negb (isFlagged (state c))
           && negb (isMine (content c)) then
          g1 ← setState makeOpenedState nx ny g;
          if isEmpty (content c) then floodFillOrd order depth' nx ny g1 else Ok g1
        else Ok g
      else Ok g) g
  end.

(** The cell at [(x, y)] was [fillable] in [g] and is Opened in [g']. *)
Definition newlyOpened (g g' : Game) (x y : Z) : Prop :=
  ∃ c c', cellAt (field g) x y = Ok c ∧ fillable c = true ∧
          cellAt (field g') x y = Ok c' ∧ isOpen (state c') = true.

(** No neighbour of [(x, y)] is left for flood fill to open. *)
Definition sealed (g : Game) (x y : Z) : Prop :=
  ∀ nx ny c, adjacent x y nx ny → cellAt (field g) nx ny = Ok c → fillable c = false.

(** Number of cells flood fill may still open. *)
Definition fillableCount (g : Game) : nat :=
  length (List.filter (cellHas fillable g) (cells g)).

(** The region named by the specification's flood fill property: cells
    reachable through Empty cells without crossing a mine or a flagged
    cell, whether or not the cells on the way are already Opened. *)
Inductive specifiedRegion (g : Game) (x y : Z) : Z -> Z -> Prop :=
| specified_near nx ny c :
    adjacent x y nx ny →
    cellAt (field g) nx ny = Ok c →
    isMine (content c) = false → isFlagged (state c) = false →
    specifiedRegion g x y nx ny
| specified_far px py pc nx ny c :
    specifiedRegion g x y px py →
    cellAt (field g) px py = Ok pc → isEmpty (content pc) = true →
    adjacent px py nx ny →
    cellAt (field g) nx ny = Ok c →
    isMine (content c) = false → isFlagged (state c) = false →
    specifiedRegion g x y nx ny.

(** ** Input sequences *)

Inductive input : Type :=
| Reveal (rnd : list Z) (x y : Z)   (* left click; [rnd] are the draws of [rand()] *)
| Flag (x y : Z)                    (* right click *)
| Tick (dt : float)                 (* frame update, [dt >= 0] *)
| Restart.

Definition step (i : input) (g : Game) : result Game :=
  match i with
  | Reveal rnd x y => leftClickCell rnd x y g
  | Flag x y => rightClickCell x y g
  | Tick dt => if fle f0 dt then Ok (update dt g) else Undefined
  | Restart => Ok (resetField g)
  end.

Definition play (inputs : list input) (g : Game) : result Game :=
  forEach inputs step g.

(** Before the first accepted reveal the session is untouched apart from
    flags: not terminal, timer stopped at zero, every cell Empty and none
    Opened. *)
Definition pristine (g : Game) : Prop :=
  firstClick g = true →
  gameOver g = false ∧ win g = false ∧
  timerRunning g = false ∧ timeElapsed g = f0 ∧
  ∀ x y c, cellAt (field g) x y = Ok c →
    content c = EmptyContent ∧ isOpen (state c) = false.

(** Every cell is Opened, as after a loss. *)
Definition allOpened (g : Game) : Prop :=
  ∀ x y c, cellAt (field g) x y = Ok c → state c = OpenedState.

(** What a flag toggle may do to a cell: never its content, and it never
    opens it. *)
Definition flagsOnly (c c' : Cell) : Prop :=
  content c' = content c ∧ (isOpen (state c) = false → isOpen (state c') = false).

(** ** Example sessions *)

Definition fromOk (r : result Game) (d : Game) : Game :=
  match r with Ok g => g | _ => d end.

(** A 6x1 board with one mine at column 3, after the first reveal at
    column 0 opened columns 0 to 2. *)
Definition lineBoard : Game :=
  Eval vm_compute in
    fromOk (play [Reveal [3; 0] 0 0] (newGame 6 1 1)) (newGame 6 1 1).

(** The same board as generated, before the clicked cell is opened. *)
Definition lineGenerated : Game :=
  Eval vm_compute in
    fromOk (generate [3; 0] 0 0 (newGame 6 1 1)) (newGame 6 1 1).

(** [lineBoard] after the mine was revealed. *)
Definition lostBoard : Game :=
  Eval vm_compute in fromOk (play [Reveal [] 3 0] lineBoard) lineBoard.

(** A 4x1 board won by opening every safe cell while the mine at column 3
    carries a flag. *)
Definition wonBoard : Game :=
  Eval vm_compute in
    fromOk (play [Flag 3 0; Reveal [3; 0] 0 0] (newGame 4 1 1)) (newGame 4 1 1).

(** An 8x1 board with the mine at column 7.  Columns 1 and 3 were flagged,
    column 2 was revealed (opening only itself), and the flags were taken
    off again: an Opened Empty cell sits between Closed Empty cells. *)
Definition gapBoard : Game :=
  Eval vm_compute in
    fromOk (play [Flag 1 0; Flag 3 0; Reveal [7; 0] 2 0; Flag 1 0; Flag 3 0]
                 (newGame 8 1 1)) (newGame 8 1 1).

(** A 4x4 board generated around the safe cell (0, 0), mines at (3, 3) and
    (0, 3). *)
Definition generatedBoard : Game :=
  Eval vm_compute in
    fromOk (generate [3; 3; 0; 3] 0 0 (newGame 4 4 2)) (newGame 4 4 2).

(** A cell on which the rejection loop of [generate] may still place a
    mine: no mine yet and outside the safe zone. *)
Definition inSafeZoneb (safeX safeY : Z) (p : Z * Z) : bool :=
  (Z.abs (fst p - safeX) <=? 1) && (Z.abs (snd p - safeY) <=? 1).

Definition freeCell (safeX safeY : Z) (g : Game) (p : Z * Z) : bool :=
  cellHas (fun c => negb (isMine (content c))) g p && negb (inSafeZoneb safeX safeY p).

Definition freeCells (safeX safeY : Z) (g : Game) : list (Z * Z) :=
  List.filter (freeCell safeX safeY g) (cells g).

(** ** Invariants of the session, in the words of the player *)

(** A reveal never plants or removes a flag. *)
Definition keepsFlag (c c' : Cell) : Prop :=
  isFlagged (state c') = isFlagged (state c).

(** The game is in progress: the board has been generated and the game is
    neither lost nor won. *)
Definition inProgress (g : Game) : bool :=
  negb (firstClick g) && negb (gameOver g) && negb (win g).

(** Every cell without a mine carries the content the generator's number
    pass gives it. *)
Definition numbersCorrect (g : Game) : Prop :=
  ∀ x y c, cellAt (field g) x y = Ok c → isMine (content c) = false →
    content c = makeNumberContent (mineNeighbours g x y).

(** The board is as the generator leaves it. *)
Definition generated (g : Game) : Prop :=
  numbersCorrect g ∧ (0 ≤ MINES g → Z.of_nat (length (mineCells g)) = MINES g).

(** No mine has been opened. *)
Definition noOpenMine (g : Game) : Prop :=
  ∀ x y c, cellAt (field g) x y = Ok c → isOpen (state c) = true →
    isMine (content c) = false.

(** An Opened cell stays Opened. *)
Definition staysOpen (c c' : Cell) : Prop :=
  isOpen (state c) = true → isOpen (state c') = true.

(** ** Vocabulary for the presentation layer *)

(** The values of type [int]. *)
Definition int_range (z : Z) : Prop := -2147483648 ≤ z ≤ 2147483647.

(** The layout [main] uses for a game: the member initialisers, then
    [recompute] (lines 760 and 775). *)
Definition layoutFor (g : Game) : Layout :=
  match recompute g defaultLayout with Ok l => l | _ => defaultLayout end.

(** What [handleEvent] does with a press that it maps to the cell
    [(x, y)]: lines 654-657. *)
Definition forwardClick (rnd : list Z) (button : Mouse.Button) (x y : Z) (g : Game)
  : result (AppActionType.t * Game) :=
  match button with
  | Mouse.Left => g' ← leftClickCell rnd x y g; Ok (AppActionType.None, g')
  | Mouse.Right => g' ← rightClickCell x y g; Ok (AppActionType.None, g')
  | _ => Ok (AppActionType.None, g)
  end.

(** The pixel [(mx, my)] lies in the square of side [CELL] that belongs
    to the cell [(x, y)]. *)
Definition inCellSquare (layout : Layout) (x y mx my : Z) : Prop :=
  XOFFSET layout + x * CELL layout ≤ mx < XOFFSET layout + (x + 1) * CELL layout ∧
  OFFSET_Y layout + y * CELL layout ≤ my < OFFSET_Y layout + (y + 1) * CELL layout.


(** The rectangle lies inside the window area. *)
Definition fitsWindow (layout : Layout) (r : Z * Z * Z * Z) : Prop :=
  let '(rx, ry, width, height) := r in
  0 ≤ rx ∧ rx + width ≤ WINDOW_W layout ∧ 0 ≤ ry ∧ ry + height ≤ WINDOW_H layout.

(** The decimal digit [d] as a character. *)
Definition digitChar (d : Z) : Ascii.ascii := Ascii.ascii_of_nat (48 + Z.to_nat d).

(** A clock reading [MM:SS] of [t] seconds, digit by digit. *)
Definition clock (t : Z) : string :=
  String (digitChar (t / 600)) (String (digitChar (t / 60 mod 10)) "")
  +:+ ":" +:+
  String (digitChar (t mod 60 / 10)) (String (digitChar (t mod 60 mod 10)) "").

(** The drawn cell [d] is what the drawing loop makes of the cell at [p]. *)
Definition drawnFrom {theme : ITheme} (g : Game) (layout : Layout)
    (p : Z * Z) (d : DrawnCell) : Prop :=
  ∃ c, cellAt (field g) (fst p) (snd p) = Ok c ∧ d = drawCell g layout (fst p) (snd p) c.

(** What a frame may show of a cell: its state, and its content once it
    is Opened. *)
Definition sameVisible (c c' : Cell) : Prop :=
  state c' = state c ∧ (isOpen (state c) = true → content c' = content c).

(** Two sessions that look the same to the player. *)
Definition sameView (g g' : Game) : Prop :=
  wellFormed g ∧ wellFormed g' ∧
  W g' = W g ∧ H g' = H g ∧ MINES g' = MINES g ∧
  gameOver g' = gameOver g ∧ win g' = win g ∧ explosion g' = explosion g ∧
  timeElapsed g' = timeElapsed g ∧
  cellwise sameVisible g g'.

(** * Proofs *)

(** ** Vector access: basic facts *)

Lemma bind_Ok {A B} (m : result A) (k : A -> result B) b :
  (a ← m; k a) = Ok b ↔ ∃ a, m = Ok a ∧ k a = Ok b.
Proof.
  destruct m; simpl; split; try (intros (? & ? & ?)); try discriminate; eauto.
  congruence.
Qed.

Lemma at_Ok {A} (v : list A) i a :
  at_ v i = Ok a ↔ 0 ≤ i ∧ v !! Z.to_nat i = Some a.
Proof.
  unfold at_. destruct (Z.leb_spec 0 i).
  - destruct (v !! Z.to_nat i); split; intros; try discriminate.
    + split; [lia | congruence].
    + f_equal. destruct H1. congruence.
    + destruct H1; discriminate.
  - split; [discriminate | lia].
Qed.

Lemma cellAt_Ok f x y c :
  cellAt f x y = Ok c ↔
  0 ≤ x ∧ 0 ≤ y ∧ ∃ row, f !! Z.to_nat y = Some row ∧ row !! Z.to_nat x = Some c.
Proof.
  unfold cellAt. rewrite bind_Ok. setoid_rewrite at_Ok. split.
  - intros (row & [Hy Hrow] & [Hx Hc]). eauto 6.
  - intros (Hx & Hy & row & Hrow & Hc). eauto 6.
Qed.

Lemma cellAt_inBoard g x y c :
  wellFormed g → cellAt (field g) x y = Ok c → inBoard g x y = true.
Proof.
  intros [Hh Hw] (Hx & Hy & row & Hrow & Hc)%cellAt_Ok.
  pose proof (lookup_lt_Some _ _ _ Hrow) as Hly.
  pose proof (lookup_lt_Some _ _ _ Hc) as Hlx.
  rewrite Forall_lookup in Hw. rewrite (Hw _ _ Hrow) in Hlx.
  unfold inBoard. rewrite !andb_true_iff. repeat split; lia.
Qed.

Lemma inBoard_iff g x y :
  inBoard g x y = true ↔ 0 ≤ x < W g ∧ 0 ≤ y < H g.
Proof. unfold inBoard. rewrite !andb_true_iff, !Z.leb_le, !Z.ltb_lt. lia. Qed.

Lemma inBoard_cellAt g x y :
  wellFormed g → inBoard g x y = true → ∃ c, cellAt (field g) x y = Ok c.
Proof.
  intros [Hh Hw] [Hx Hy]%inBoard_iff.
  destruct (lookup_lt_is_Some_2 (field g) (Z.to_nat y)) as [row Hrow]; [lia|].
  rewrite Forall_lookup in Hw. pose proof (Hw _ _ Hrow) as Hlen.
  destruct (lookup_lt_is_Some_2 row (Z.to_nat x)) as [c Hc]; [lia|].
  exists c. apply cellAt_Ok. repeat split; [lia|lia|]. eauto.
Qed.

Lemma cellAt_alter f upd x y x' y' :
  0 ≤ x → 0 ≤ y →
  cellAt (alter (alter upd (Z.to_nat x)) (Z.to_nat y) f) x' y' =
  if decide (x' = x ∧ y' = y) then c ← cellAt f x y; Ok (upd c) else cellAt f x' y'.
Proof.
  intros Hx Hy. unfold cellAt, at_.
  destruct (Z.leb_spec 0 y'); [|case_decide; [lia|done]].
  destruct (decide (y' = y)) as [->|Hne].
  - rewrite list_lookup_alter_eq. destruct (f !! Z.to_nat y) as [row|]; simpl.
    + destruct (Z.leb_spec 0 x'); [|case_decide; [lia|done]].
      destruct (decide (x' = x)) as [->|Hnx].
      * rewrite list_lookup_alter_eq. case_decide; [|tauto].
        destruct (Z.leb_spec 0 y); [|lia]. simpl.
        destruct (Z.leb_spec 0 x); [|lia].
        destruct (row !! Z.to_nat x); done.
      * rewrite list_lookup_alter_ne by lia. case_decide; [lia|done].
    + case_decide; [|done]. destruct (Z.leb_spec 0 y); done.
  - rewrite list_lookup_alter_ne by lia. case_decide; [lia|done].
Qed.

Lemma wellFormed_set_field_alter g upd x y :
  wellFormed g →
  wellFormed (set_field (alter (alter upd (Z.to_nat x)) (Z.to_nat y) (field g)) g).
Proof.
  intros [Hh Hw]. split; simpl.
  - by rewrite length_alter.
  - apply Forall_lookup. intros i row.
    rewrite list_lookup_alter. case_decide as Hi.
    + subst i. destruct (field g !! Z.to_nat y) as [r|] eqn:E; simpl; [|done].
      intros [= <-]. rewrite length_alter. rewrite Forall_lookup in Hw. eauto.
    + rewrite Forall_lookup in Hw. eauto.
Qed.

(** What an in-range member assignment does. *)
Lemma updCell_Ok upd x y g g' :
  updCell upd x y g = Ok g' →
  sameSession g g' ∧
  (wellFormed g → wellFormed g') ∧
  ∃ c, cellAt (field g) x y = Ok c ∧
       cellAt (field g') x y = Ok (upd c) ∧
       ∀ x' y', (x', y') ≠ (x, y) → cellAt (field g') x' y' = cellAt (field g) x' y'.
Proof.
  unfold updCell. intros (c & Hc & [= <-])%bind_Ok.
  split; [done|]. split; [apply wellFormed_set_field_alter|].
  exists c. split; [done|]. pose proof Hc as (Hx & Hy & _)%cellAt_Ok.
  simpl. split.
  - rewrite cellAt_alter by done. case_decide; [|tauto]. by rewrite Hc.
  - intros x' y' Hne. rewrite cellAt_alter by done. case_decide as Heq; [|done].
    destruct Heq; congruence.
Qed.

Lemma updCell_defined upd x y g c :
  cellAt (field g) x y = Ok c → ∃ g', updCell upd x y g = Ok g'.
Proof. intros Hc. unfold updCell. rewrite Hc. simpl. eauto. Qed.

(** ** Loop rules *)

Lemma grid_cons y ys xs : grid (y :: ys) xs = ((λ x, (x, y)) <$> xs) ++ grid ys xs.
Proof.
  unfold grid. simpl. f_equal.
Qed.

Lemma elem_of_grid ys xs x y : (x, y) ∈ grid ys xs ↔ x ∈ xs ∧ y ∈ ys.
Proof.
  unfold grid. rewrite list_elem_of_bind. split.
  - intros (y' & (x' & Heq%list_elem_of_singleton & Hx)%list_elem_of_bind & Hy).
    simplify_eq. done.
  - intros [Hx Hy]. exists y. split; [|done]. apply list_elem_of_bind.
    exists x. split; [|done]. by apply list_elem_of_singleton.
Qed.

Lemma length_grid ys xs : length (grid ys xs) = (length ys * length xs)%nat.
Proof.
  induction ys as [|y ys IH]; [done|].
  rewrite grid_cons, length_app, length_fmap, IH. simpl. lia.
Qed.

Section Loops.
Context {S : Type}.

Lemma forEach_total {A} (I : list A → S → Prop) (l : list A) body s :
  I [] s →
  (∀ done i s, i ∈ l → I done s → ∃ s', body i s = Ok s' ∧ I (done ++ [i]) s') →
  ∃ s', forEach l body s = Ok s' ∧ I l s'.
Proof.
  intros H0 Hstep.
  cut (∀ l' done s, (∀ i, i ∈ l' → i ∈ l) → I done s →
         ∃ s', forEach l' body s = Ok s' ∧ I (done ++ l') s').
  { intros Hc. apply (Hc l [] s); auto. }
  clear s H0. induction l' as [|i l' IH]; intros done s Hsub Hd; simpl.
  - exists s. by rewrite app_nil_r.
  - destruct (Hstep done i s) as (s1 & -> & H1); [apply Hsub; left|done|].
    simpl. destruct (IH (done ++ [i]) s1) as (s' & -> & H'); [|done|].
    + intros j Hj. apply Hsub. by right.
    + exists s'. split; [done|]. by rewrite <- app_assoc in H'.
Qed.

(** Two nested [for] loops over a grid of cells, with an invariant over
    the cells already processed.  The inner bound is re-read from the
    state, as the source does with [game.W]. *)
Lemma forCells_total (I : list (Z * Z) → S → Prop) ys xs (xsOf : S → list Z)
    (body : Z → Z → S → result S) s :
  I [] s →
  (∀ done s, I done s → xsOf s = xs) →
  (∀ done x y s, x ∈ xs → y ∈ ys → I done s →
     ∃ s', body x y s = Ok s' ∧ I (done ++ [(x, y)]) s') →
  ∃ s', forEach ys (λ y s, forEach (xsOf s) (λ x s, body x y s) s) s = Ok s'
        ∧ I (grid ys xs) s'.
Proof.
  intros H0 Hxs Hstep.
  cut (∀ ys' done s, (∀ y, y ∈ ys' → y ∈ ys) → I done s →
         ∃ s', forEach ys' (λ y s, forEach (xsOf s) (λ x s, body x y s) s) s = Ok s'
               ∧ I (done ++ grid ys' xs) s').
  { intros Hc. apply (Hc ys [] s); auto. }
  clear s H0. induction ys' as [|y ys' IH]; intros done s Hsub Hd; simpl.
  - exists s. by rewrite app_nil_r.
  - rewrite (Hxs _ _ Hd).
    destruct (forEach_total (λ l s, I (done ++ ((λ x, (x, y)) <$> l)) s)
                xs (λ x s, body x y s) s) as (s1 & -> & H1).
    + simpl. by rewrite app_nil_r.
    + intros dn x s0 Hx Hs0. destruct (Hstep _ x y s0 Hx (Hsub y ltac:(left)) Hs0)
        as (s' & Hb & Hs'). exists s'. split; [done|].
      by rewrite fmap_app, app_assoc.
    + simpl. destruct (IH _ s1 (λ j Hj, Hsub j ltac:(by right)) H1) as (s' & -> & H').
      exists s'. split; [done|]. by rewrite grid_cons, app_assoc.
Qed.

(** The same with a body that may [return] from the enclosing function:
    either the loops run to the end under the invariant, or some
    iteration returned and established [Q]. *)
Lemma forEachR_total (I : list Z → S → Prop) (Q : Prop) l body s :
  I [] s →
  (∀ done i s, i ∈ l → I done s →
     (∃ s', body i s = Ok (Next s') ∧ I (done ++ [i]) s') ∨
     (body i s = Ok Return ∧ Q)) →
  (∃ s', forEachR l body s = Ok (Next s') ∧ I l s') ∨
  (forEachR l body s = Ok Return ∧ Q).
Proof.
  intros H0 Hstep.
  cut (∀ l' done s, (∀ i, i ∈ l' → i ∈ l) → I done s →
         (∃ s', forEachR l' body s = Ok (Next s') ∧ I (done ++ l') s') ∨
         (forEachR l' body s = Ok Return ∧ Q)).
  { intros Hc. apply (Hc l [] s); auto. }
  clear s H0. induction l' as [|i l' IH]; intros done s Hsub Hd; simpl.
  - left. exists s. by rewrite app_nil_r.
  - destruct (Hstep done i s) as [(s1 & -> & H1)|[-> HQ]]; [apply Hsub; left|done| |].
    + simpl. destruct (IH (done ++ [i]) s1) as [(s' & -> & H')|[-> HQ]]; [|done| |].
      * intros j Hj. apply Hsub. by right.
      * left. exists s'. split; [done|]. by rewrite <- app_assoc in H'.
      * by right.
    + by right.
Qed.

Lemma forCellsR_total (I : list (Z * Z) → S → Prop) (Q : Prop) ys xs
    (body : Z → Z → S → result (flow S)) s :
  I [] s →
  (∀ done x y s, x ∈ xs → y ∈ ys → I done s →
     (∃ s', body x y s = Ok (Next s') ∧ I (done ++ [(x, y)]) s') ∨
     (body x y s = Ok Return ∧ Q)) →
  (∃ s', forEachR ys (λ y s, forEachR xs (λ x s, body x y s) s) s = Ok (Next s')
         ∧ I (grid ys xs) s') ∨
  (forEachR ys (λ y s, forEachR xs (λ x s, body x y s) s) s = Ok Return ∧ Q).
Proof.
  intros H0 Hstep.
  cut (∀ ys' done s, (∀ y, y ∈ ys' → y ∈ ys) → I done s →
    (∃ s', forEachR ys' (λ y s, forEachR xs (λ x s, body x y s) s) s = Ok (Next s')
           ∧ I (done ++ grid ys' xs) s') ∨
    (forEachR ys' (λ y s, forEachR xs (λ x s, body x y s) s) s = Ok Return ∧ Q)).
  { intros Hc. apply (Hc ys [] s); auto. }
  clear s H0. induction ys' as [|y ys' IH]; intros done s Hsub Hd; simpl.
  - left. exists s. by rewrite app_nil_r.
  - destruct (forEachR_total (λ l s, I (done ++ ((λ x, (x, y)) <$> l)) s) Q
                xs (λ x s, body x y s) s) as [(s1 & -> & H1)|[-> HQ]].
    + simpl. by rewrite app_nil_r.
    + intros dn x s0 Hx Hs0. destruct (Hstep _ x y s0 Hx (Hsub y ltac:(left)) Hs0)
        as [(s' & Hb & Hs')|[Hb HQ]]; [left|by right].
      exists s'. split; [done|]. by rewrite fmap_app, app_assoc.
    + simpl. destruct (IH _ s1 (λ j Hj, Hsub j ltac:(by right)) H1)
        as [(s' & -> & H')|[-> HQ]]; [left|by right].
      exists s'. split; [done|]. by rewrite grid_cons, app_assoc.
    + by right.
Qed.
End Loops.

Lemma elem_of_upto n i : i ∈ upto n ↔ 0 ≤ i < n.
Proof. unfold upto. rewrite elem_of_seqZ. lia. Qed.

(** ** Sessions that differ only in the field *)

Lemma sameSession_refl g : sameSession g g.
Proof. by destruct g. Qed.

Lemma sameSession_trans g1 g2 g3 :
  sameSession g1 g2 → sameSession g2 g3 → sameSession g1 g3.
Proof. unfold sameSession. intros -> ->. done. Qed.

Lemma sameSession_fields g g' :
  sameSession g g' →
  W g' = W g ∧ H g' = H g ∧ MINES g' = MINES g ∧ gameOver g' = gameOver g ∧
  win g' = win g ∧ firstClick g' = firstClick g ∧ explosion g' = explosion g ∧
  explosionTimer g' = explosionTimer g ∧ timerRunning g' = timerRunning g ∧
  timeElapsed g' = timeElapsed g.
Proof. unfold sameSession. intros ->. by repeat split. Qed.

Lemma sameSession_eq g g' :
  sameSession g g' → field g' = field g → g' = g.
Proof. unfold sameSession. intros -> E. simpl in E. rewrite E. by destruct g. Qed.

Lemma sameSession_inBoard g g' x y :
  sameSession g g' → inBoard g' x y = inBoard g x y.
Proof. unfold sameSession. intros ->. done. Qed.

Lemma in_cells g x y : (x, y) ∈ cells g ↔ inBoard g x y = true.
Proof.
  unfold cells. rewrite elem_of_grid, !elem_of_upto, inBoard_iff. tauto.
Qed.

(** ** Loss: [triggerExplosion] *)

Lemma setState_Ok s x y g g' :
  setState s x y g = Ok g' →
  sameSession g g' ∧ (wellFormed g → wellFormed g') ∧
  ∃ c, cellAt (field g) x y = Ok c ∧
       cellAt (field g') x y = Ok {| content := content c; state := s |} ∧
       ∀ x' y', (x', y') ≠ (x, y) → cellAt (field g') x' y' = cellAt (field g) x' y'.
Proof. apply updCell_Ok. Qed.

Lemma setContent_Ok k x y g g' :
  setContent k x y g = Ok g' →
  sameSession g g' ∧ (wellFormed g → wellFormed g') ∧
  ∃ c, cellAt (field g) x y = Ok c ∧
       cellAt (field g') x y = Ok {| content := k; state := state c |} ∧
       ∀ x' y', (x', y') ≠ (x, y) → cellAt (field g') x' y' = cellAt (field g) x' y'.
Proof. apply updCell_Ok. Qed.

Lemma revealAll_total g :
  wellFormed g →
  ∃ g', forEach (upto (H g)) (fun yy g =>
          forEach (upto (W g)) (fun xx g => setState makeOpenedState xx yy g) g) g = Ok g'
        ∧ sameSession g g' ∧ wellFormed g'
        ∧ cellwise (fun c c' => content c' = content c ∧ state c' = OpenedState) g g'.
Proof.
  intros Hwf.
  destruct (forCells_total
    (λ done s, sameSession g s ∧ wellFormed s ∧
       cellwise (λ c c', content c' = content c ∧
                         (state c' = OpenedState ∨ state c' = state c)) g s ∧
       ∀ x y c', (x, y) ∈ done → cellAt (field s) x y = Ok c' → state c' = OpenedState)
    (upto (H g)) (upto (W g)) (λ s, upto (W s))
    (λ xx yy s, setState makeOpenedState xx yy s) g) as (g' & Hrun & Hs & Hwf' & Hcw & Hall).
  - split; [apply sameSession_refl|]. split; [done|]. split.
    + intros x y c Hc. eauto.
    + intros x y c' Hin. by apply elem_of_nil in Hin.
  - intros done s (Hs & _). by destruct (sameSession_fields _ _ Hs) as (-> & _).
  - intros done x y s Hx%elem_of_upto Hy%elem_of_upto (Hs & Hwfs & Hcw & Hd).
    destruct (inBoard_cellAt s x y Hwfs) as [c Hc].
    { rewrite (sameSession_inBoard _ _ _ _ Hs). by apply inBoard_iff. }
    destruct (updCell_defined (fun c => {| content := content c; state := makeOpenedState |})
                x y s c Hc) as [s' Hs'].
    exists s'. split; [done|].
    apply setState_Ok in Hs' as (Hss & Hwf' & c0 & Hc0 & Hnew & Hother).
    split; [by eapply sameSession_trans|]. split; [auto|]. split.
    + intros x1 y1 c1 Hc1. destruct (Hcw _ _ _ Hc1) as (c2 & Hc2 & Hcont & Hst).
      destruct (decide ((x1, y1) = (x, y))) as [[= -> ->]|Hne].
      * eexists. split; [done|]. simpl. split; [congruence|by left].
      * rewrite Hother by done. eauto.
    + intros x1 y1 c1 [Hin|Hin%list_elem_of_singleton]%elem_of_app Hc1.
      * destruct (decide ((x1, y1) = (x, y))) as [[= -> ->]|Hne].
        -- rewrite Hnew in Hc1. by injection Hc1 as <-.
        -- rewrite Hother in Hc1 by done. eauto.
      * injection Hin as -> ->. rewrite Hnew in Hc1. by injection Hc1 as <-.
  - exists g'. split; [done|]. split; [done|]. split; [done|].
    intros x y c Hc. destruct (Hcw _ _ _ Hc) as (c' & Hc' & Hcont & _).
    exists c'. split; [done|]. split; [done|].
    eapply Hall; [|done]. apply elem_of_grid. rewrite !elem_of_upto.
    apply inBoard_iff. by eapply cellAt_inBoard.
Qed.

Lemma triggerExplosion_total g :
  wellFormed g →
  ∃ g', triggerExplosion g = Ok g' ∧ wellFormed g' ∧
    g' = set_field (field g')
           (stopTimer (set_gameOver true (set_explosionTimer f0_2 (set_explosion true g)))) ∧
    cellwise (fun c c' => content c' = content c ∧ state c' = OpenedState) g g'.
Proof.
  intros Hwf. unfold triggerExplosion.
  destruct (revealAll_total (set_explosionTimer f0_2 (set_explosion true g)))
    as (g1 & Hrun & Hs & Hwf1 & Hcw); [done|].
  simpl in Hrun. simpl. rewrite Hrun. simpl.
  eexists. split; [done|]. split; [done|]. split; [|done].
  simpl. unfold sameSession in Hs. rewrite Hs at 1. done.
Qed.

(** ** Win determination *)

Lemma checkWinOpen_total g :
  wellFormed g →
  (allSafeOpen g ∧ checkWinOpen g = Ok (stopTimer (set_win true g))) ∨
  (¬ allSafeOpen g ∧ checkWinOpen g = Ok g).
Proof.
  intros Hwf. unfold checkWinOpen.
  destruct (forCellsR_total
    (λ done (_ : unit), ∀ x y c, (x, y) ∈ done → cellAt (field g) x y = Ok c →
       isMine (content c) = false → isOpen (state c) = true)
    (¬ allSafeOpen g)
    (upto (H g)) (upto (W g))
    (λ x y u, c ← cellAt (field g) x y;
       if negb (isMine (content c)) && negb (isOpen (state c))
       then Ok Return else Ok (Next u)) tt) as [(u & -> & Hall)|[-> Hnot]].
  - intros x y c Hin. by apply elem_of_nil in Hin.
  - intros done x y u Hx%elem_of_upto Hy%elem_of_upto Hd.
    destruct (inBoard_cellAt g x y Hwf) as [c Hc]; [by apply inBoard_iff|].
    rewrite Hc. simpl.
    destruct (isMine (content c)) eqn:Em; simpl.
    + left. exists u. split; [done|].
      intros x1 y1 c1 [Hin|Hin%list_elem_of_singleton]%elem_of_app Hc1;
        [by apply (Hd _ _ _ Hin Hc1)|].
      injection Hin as -> ->. congruence.
    + destruct (isOpen (state c)) eqn:Eo; simpl.
      * left. exists u. split; [done|].
        intros x1 y1 c1 [Hin|Hin%list_elem_of_singleton]%elem_of_app Hc1;
          [by apply (Hd _ _ _ Hin Hc1)|].
        injection Hin as -> ->. congruence.
      * right. split; [done|]. intros Hall. specialize (Hall _ _ _ Hc Em). congruence.
  - left. split; [|done]. intros x y c Hc. apply (Hall x y c); [|done].
    apply elem_of_grid. rewrite !elem_of_upto. apply inBoard_iff. by eapply cellAt_inBoard.
  - right. done.
Qed.

Lemma filter_snoc {A} (P : A → bool) l a :
  List.filter P (l ++ [a]) = List.filter P l ++ (if P a then [a] else []).
Proof. rewrite List.filter_app. done. Qed.

Lemma checkWinFlags_total g :
  wellFormed g →
  (winByFlags g ∧ checkWinFlags g = Ok (stopTimer (set_win true g))) ∨
  (¬ winByFlags g ∧ checkWinFlags g = Ok g).
Proof.
  intros Hwf. unfold checkWinFlags. cbv zeta.
  destruct (forCellsR_total
    (λ done flagged,
       flagged = Z.of_nat (length (List.filter (cellHas (λ c, isFlagged (state c)) g) done)) ∧
       ∀ x y c, (x, y) ∈ done → cellAt (field g) x y = Ok c →
         isFlagged (state c) = true → isMine (content c) = true)
    (¬ flagsOnlyOnMines g)
    (upto (H g)) (upto (W g))
    (λ x y flagged, c ← cellAt (field g) x y;
       if isFlagged (state c) then
         if negb (isMine (content c)) then Ok Return else Ok (Next (flagged + 1))
       else Ok (Next flagged)) 0) as [(n & -> & Hn & Hall)|[-> Hnot]].
  - split; [done|]. intros x y c Hin. by apply elem_of_nil in Hin.
  - intros done x y n Hx%elem_of_upto Hy%elem_of_upto [Hn Hd].
    destruct (inBoard_cellAt g x y Hwf) as [c Hc]; [by apply inBoard_iff|].
    rewrite Hc. simpl.
    destruct (isFlagged (state c)) eqn:Ef; simpl.
    + destruct (isMine (content c)) eqn:Em; simpl.
      * left. eexists. split; [done|]. split.
        -- rewrite filter_snoc. unfold cellHas at 2. simpl. rewrite Hc, Ef.
           rewrite length_app. simpl. lia.
        -- intros x1 y1 c1 [Hin|Hin%list_elem_of_singleton]%elem_of_app Hc1;
          [by apply (Hd _ _ _ Hin Hc1)|].
           injection Hin as -> ->. congruence.
      * right. split; [done|]. intros Hall. specialize (Hall _ _ _ Hc Ef). congruence.
    + left. eexists. split; [done|]. split.
      * rewrite filter_snoc. unfold cellHas at 2. simpl. rewrite Hc, Ef.
        rewrite app_nil_r. done.
      * intros x1 y1 c1 [Hin|Hin%list_elem_of_singleton]%elem_of_app Hc1;
        [by apply (Hd _ _ _ Hin Hc1)|].
        injection Hin as -> ->. congruence.
  - assert (flagsOnlyOnMines g) as Hfm.
    { intros x y c Hc. apply (Hall x y c); [|done].
      apply elem_of_grid. rewrite !elem_of_upto. apply inBoard_iff. by eapply cellAt_inBoard. }
    fold (cells g) in Hn. fold (flaggedCells g) in Hn. simpl.
    destruct (Z.eqb_spec n (MINES g)) as [E|E].
    + left. split; [|done]. split; [congruence|done].
    + right. split; [|done]. intros [E' _]. congruence.
  - right. split; [|done]. intros [_ Hfm]. done.
Qed.

Lemma checkWin_total g :
  wellFormed g → win g = false →
  ((allSafeOpen g ∨ winByFlags g) ∧ checkWin g = Ok (stopTimer (set_win true g))) ∨
  (¬ (allSafeOpen g ∨ winByFlags g) ∧ checkWin g = Ok g).
Proof.
  intros Hwf Hw. unfold checkWin.
  destruct (checkWinOpen_total g Hwf) as [[Ho ->]|[Ho ->]]; simpl.
  - left. auto.
  - rewrite Hw. simpl.
    destruct (checkWinFlags_total g Hwf) as [[Hf ->]|[Hf ->]]; [left|right]; tauto.
Qed.

(** ** What the methods leave alone *)

Lemma forEach_preserves {A S} (P : S → Prop) (l : list A) (body : A → S → result S) s s' :
  forEach l body s = Ok s' → P s →
  (∀ i s s1, P s → body i s = Ok s1 → P s1) → P s'.
Proof.
  intros Hrun H0 Hstep. revert s Hrun H0.
  induction l as [|i l IH]; simpl; intros s Hrun H0.
  - by injection Hrun as <-.
  - apply bind_Ok in Hrun as (s1 & Hb & Hrun). eauto.
Qed.

Lemma forCells_preserves {S} (P : S → Prop) ys (xsOf : S → list Z)
    (body : Z → Z → S → result S) s s' :
  forEach ys (λ y s, forEach (xsOf s) (λ x s, body x y s) s) s = Ok s' → P s →
  (∀ x y s s1, P s → body x y s = Ok s1 → P s1) → P s'.
Proof.
  intros Hrun H0 Hstep. eapply forEach_preserves; [exact Hrun|done|].
  intros y s0 s1 Hs0 Hin. simpl in Hin.
  eapply forEach_preserves; [exact Hin|done|]. intros x s2 s3. apply Hstep.
Qed.

Lemma frames_refl (R : Cell → Cell → Prop) g :
  (∀ c, R c c) → frames R g g.
Proof.
  intros HR. split; [apply sameSession_refl|]. split; [done|].
  intros x y c Hc. eauto.
Qed.

Lemma frames_trans (R : Cell → Cell → Prop) g1 g2 g3 :
  (∀ a b c, R a b → R b c → R a c) →
  frames R g1 g2 → frames R g2 g3 → frames R g1 g3.
Proof.
  intros HR (Hs1 & Hw1 & Hc1) (Hs2 & Hw2 & Hc2).
  split; [by eapply sameSession_trans|]. split; [auto|].
  intros x y c Hc. destruct (Hc1 _ _ _ Hc) as (c1 & Hc1' & HR1).
  destruct (Hc2 _ _ _ Hc1') as (c2 & Hc2' & HR2). eauto.
Qed.

Lemma frames_weaken (R R' : Cell → Cell → Prop) g g' :
  (∀ a b, R a b → R' a b) → frames R g g' → frames R' g g'.
Proof.
  intros HR (Hs & Hw & Hc). split; [done|]. split; [done|].
  intros x y c Hxy. destruct (Hc _ _ _ Hxy) as (c' & ? & ?). eauto.
Qed.

Lemma updCell_frames (R : Cell → Cell → Prop) upd x y g g' :
  (∀ c, R c c) → (∀ c, cellAt (field g) x y = Ok c → R c (upd c)) →
  updCell upd x y g = Ok g' → frames R g g'.
Proof.
  intros Hrefl Hupd (Hs & Hw & c & Hc & Hnew & Hother)%updCell_Ok.
  split; [done|]. split; [done|].
  intros x1 y1 c1 Hc1. destruct (decide ((x1, y1) = (x, y))) as [[= -> ->]|Hne].
  - exists (upd c). split; [done|]. rewrite Hc in Hc1. injection Hc1 as <-. auto.
  - rewrite <- Hother in Hc1 by done. eauto.
Qed.

Lemma opensOnly_refl c : opensOnly c c.
Proof. by left. Qed.

Lemma opensOnly_trans a b c : opensOnly a b → opensOnly b c → opensOnly a c.
Proof.
  intros [->|[Ha ->]] [->|[Hb ->]]; unfold opensOnly; auto.
Qed.

Lemma floodFill_unfold depth x y g :
  floodFill (S depth) x y g =
  forEach around (fun dy g =>
    forEach around (fun dx g =>
      if negb ((dx =? 0) && (dy =? 0)) then
        if inBoard g (x + dx) (y + dy) then
          c ← cellAt (field g) (x + dx) (y + dy);
          if fillable c then
            g1 ← setState makeOpenedState (x + dx) (y + dy) g;
            if isEmpty (content c) then floodFill depth (x + dx) (y + dy) g1 else Ok g1
          else Ok g
        else Ok g
      else Ok g) g) g.
Proof. reflexivity. Qed.

(** ** Board generation *)

Lemma keepsState_refl c : keepsState c c.
Proof. done. Qed.
Lemma keepsState_trans a b c : keepsState a b → keepsState b c → keepsState a c.
Proof. unfold keepsState. congruence. Qed.

Lemma keepsMines_refl c : keepsMines c c.
Proof. done. Qed.
Lemma keepsMines_trans a b c : keepsMines a b → keepsMines b c → keepsMines a c.
Proof.
  unfold keepsMines. intros (? & Hm & Hk) (? & Hm' & Hk').
  repeat split; try congruence. intros Ha. rewrite Hk', Hk; congruence.
Qed.

Lemma frames_inBoard R g g' x y : frames R g g' → inBoard g' x y = inBoard g x y.
Proof. intros [Hs _]. by apply sameSession_inBoard. Qed.

Lemma frames_cells R g g' : frames R g g' → cells g' = cells g.
Proof.
  intros [Hs _]. unfold cells.
  by destruct (sameSession_fields _ _ Hs) as (-> & -> & _).
Qed.

Lemma frames_W R g g' : frames R g g' → W g' = W g.
Proof. intros [Hs _]. by destruct (sameSession_fields _ _ Hs) as (-> & _). Qed.

Lemma frames_MINES R g g' : frames R g g' → MINES g' = MINES g.
Proof. intros [Hs _]. by destruct (sameSession_fields _ _ Hs) as (_ & _ & -> & _). Qed.

Lemma frames_wellFormed R g g' : frames R g g' → wellFormed g → wellFormed g'.
Proof. intros (_ & Hw & _). done. Qed.

Lemma clearContent_total g :
  wellFormed g →
  ∃ g', clearContent g = Ok g' ∧ frames keepsState g g' ∧
    ∀ x y c, cellAt (field g') x y = Ok c → content c = EmptyContent.
Proof.
  intros Hwf. unfold clearContent.
  destruct (forCells_total
    (λ done s, frames keepsState g s ∧
       ∀ x y c, (x, y) ∈ done → cellAt (field s) x y = Ok c → content c = EmptyContent)
    (upto (H g)) (upto (W g)) (λ s, upto (W s))
    (λ x y s, setContent (makeNumberContent 0) x y s) g) as (g' & Hrun & Hf & Hall).
  - split; [apply frames_refl, keepsState_refl|].
    intros x y c Hin. by apply elem_of_nil in Hin.
  - intros done s [Hf _]. by rewrite (frames_W _ _ _ Hf).
  - intros done x y s Hx%elem_of_upto Hy%elem_of_upto [Hf Hd].
    destruct (inBoard_cellAt s x y) as [c Hc].
    { by eapply frames_wellFormed. }
    { rewrite (frames_inBoard _ _ _ _ _ Hf). by apply inBoard_iff. }
    destruct (updCell_defined (fun c => {| content := makeNumberContent 0; state := state c |})
                x y s c Hc) as [s' Hs'].
    exists s'. split; [done|]. split.
    + eapply frames_trans; [apply keepsState_trans|exact Hf|].
      eapply updCell_frames; [apply keepsState_refl| |exact Hs']. done.
    + apply setContent_Ok in Hs' as (_ & _ & c0 & Hc0 & Hnew & Hother).
      intros x1 y1 c1 Hin Hc1.
      destruct (decide ((x1, y1) = (x, y))) as [[= -> ->]|Hne].
      * rewrite Hnew in Hc1. by injection Hc1 as <-.
      * rewrite Hother in Hc1 by done.
        apply elem_of_app in Hin as [Hin|Hin%list_elem_of_singleton]; [by eauto|done].
  - exists g'. split; [done|]. split; [done|].
    intros x y c Hc. apply (Hall x y c); [|done].
    apply in_cells. rewrite <- (frames_inBoard _ _ _ _ _ Hf).
    eapply cellAt_inBoard; [|done]. by eapply frames_wellFormed.
Qed.

Lemma pairs_ind {A} (P : list A → Prop) :
  P [] → (∀ a, P [a]) → (∀ a b l, P l → P (a :: b :: l)) → ∀ l, P l.
Proof.
  intros H0 H1 H2 l. cut (P l ∧ ∀ a, P (a :: l)); [tauto|].
  induction l as [|b l [IH1 IH2]]; split; auto.
Qed.

Lemma NoDup_grid ys xs : NoDup ys → NoDup xs → NoDup (grid ys xs).
Proof.
  intros Hys Hxs. unfold grid. apply NoDup_bind; [| |done].
  - intros y1 y2 [x y] _ _ (x1 & Hin1%list_elem_of_singleton & _)%list_elem_of_bind
      (x2 & Hin2%list_elem_of_singleton & _)%list_elem_of_bind. congruence.
  - intros y _. apply NoDup_bind; [| |done].
    + intros x1 x2 p _ _ Hin1%list_elem_of_singleton Hin2%list_elem_of_singleton. congruence.
    + intros x _. apply NoDup_singleton.
Qed.

Lemma NoDup_cells g : NoDup (cells g).
Proof. apply NoDup_grid; apply NoDup_seqZ. Qed.

Lemma filter_length_ext {A} (P P' : A → bool) (l : list A) :
  (∀ a, a ∈ l → P' a = P a) → List.filter P' l = List.filter P l.
Proof.
  intros Hext. apply List.filter_ext_in. intros a Ha. apply Hext.
  by apply list_elem_of_In.
Qed.

Lemma filter_length_point {A} (P P' : A → bool) (l : list A) a :
  NoDup l → a ∈ l → P a = false → P' a = true →
  (∀ b, b ∈ l → b ≠ a → P' b = P b) →
  length (List.filter P' l) = Datatypes.S (length (List.filter P l)).
Proof.
  intros Hnd Hin Ha Ha' Hext. induction Hnd as [|b l Hb Hnd IH]; [by apply elem_of_nil in Hin|].
  apply elem_of_cons in Hin as [<-|Hin]; simpl.
  - rewrite Ha, Ha'. simpl. f_equal. f_equal. apply filter_length_ext.
    intros c Hc. apply Hext; [by right|]. intros ->. done.
  - rewrite (Hext b); [|by left|intros ->; done].
    destruct (P b); simpl; rewrite IH; auto.
    all: intros c Hc; apply Hext; by right.
Qed.

Lemma addsMines_refl c : addsMines c c.
Proof. split; auto. Qed.
Lemma addsMines_trans a b c : addsMines a b → addsMines b c → addsMines a c.
Proof.
  unfold addsMines. intros [Hs [Hk|[Hm Hk]]] [Hs' [Hk'|[Hm' Hk']]];
    split; try congruence.
  - left. congruence.
  - right. split; congruence.
  - right. split; congruence.
  - right. split; congruence.
Qed.

Lemma cellHas_Ok P g x y c :
  cellAt (field g) x y = Ok c → cellHas P g (x, y) = P c.
Proof. unfold cellHas. simpl. by intros ->. Qed.

(** Placing one mine on a non-mine cell raises the number of mines by one. *)
Lemma mineCells_setMine g g' x y c :
  wellFormed g →
  cellAt (field g) x y = Ok c → isMine (content c) = false →
  setContent makeMineContent x y g = Ok g' →
  length (mineCells g') = Datatypes.S (length (mineCells g)).
Proof.
  intros Hwf Hc Hm Hset. pose proof Hset as (Hs & Hw & c0 & Hc0 & Hnew & Hother)%setContent_Ok.
  unfold mineCells. replace (cells g') with (cells g).
  2:{ unfold cells. by destruct (sameSession_fields _ _ Hs) as (-> & -> & _). }
  apply (filter_length_point _ _ _ (x, y)).
  - apply NoDup_cells.
  - apply in_cells. by eapply cellAt_inBoard.
  - by rewrite (cellHas_Ok _ _ _ _ _ Hc).
  - by rewrite (cellHas_Ok _ _ _ _ _ Hnew).
  - intros [x1 y1] _ Hne. unfold cellHas. simpl. by rewrite Hother.
Qed.

Lemma placeMines_Ok rnd sx sy placed g g' :
  wellFormed g →
  placeMines rnd sx sy placed g = Ok g' →
  frames addsMines g g' ∧
  (safeZoneClear sx sy g → safeZoneClear sx sy g') ∧
  (placed ≤ MINES g →
   Z.of_nat (length (mineCells g')) = Z.of_nat (length (mineCells g)) + (MINES g - placed)).
Proof.
  revert placed g. induction rnd as [|r|rx ry rnd IH] using pairs_ind;
    intros placed g Hwf Hrun; simpl in Hrun.
  1,2: destruct (Z.ltb_spec placed (MINES g)); [done|]; injection Hrun as <-;
       (split; [apply frames_refl, addsMines_refl|]); (split; [done|]); lia.
  destruct (Z.ltb_spec placed (MINES g)) as [Hlt|Hge].
  2:{ injection Hrun as <-. split; [apply frames_refl, addsMines_refl|]. split; [done|]. lia. }
  apply bind_Ok in Hrun as (x & Hx & Hrun). apply bind_Ok in Hrun as (y & Hy & Hrun).
  apply bind_Ok in Hrun as (c & Hc & Hrun).
  destruct (isMine (content c)) eqn:Hm; [by apply IH|].
  destruct ((Z.abs (x - sx) <=? 1) && (Z.abs (y - sy) <=? 1)) eqn:Hz; [by apply IH|].
  apply bind_Ok in Hrun as (g1 & Hset & Hrun).
  assert (frames addsMines g g1) as Hf1.
  { eapply updCell_frames; [apply addsMines_refl| |exact Hset].
    intros c0 Hc0. rewrite Hc in Hc0. injection Hc0 as <-. split; [done|]. right. done. }
  destruct (IH (placed + 1) g1) as (Hf & Hsafe & Hcount); [by eapply frames_wellFormed|done|].
  split; [eapply frames_trans; [apply addsMines_trans|exact Hf1|exact Hf]|]. split.
  - intros Hclear. apply Hsafe. intros x1 y1 c1 Hc1 Hin.
    apply setContent_Ok in Hset as (_ & _ & c0 & Hc0 & Hnew & Hother).
    destruct (decide ((x1, y1) = (x, y))) as [[= -> ->]|Hne].
    + destruct Hin as [Hin1 Hin2]. apply andb_false_iff in Hz as [Hz|Hz];
        apply Z.leb_gt in Hz; lia.
    + rewrite Hother in Hc1 by done. eauto.
  - intros Hle. rewrite (frames_MINES _ _ _ Hf1) in Hcount.
    rewrite Hcount by lia. rewrite (mineCells_setMine g g1 x y c) by done. lia.
Qed.

Lemma filter_filter_map {A B} (P Q : B → bool) (f : A → B) (l : list A) :
  List.filter P (List.filter Q (List.map f l)) =
  List.map f (List.filter (λ d, Q (f d) && P (f d)) l).
Proof.
  induction l as [|a l IH]; simpl; [done|].
  destruct (Q (f a)); simpl; [|done].
  destruct (P (f a)); simpl; by rewrite IH.
Qed.

(** [countMinesAround] computes the brute-force neighbour count. *)
Lemma countMinesAround_total g x y :
  wellFormed g → countMinesAround g x y = Ok (mineNeighbours g x y).
Proof.
  intros Hwf. unfold countMinesAround.
  pose (pred := λ d : Z * Z,
    negb ((fst d =? 0) && (snd d =? 0)) &&
    (inBoard g (x + fst d) (y + snd d) &&
     cellHas (λ c, isMine (content c)) g (x + fst d, y + snd d))).
  destruct (forCells_total
    (λ done cnt, cnt = Z.of_nat (length (List.filter pred done)))
    around around (λ _, around)
    (λ dx dy cnt,
      if negb ((dx =? 0) && (dy =? 0)) then
        let nx := x + dx in
        let ny := y + dy in
        if inBoard g nx ny then
          c ← cellAt (field g) nx ny;
          if isMine (content c) then Ok (cnt + 1) else Ok cnt
        else Ok cnt
      else Ok cnt) 0) as (n & Hrun & Hn); [done|done| |].
  - intros done dx dy cnt _ _ ->. rewrite filter_snoc, length_app.
    assert (pred (dx, dy) = negb ((dx =? 0) && (dy =? 0)) &&
      (inBoard g (x + dx) (y + dy) &&
       cellHas (λ c, isMine (content c)) g (x + dx, y + dy))) as -> by reflexivity.
    simpl. destruct (negb ((dx =? 0) && (dy =? 0))); simpl; [|eexists; split; [done|lia]].
    destruct (inBoard g (x + dx) (y + dy)) eqn:Hin; simpl; [|eexists; split; [done|lia]].
    destruct (inBoard_cellAt g _ _ Hwf Hin) as [c Hc]. rewrite Hc. simpl.
    rewrite (cellHas_Ok _ _ _ _ _ Hc).
    destruct (isMine (content c)); simpl; eexists; (split; [done|lia]).
  - transitivity (Ok n); [exact Hrun|]. f_equal. rewrite Hn.
    unfold mineNeighbours, neighbours.
    rewrite filter_filter_map, length_map. done.
Qed.

Lemma isMine_makeNumberContent n : isMine (makeNumberContent n) = false.
Proof.
  unfold makeNumberContent, CellContentFactory.makeNumber. by destruct (n <=? 0).
Qed.

Lemma in_neighbours g x y p : p ∈ neighbours g x y → inBoard g (fst p) (snd p) = true.
Proof.
  unfold neighbours. rewrite list_elem_of_In, List.filter_In. tauto.
Qed.

(** The neighbour count only depends on where the mines are. *)
Lemma mineNeighbours_frames g g' x y :
  wellFormed g → frames keepsMines g g' →
  mineNeighbours g' x y = mineNeighbours g x y.
Proof.
  intros Hwf Hf. unfold mineNeighbours.
  assert (neighbours g' x y = neighbours g x y) as ->.
  { unfold neighbours. apply List.filter_ext. intros p. by eapply frames_inBoard. }
  f_equal. f_equal. apply filter_length_ext. intros [x1 y1] Hin%in_neighbours.
  destruct (inBoard_cellAt g x1 y1 Hwf Hin) as [c Hc].
  destruct Hf as (_ & _ & Hcw). destruct (Hcw _ _ _ Hc) as (c' & Hc' & _ & Hm & _).
  by rewrite (cellHas_Ok _ _ _ _ _ Hc), (cellHas_Ok _ _ _ _ _ Hc').
Qed.

Lemma computeNumbers_total g :
  wellFormed g →
  ∃ g', computeNumbers g = Ok g' ∧ frames keepsMines g g' ∧
    ∀ x y c, cellAt (field g') x y = Ok c → isMine (content c) = false →
      content c = makeNumberContent (mineNeighbours g' x y).
Proof.
  intros Hwf. unfold computeNumbers.
  destruct (forCells_total
    (λ done s, frames keepsMines g s ∧
       ∀ x y c, (x, y) ∈ done → cellAt (field s) x y = Ok c →
         isMine (content c) = false →
         content c = makeNumberContent (mineNeighbours g x y))
    (upto (H g)) (upto (W g)) (λ s, upto (W s))
    (λ x y s, c ← cellAt (field s) x y;
       if isMine (content c) then Ok s
       else around ← countMinesAround s x y;
            setContent (makeNumberContent around) x y s) g) as (g' & Hrun & Hf & Hall).
  - split; [apply frames_refl, keepsMines_refl|].
    intros x y c Hin. by apply elem_of_nil in Hin.
  - intros done s [Hf _]. by rewrite (frames_W _ _ _ Hf).
  - intros done x y s Hx%elem_of_upto Hy%elem_of_upto [Hf Hd].
    pose proof (frames_wellFormed _ _ _ Hf Hwf) as Hwfs.
    destruct (inBoard_cellAt s x y Hwfs) as [c Hc].
    { rewrite (frames_inBoard _ _ _ _ _ Hf). by apply inBoard_iff. }
    rewrite Hc. simpl. destruct (isMine (content c)) eqn:Hm.
    + exists s. split; [done|]. split; [done|].
      intros x1 y1 c1 [Hin|Hin%list_elem_of_singleton]%elem_of_app Hc1 Hm1;
        [by apply (Hd x1 y1 c1)|].
      injection Hin as -> ->. congruence.
    + rewrite (countMinesAround_total s x y Hwfs). simpl.
      rewrite (mineNeighbours_frames g s x y Hwf Hf).
      destruct (updCell_defined
        (fun c => {| content := makeNumberContent (mineNeighbours g x y); state := state c |})
        x y s c Hc) as [s' Hs'].
      exists s'. split; [done|]. split.
      * eapply frames_trans; [apply keepsMines_trans|exact Hf|].
        eapply updCell_frames; [apply keepsMines_refl| |exact Hs'].
        intros c0 Hc0. rewrite Hc in Hc0. injection Hc0 as <-.
        split; [done|]. simpl. rewrite isMine_makeNumberContent. split; [done|congruence].
      * apply setContent_Ok in Hs' as (_ & _ & c0 & Hc0 & Hnew & Hother).
        intros x1 y1 c1 Hin Hc1 Hm1.
        destruct (decide ((x1, y1) = (x, y))) as [[= -> ->]|Hne].
        -- rewrite Hnew in Hc1. by injection Hc1 as <-.
        -- rewrite Hother in Hc1 by done.
           apply elem_of_app in Hin as [Hin|Hin%list_elem_of_singleton]; [|done].
           by apply (Hd x1 y1 c1).
  - exists g'. split; [exact Hrun|]. split; [done|].
    intros x y c Hc Hm. rewrite (mineNeighbours_frames g g' x y Hwf Hf).
    apply (Hall x y c); [|done|done].
    apply in_cells. rewrite <- (frames_inBoard _ _ _ _ _ Hf).
    eapply cellAt_inBoard; [|done]. by eapply frames_wellFormed.
Qed.

(** Under [frames] the cells of the later field come from cells of the
    earlier one. *)
Lemma frames_back R g g' x y c' :
  frames R g g' → wellFormed g → cellAt (field g') x y = Ok c' →
  ∃ c, cellAt (field g) x y = Ok c ∧ R c c'.
Proof.
  intros Hf Hwf Hc'. pose proof (frames_wellFormed _ _ _ Hf Hwf) as Hwf'.
  pose proof (cellAt_inBoard _ _ _ _ Hwf' Hc') as Hin.
  rewrite (frames_inBoard _ _ _ _ _ Hf) in Hin.
  destruct (inBoard_cellAt g x y Hwf Hin) as [c Hc].
  destruct Hf as (_ & _ & Hcw). destruct (Hcw _ _ _ Hc) as (c2 & Hc2 & HR).
  exists c. split; [done|]. congruence.
Qed.

Lemma cellHas_frames (R : Cell → Cell → Prop) (P : Cell → bool) g g' p :
  (∀ c c', R c c' → P c' = P c) →
  frames R g g' → wellFormed g → cellHas P g' p = cellHas P g p.
Proof.
  intros HR Hf Hwf. destruct p as [x y]. unfold cellHas. simpl.
  destruct (cellAt (field g') x y) as [c'| |] eqn:Hc'.
  - destruct (frames_back _ _ _ _ _ _ Hf Hwf Hc') as (c & -> & Hcc). auto.
  - destruct (cellAt (field g) x y) as [c| |] eqn:Hc; [|done|done].
    destruct Hf as (_ & _ & Hcw). destruct (Hcw _ _ _ Hc) as (c2 & Hc2 & _). congruence.
  - destruct (cellAt (field g) x y) as [c| |] eqn:Hc; [|done|done].
    destruct Hf as (_ & _ & Hcw). destruct (Hcw _ _ _ Hc) as (c2 & Hc2 & _). congruence.
Qed.

Lemma mineCells_frames g g' :
  wellFormed g → frames keepsMines g g' → mineCells g' = mineCells g.
Proof.
  intros Hwf Hf. unfold mineCells. rewrite (frames_cells _ _ _ Hf).
  apply filter_length_ext. intros p _.
  eapply cellHas_frames; [|exact Hf|done]. by intros c c' (_ & ? & _).
Qed.

Lemma mineCells_empty g :
  (∀ x y c, cellAt (field g) x y = Ok c → content c = EmptyContent) →
  mineCells g = [].
Proof.
  intros Hall. unfold mineCells.
  induction (cells g) as [|[x y] l IH]; simpl; [done|].
  rewrite IH. unfold cellHas. simpl.
  destruct (cellAt (field g) x y) as [c| |] eqn:Hc; [|done|done].
  by rewrite (Hall _ _ _ Hc).
Qed.

Lemma keepsMines_keepsState c c' : keepsMines c c' → keepsState c c'.
Proof. by intros [? _]. Qed.
Lemma addsMines_keepsState c c' : addsMines c c' → keepsState c c'.
Proof. by intros [? _]. Qed.

(** What a completed generation guarantees. *)
Lemma generate_Ok rnd sx sy g g' :
  wellFormed g → generate rnd sx sy g = Ok g' →
  frames keepsState g g' ∧
  safeZoneClear sx sy g' ∧
  (0 ≤ MINES g → Z.of_nat (length (mineCells g')) = MINES g) ∧
  (∀ x y c, cellAt (field g') x y = Ok c → isMine (content c) = false →
     content c = makeNumberContent (mineNeighbours g' x y)).
Proof.
  intros Hwf Hrun. unfold generate in Hrun.
  apply bind_Ok in Hrun as (g1 & H1 & Hrun). apply bind_Ok in Hrun as (g2 & H2 & H3).
  destruct (clearContent_total g Hwf) as (g1' & H1' & Hf1 & Hempty).
  assert (g1' = g1) as -> by congruence. clear H1'.
  pose proof (frames_wellFormed _ _ _ Hf1 Hwf) as Hwf1.
  destruct (placeMines_Ok _ _ _ _ _ _ Hwf1 H2) as (Hf2 & Hsafe & Hcount).
  pose proof (frames_wellFormed _ _ _ Hf2 Hwf1) as Hwf2.
  destruct (computeNumbers_total g2 Hwf2) as (g3 & H3' & Hf3 & Hnum).
  assert (g3 = g') as -> by congruence. clear H3'.
  split; [|split; [|split]].
  - eapply frames_trans; [apply keepsState_trans|exact Hf1|].
    eapply frames_trans; [apply keepsState_trans| |].
    + eapply frames_weaken; [apply addsMines_keepsState|exact Hf2].
    + eapply frames_weaken; [apply keepsMines_keepsState|exact Hf3].
  - intros x y c' Hc' Hin.
    destruct (frames_back _ _ _ _ _ _ Hf3 Hwf2 Hc') as (c & Hc & _ & -> & _).
    eapply Hsafe; [|exact Hc|exact Hin].
    intros x1 y1 c1 Hc1 _. by rewrite (Hempty _ _ _ Hc1).
  - intros Hm. rewrite (mineCells_frames g2 g' Hwf2 Hf3).
    rewrite Hcount, (mineCells_empty g1 Hempty), (frames_MINES _ _ _ Hf1); simpl; [lia|].
    by rewrite (frames_MINES _ _ _ Hf1).
  - exact Hnum.
Qed.

Lemma sameBoard_refl g : sameBoard g g.
Proof. unfold sameBoard. auto. Qed.

Lemma sameBoard_trans g1 g2 g3 : sameBoard g1 g2 → sameBoard g2 g3 → sameBoard g1 g3.
Proof.
  unfold sameBoard. intros (? & ? & ? & ?) (? & ? & ? & ?).
  split; [congruence|]. split; [congruence|]. split; [congruence|]. auto.
Qed.

Lemma frames_sameBoard R g g' : frames R g g' → sameBoard g g'.
Proof.
  intros (Hs & Hw & _). destruct (sameSession_fields _ _ Hs) as (? & ? & ? & _).
  unfold sameBoard. auto.
Qed.

Lemma checkWinOpen_cases g g' :
  checkWinOpen g = Ok g' → g' = g ∨ g' = stopTimer (set_win true g).
Proof.
  unfold checkWinOpen. intros ([u|] & _ & Hr)%bind_Ok; injection Hr as <-; auto.
Qed.

Lemma checkWinFlags_cases g g' :
  checkWinFlags g = Ok g' → g' = g ∨ g' = stopTimer (set_win true g).
Proof.
  unfold checkWinFlags. intros ([n|] & _ & Hr)%bind_Ok.
  - destruct (n =? MINES g); injection Hr as <-; auto.
  - injection Hr as <-; auto.
Qed.

Lemma checkWin_cases g g' :
  checkWin g = Ok g' → g' = g ∨ g' = stopTimer (set_win true g).
Proof.
  unfold checkWin. intros (g1 & [->| ->]%checkWinOpen_cases & Hr)%bind_Ok.
  - destruct (negb (win g)); [by apply checkWinFlags_cases|].
    injection Hr as <-; auto.
  - simpl in Hr. injection Hr as <-; auto.
Qed.

Lemma triggerExplosion_Ok g g' :
  wellFormed g → triggerExplosion g = Ok g' →
  wellFormed g' ∧
  g' = set_field (field g')
         (stopTimer (set_gameOver true (set_explosionTimer f0_2 (set_explosion true g)))) ∧
  cellwise (fun c c' => content c' = content c ∧ state c' = OpenedState) g g'.
Proof.
  intros Hwf Hrun. destruct (triggerExplosion_total g Hwf) as (g2 & Hrun2 & Hres).
  assert (g2 = g') as -> by congruence. done.
Qed.

Lemma startTimerIfNeeded_fields g :
  let g' := startTimerIfNeeded g in
  W g' = W g ∧ H g' = H g ∧ MINES g' = MINES g ∧ gameOver g' = gameOver g ∧
  win g' = win g ∧ firstClick g' = firstClick g ∧ explosion g' = explosion g ∧
  explosionTimer g' = explosionTimer g ∧ field g' = field g.
Proof. unfold startTimerIfNeeded. by destruct (negb (timerRunning g)). Qed.

Lemma wellFormed_same g g' :
  W g' = W g → H g' = H g → field g' = field g → wellFormed g → wellFormed g'.
Proof. unfold wellFormed. by intros -> -> ->. Qed.

Lemma firstClickStep_Ok rnd x y g g' :
  wellFormed g → firstClickStep rnd x y g = Ok g' →
  wellFormed g' ∧ sameBoard g g' ∧ cellwise keepsState g g' ∧
  gameOver g' = gameOver g ∧ win g' = win g ∧ firstClick g' = false ∧
  explosion g' = explosion g ∧ explosionTimer g' = explosionTimer g ∧
  (firstClick g = false → g' = g) ∧
  (firstClick g = true →
     ∃ gb, generate rnd x y g = Ok gb ∧ g' = startTimerIfNeeded (set_firstClick false gb)).
Proof.
  intros Hwf. unfold firstClickStep. destruct (firstClick g) eqn:Hfc.
  - intros (gb & Hgen & [= <-])%bind_Ok.
    destruct (generate_Ok _ _ _ _ _ Hwf Hgen) as (Hf & _).
    pose proof (frames_wellFormed _ _ _ Hf Hwf) as Hwfb.
    pose proof (frames_sameBoard _ _ _ Hf) as (HW & HH & HM & _).
    destruct Hf as (Hs & _ & Hcw).
    destruct (sameSession_fields _ _ Hs) as (_ & _ & _ & Hgo & Hwin & _ & Hex & Hext & _).
    destruct (startTimerIfNeeded_fields (set_firstClick false gb))
      as (HW' & HH' & HM' & Hgo' & Hwin' & Hfc' & Hex' & Hext' & Hfield).
    simpl in *.
    assert (wellFormed (startTimerIfNeeded (set_firstClick false gb))) as Hwf'.
    { by eapply wellFormed_same. }
    split; [done|]. split; [unfold sameBoard; split_and!; congruence|].
    split. { unfold cellwise. rewrite Hfield. exact Hcw. }
    split_and!; try congruence; eauto.
  - intros [= <-]. split; [done|]. split; [apply sameBoard_refl|].
    split; [intros x1 y1 c Hc; by exists c|]. split_and!; try done.
Qed.

(** ** Generation can finish *)

Lemma length_cells g :
  0 ≤ W g → 0 ≤ H g → Z.of_nat (length (cells g)) = W g * H g.
Proof.
  intros HW HH. unfold cells, upto. rewrite length_grid, !length_seqZ. nia.
Qed.

(** At most nine cells lie in the safe zone. *)
Lemma safeZone_small sx sy (l : list (Z * Z)) :
  NoDup l →
  (length (List.filter (inSafeZoneb sx sy) l) ≤ 9)%nat.
Proof.
  intros Hnd.
  change 9%nat with
    (length (List.map (λ d : Z * Z, (sx + fst d, sy + snd d)) (grid around around))).
  apply List.NoDup_incl_length.
  - apply List.NoDup_filter. by apply NoDup_ListNoDup.
  - intros [x y] [_ Hin]%List.filter_In. unfold inSafeZoneb in Hin. simpl in Hin.
    apply andb_true_iff in Hin as [Hx%Z.leb_le Hy%Z.leb_le].
    apply List.in_map_iff. exists (x - sx, y - sy). split; [simpl; f_equal; lia|].
    apply list_elem_of_In, elem_of_grid. unfold around. rewrite !elem_of_cons.
    split; lia.
Qed.

Lemma freeCells_cleared sx sy g :
  0 ≤ W g → 0 ≤ H g →
  (∀ x y c, cellAt (field g) x y = Ok c → content c = EmptyContent) →
  wellFormed g →
  W g * H g - 9 ≤ Z.of_nat (length (freeCells sx sy g)).
Proof.
  intros HW HH Hempty Hwf.
  pose proof (List.filter_length (inSafeZoneb sx sy) (cells g)) as Hsplit.
  pose proof (safeZone_small sx sy (cells g) (NoDup_cells g)) as Hsmall.
  assert (freeCells sx sy g =
          List.filter (λ p, negb (inSafeZoneb sx sy p)) (cells g)) as ->.
  { unfold freeCells. apply filter_length_ext. intros [x y] Hin%in_cells.
    unfold freeCell. destruct (inBoard_cellAt g x y Hwf Hin) as [c Hc].
    by rewrite (cellHas_Ok _ _ _ _ _ Hc), (Hempty _ _ _ Hc). }
  pose proof (length_cells g HW HH). lia.
Qed.

Lemma placeMines_can_finish sx sy n placed g :
  wellFormed g →
  MINES g - placed ≤ Z.of_nat n →
  MINES g - placed ≤ Z.of_nat (length (freeCells sx sy g)) →
  ∃ rnd g', placeMines rnd sx sy placed g = Ok g'.
Proof.
  revert placed g. induction n as [|n IH]; intros placed g Hwf Hn Hfree.
  { exists [], g. simpl. destruct (Z.ltb_spec placed (MINES g)); [lia|done]. }
  destruct (Z.ltb_spec placed (MINES g)) as [Hlt|Hge].
  2:{ exists [], g. simpl. destruct (Z.ltb_spec placed (MINES g)); [lia|done]. }
  destruct (freeCells sx sy g) as [|[x y] rest] eqn:Hcells; [simpl in Hfree; lia|].
  assert ((x, y) ∈ freeCells sx sy g) as Hin by (rewrite Hcells; left).
  unfold freeCells in Hin. apply list_elem_of_In, List.filter_In in Hin as [Hin Hfc].
  apply list_elem_of_In, in_cells in Hin.
  destruct (inBoard_cellAt g x y Hwf Hin) as [c Hc].
  unfold freeCell in Hfc. rewrite (cellHas_Ok _ _ _ _ _ Hc) in Hfc. simpl in Hfc.
  apply andb_true_iff in Hfc as [Hm%negb_true_iff Hz%negb_true_iff].
  unfold inSafeZoneb in Hz. simpl in Hz.
  destruct (updCell_defined (fun c => {| content := makeMineContent; state := state c |})
              x y g c Hc) as [g1 Hset].
  fold (setContent makeMineContent) in Hset.
  pose proof Hset as (Hs & Hwf1 & c0 & Hc0 & Hnew & Hother)%setContent_Ok.
  destruct (sameSession_fields _ _ Hs) as (HW1 & HH1 & HM1 & _).
  assert (length (freeCells sx sy g) = Datatypes.S (length (freeCells sx sy g1))) as Hlen.
  { unfold freeCells. replace (cells g1) with (cells g) by (unfold cells; by rewrite HW1, HH1).
    apply (filter_length_point _ _ _ (x, y)).
    - apply NoDup_cells.
    - by apply in_cells.
    - unfold freeCell. by rewrite (cellHas_Ok _ _ _ _ _ Hnew).
    - unfold freeCell, inSafeZoneb. rewrite (cellHas_Ok _ _ _ _ _ Hc). simpl.
      by rewrite Hm, Hz.
    - intros [x1 y1] _ Hne. unfold freeCell, cellHas. simpl. by rewrite Hother. }
  rewrite Hcells in Hlen. simpl in Hlen, Hfree.
  destruct (IH (placed + 1) g1) as (rnd & g' & Hrun); [auto|lia|lia|].
  exists (x :: y :: rnd), g'. apply inBoard_iff in Hin as [Hx Hy].
  simpl. destruct (Z.ltb_spec placed (MINES g)) as [_|Hge]; [|lia].
  unfold c_mod. destruct (Z.eqb_spec (W g) 0) as [HW0|_]; [lia|].
  destruct (Z.eqb_spec (H g) 0) as [HH0|_]; [lia|]. cbn [mbind result_bind].
  rewrite !Z.rem_small by lia. rewrite Hc. cbn [mbind result_bind].
  rewrite Hm, Hz, Hset. done.
Qed.

(** With a mine budget that fits outside the safe zone there are draws on
    which [generate] finishes. *)
Lemma generate_can_finish sx sy g :
  wellFormed g → 0 ≤ W g → 0 ≤ H g → MINES g ≤ W g * H g - 9 →
  ∃ rnd g', generate rnd sx sy g = Ok g'.
Proof.
  intros Hwf HW HH Hm.
  destruct (clearContent_total g Hwf) as (g1 & H1 & Hf1 & Hempty).
  pose proof (frames_wellFormed _ _ _ Hf1 Hwf) as Hwf1.
  pose proof (frames_sameBoard _ _ _ Hf1) as (HW1 & HH1 & HM1 & _).
  destruct (placeMines_can_finish sx sy (Z.to_nat (MINES g1)) 0 g1) as (rnd & g2 & H2);
    [done|lia| |].
  { pose proof (freeCells_cleared sx sy g1) as Hfree.
    rewrite HW1, HH1 in Hfree. specialize (Hfree HW HH Hempty Hwf1). lia. }
  destruct (placeMines_Ok _ _ _ _ _ _ Hwf1 H2) as (Hf2 & _).
  destruct (computeNumbers_total g2 (frames_wellFormed _ _ _ Hf2 Hwf1)) as (g3 & H3 & _).
  exists rnd, g3. unfold generate. rewrite H1. cbn [mbind result_bind].
  rewrite H2. cbn [mbind result_bind]. done.
Qed.

(** ** Flood fill *)

Lemma adjacent_offsets x y nx ny :
  adjacent x y nx ny ↔ ∃ d, d ∈ offsets8 ∧ nx = x + fst d ∧ ny = y + snd d.
Proof.
  unfold adjacent, offsets8. split.
  - intros (Hx & Hy & Hne). exists (nx - x, ny - y). simpl. split; [|lia].
    assert (nx - x = -1 ∨ nx - x = 0 ∨ nx - x = 1) as Hdx by lia.
    assert (ny - y = -1 ∨ ny - y = 0 ∨ ny - y = 1) as Hdy by lia.
    rewrite !elem_of_cons.
    destruct Hdx as [E1 | [E1 | E1]], Hdy as [E2 | [E2 | E2]];
      rewrite E1, E2; try tauto. lia.
  - intros ([dx dy] & Hd & -> & ->). simpl.
    rewrite !elem_of_cons, elem_of_nil in Hd.
    destruct Hd as [Hd|[Hd|[Hd|[Hd|[Hd|[Hd|[Hd|[Hd|[]]]]]]]]];
      injection Hd as -> ->; lia.
Qed.

Lemma fillable_opened c : fillable {| content := content c; state := OpenedState |} = false.
Proof. done. Qed.

Lemma opensOnly_fillable c c' : opensOnly c c' → fillable c' = true → c' = c.
Proof. intros [->|[_ ->]]; [done|]. by rewrite fillable_opened. Qed.

Lemma opensOnly_content c c' : opensOnly c c' → content c' = content c.
Proof. by intros [->|[_ ->]]. Qed.

Lemma opensOnly_not_fillable c c' : opensOnly c c' → fillable c = false → fillable c' = false.
Proof. intros [->|[Hc ->]]; [done|]. by rewrite fillable_opened. Qed.

Lemma opensOnly_open c c' : opensOnly c c' → isOpen (state c) = true → isOpen (state c') = true.
Proof. by intros [->|[_ ->]]. Qed.

Lemma sealed_frames g g' x y :
  wellFormed g → frames opensOnly g g' → sealed g x y → sealed g' x y.
Proof.
  intros Hwf Hf Hs nx ny c' Hadj Hc'.
  destruct (frames_back _ _ _ _ _ _ Hf Hwf Hc') as (c & Hc & Hcc).
  eapply opensOnly_not_fillable; [done|]. by eapply Hs.
Qed.

Lemma fillRegion_frames g g' x y qx qy :
  wellFormed g → frames opensOnly g g' →
  fillRegion g' x y qx qy → fillRegion g x y qx qy.
Proof.
  intros Hwf Hf.
  induction 1 as [nx ny c' Hadj Hc' Hcl|px py pc' nx ny c' _ IH Hpc' He Hadj Hc' Hcl].
  - destruct (frames_back _ _ _ _ _ _ Hf Hwf Hc') as (c & Hc & Hcc).
    rewrite (opensOnly_fillable _ _ Hcc Hcl) in Hcl. by eapply fill_near.
  - destruct (frames_back _ _ _ _ _ _ Hf Hwf Hc') as (c & Hc & Hcc).
    destruct (frames_back _ _ _ _ _ _ Hf Hwf Hpc') as (pc & Hpc & Hpcc).
    rewrite (opensOnly_fillable _ _ Hcc Hcl) in Hcl.
    rewrite (opensOnly_content _ _ Hpcc) in He. by eapply fill_far.
Qed.

Lemma fillRegion_trans g x y px py pc qx qy :
  fillRegion g x y px py →
  cellAt (field g) px py = Ok pc → isEmpty (content pc) = true →
  fillRegion g px py qx qy → fillRegion g x y qx qy.
Proof.
  intros Hp Hpc He. induction 1 as [nx ny c Hadj Hc Hcl|rx ry rc nx ny c _ IH Hrc Hre Hadj Hc Hcl].
  - by eapply fill_far.
  - by eapply (fill_far g x y rx ry rc).
Qed.

(** A cell opened between [g] and [g2] was opened either before or after
    any state [g1] in between. *)
Lemma newlyOpened_split g g1 g2 x y :
  wellFormed g → frames opensOnly g g1 → frames opensOnly g1 g2 →
  newlyOpened g g2 x y → newlyOpened g g1 x y ∨ newlyOpened g1 g2 x y.
Proof.
  intros Hwf Hf1 Hf2 (c & c2 & Hc & Hcl & Hc2 & Ho).
  destruct Hf1 as (_ & _ & Hcw). destruct (Hcw _ _ _ Hc) as (c1 & Hc1 & [->|[_ ->]]).
  - right. by exists c, c2.
  - left. exists c, {| content := content c; state := OpenedState |}. done.
Qed.

Lemma forEach_partial {A S} (I : list A → S → Prop) (l : list A)
    (body : A → S → result S) s s' :
  forEach l body s = Ok s' → I [] s →
  (∀ done a s s1, a ∈ l → I done s → body a s = Ok s1 → I (done ++ [a]) s1) →
  I l s'.
Proof.
  intros Hrun H0 Hstep.
  cut (∀ l' done s, (∀ a, a ∈ l' → a ∈ l) → I done s →
         forEach l' body s = Ok s' → I (done ++ l') s').
  { intros Hc. apply (Hc l [] s); auto. }
  clear s Hrun H0. induction l' as [|a l' IH]; intros done s Hsub Hd Hrun; simpl in Hrun.
  - injection Hrun as <-. by rewrite app_nil_r.
  - apply bind_Ok in Hrun as (s1 & Hb & Hrun).
    replace (done ++ a :: l') with ((done ++ [a]) ++ l') by by rewrite <- app_assoc.
    apply (IH _ s1); [intros b Hb'; apply Hsub; by right| |done].
    eapply Hstep; [|exact Hd|exact Hb]. apply Hsub. left.
Qed.

Lemma floodFillOrd_unfold order depth x y g :
  floodFillOrd order (S depth) x y g =
  forEach order (fun d g =>
    if inBoard g (x + fst d) (y + snd d) then
      c ← cellAt (field g) (x + fst d) (y + snd d);
      if fillable c then
        g1 ← setState makeOpenedState (x + fst d) (y + snd d) g;
        if isEmpty (content c)
        then floodFillOrd order depth (x + fst d) (y + snd d) g1 else Ok g1
      else Ok g
    else Ok g) g.
Proof. reflexivity. Qed.

Lemma newlyOpened_same g x y : ¬ newlyOpened g g x y.
Proof.
  intros (c & c' & Hc & Hcl & Hc' & Ho). assert (c' = c) as -> by congruence.
  unfold fillable in Hcl. rewrite Ho in Hcl. done.
Qed.

(** The recursion opens exactly what it can reach, whatever the order in
    which the neighbours are visited. *)
Lemma floodFillOrd_spec order depth x y g g' :
  (∀ d, d ∈ order ↔ d ∈ offsets8) →
  wellFormed g → floodFillOrd order depth x y g = Ok g' →
  frames opensOnly g g' ∧
  sealed g' x y ∧
  (∀ px py pc, newlyOpened g g' px py → cellAt (field g) px py = Ok pc →
     isEmpty (content pc) = true → sealed g' px py) ∧
  (∀ qx qy, newlyOpened g g' qx qy → fillRegion g x y qx qy).
Proof.
  intros Hord. revert x y g g'.
  induction depth as [|depth IH]; intros x y g g' Hwf Hrun; [done|].
  rewrite floodFillOrd_unfold in Hrun.
  apply (forEach_partial (λ done s,
    frames opensOnly g s ∧
    (∀ d c, d ∈ done → cellAt (field s) (x + fst d) (y + snd d) = Ok c →
       fillable c = false) ∧
    (∀ px py pc, newlyOpened g s px py → cellAt (field g) px py = Ok pc →
       isEmpty (content pc) = true → sealed s px py) ∧
    (∀ qx qy, newlyOpened g s qx qy → fillRegion g x y qx qy))) in Hrun.
  - destruct Hrun as (Hf & HB & HC & HD). split; [done|]. split; [|done].
    intros nx ny c (d & Hd & -> & ->)%adjacent_offsets Hc.
    apply (HB d c); [by apply Hord|done].
  - split; [apply frames_refl, opensOnly_refl|]. split.
    { intros d c Hd. by apply elem_of_nil in Hd. }
    split; intros ? ? ; intros; by exfalso; eapply newlyOpened_same.
  - clear Hrun. intros done d s s1 Hd (Hf & HB & HC & HD) Hbody.
    pose proof (frames_wellFormed _ _ _ Hf Hwf) as Hwfs.
    set (nx := x + fst d) in *. set (ny := y + snd d) in *.
    assert (adjacent x y nx ny) as Hadj.
    { apply adjacent_offsets. exists d. split; [by apply Hord|done]. }
    destruct (inBoard s nx ny) eqn:Hin.
    2:{ injection Hbody as <-. split; [done|]. split; [|done].
        intros d' c [Hd'|Hd'%list_elem_of_singleton]%elem_of_app Hc; [by eapply HB|].
        subst d'. apply (cellAt_inBoard _ _ _ _ Hwfs) in Hc. fold nx ny in Hc. congruence. }
    apply bind_Ok in Hbody as (c & Hc & Hbody).
    destruct (fillable c) eqn:Hcl.
    2:{ injection Hbody as <-. split; [done|]. split; [|done].
        intros d' c' [Hd'|Hd'%list_elem_of_singleton]%elem_of_app Hc'; [by eapply HB|].
        subst d'. fold nx ny in Hc'. congruence. }
    apply bind_Ok in Hbody as (s2 & Hset & Hbody).
    assert (frames opensOnly s s2) as Hf2.
    { eapply updCell_frames; [apply opensOnly_refl| |exact Hset].
      intros c0 Hc0. rewrite Hc in Hc0. injection Hc0 as <-. by right. }
    pose proof (frames_wellFormed _ _ _ Hf2 Hwfs) as Hwf2.
    apply setState_Ok in Hset as (_ & _ & c0 & Hc0 & Hnew & Hother).
    assert (c0 = c) as -> by congruence. clear Hc0.
    (* the cell in the initial field *)
    destruct (frames_back _ _ _ _ _ _ Hf Hwf Hc) as (cg & Hcg & Hcgc).
    assert (cg = c) as -> by (symmetry; by eapply opensOnly_fillable). clear Hcgc.
    assert (frames opensOnly s2 s1 ∧
            (isEmpty (content c) = true → sealed s1 nx ny) ∧
            (∀ px py pc, newlyOpened s2 s1 px py → cellAt (field s2) px py = Ok pc →
               isEmpty (content pc) = true → sealed s1 px py) ∧
            (∀ qx qy, newlyOpened s2 s1 qx qy →
               isEmpty (content c) = true ∧ fillRegion s2 nx ny qx qy))
      as (Hf3 & F2 & F3 & F4).
    { destruct (isEmpty (content c)) eqn:He.
      - destruct (IH _ _ _ _ Hwf2 Hbody) as (I1 & I2 & I3 & I4). split_and!; auto.
      - injection Hbody as <-. split; [apply frames_refl, opensOnly_refl|].
        split; [done|]. split; intros ? ? ; intros; by exfalso; eapply newlyOpened_same. }
    assert (frames opensOnly s s1) as Hfs1.
    { eapply frames_trans; [apply opensOnly_trans|exact Hf2|exact Hf3]. }
    assert (frames opensOnly g s2) as Hfg2.
    { eapply frames_trans; [apply opensOnly_trans|exact Hf|exact Hf2]. }
    (* a cell opened after [s] is the neighbour itself or was opened by the
       recursive call *)
    assert (∀ px py, newlyOpened s s1 px py →
              (px = nx ∧ py = ny) ∨ newlyOpened s2 s1 px py) as Hcase.
    { intros px py (cs & c1 & Hcs & Hcls & Hc1 & Ho).
      destruct (decide ((px, py) = (nx, ny))) as [[= -> ->]|Hne]; [by left|].
      right. exists cs, c1. by rewrite Hother. }
    split; [eapply frames_trans; [apply opensOnly_trans|exact Hf|exact Hfs1]|].
    split; [|split].
    + intros d' c' [Hd'|Hd'%list_elem_of_singleton]%elem_of_app Hc'.
      * destruct (frames_back _ _ _ _ _ _ Hfs1 Hwfs Hc') as (cs & Hcs & Hcc).
        eapply opensOnly_not_fillable; [done|]. by eapply HB.
      * subst d'. fold nx ny in Hc'.
        destruct (frames_back _ _ _ _ _ _ Hf3 Hwf2 Hc') as (c2 & Hc2 & Hcc).
        eapply opensOnly_not_fillable; [done|]. rewrite Hnew in Hc2. by injection Hc2 as <-.
    + intros px py pc Hno Hpc He.
      destruct (newlyOpened_split g s s1 px py Hwf Hf Hfs1 Hno) as [Hno1|Hno2].
      * eapply sealed_frames; [exact Hwfs|exact Hfs1|]. by eapply HC.
      * destruct (Hcase _ _ Hno2) as [[-> ->]|Hno3].
        -- apply F2. congruence.
        -- destruct Hno3 as (c2 & c1 & Hc2 & Hcl2 & Hc1 & Ho).
           eapply (F3 px py c2); [by exists c2, c1|done|].
           destruct Hfg2 as (_ & _ & Hcw). destruct (Hcw _ _ _ Hpc) as (c2' & Hc2' & Hcc).
           assert (c2' = c2) as -> by congruence. by rewrite (opensOnly_content _ _ Hcc).
    + intros qx qy Hno.
      destruct (newlyOpened_split g s s1 qx qy Hwf Hf Hfs1 Hno) as [Hno1|Hno2]; [by apply HD|].
      assert (fillRegion g x y nx ny) as Hnear by by eapply fill_near.
      destruct (Hcase _ _ Hno2) as [[-> ->]|Hno3]; [done|].
      destruct (F4 _ _ Hno3) as [He Hreg].
      eapply fillRegion_trans; [exact Hnear|exact Hcg|exact He|].
      by eapply fillRegion_frames.
Qed.

Lemma bind_ext {A B} (m : result A) (k k' : A → result B) :
  (∀ a, k a = k' a) → (a ← m; k a) = (a ← m; k' a).
Proof. intros Hk. destruct m; simpl; auto. Qed.

Lemma bind_cong {A B} (m m' : result A) (k k' : A → result B) :
  m = m' → (∀ a, k a = k' a) → (a ← m; k a) = (a ← m'; k' a).
Proof. intros ->. apply bind_ext. Qed.

Lemma forEach_app {A S} (l1 l2 : list A) (body : A → S → result S) s :
  forEach (l1 ++ l2) body s = (s1 ← forEach l1 body s; forEach l2 body s1).
Proof.
  revert s. induction l1 as [|a l1 IH]; intros s; simpl; [done|].
  destruct (body a s); simpl; auto.
Qed.

Lemma forEach_fmap {A B S} (f : A → B) (l : list A) (body : B → S → result S) s :
  forEach (f <$> l) body s = forEach l (λ a, body (f a)) s.
Proof.
  revert s. induction l as [|a l IH]; intros s; simpl; [done|].
  destruct (body (f a) s); simpl; auto.
Qed.

(** Two nested loops are one loop over the grid. *)
Lemma forEach_grid {S} ys xs (body : Z → Z → S → result S) s :
  forEach ys (λ y s, forEach xs (λ x s, body x y s) s) s =
  forEach (grid ys xs) (λ p s, body (fst p) (snd p) s) s.
Proof.
  revert s. induction ys as [|y ys IH]; intros s; [done|].
  rewrite grid_cons, forEach_app, forEach_fmap. simpl.
  apply bind_ext. intros s1. apply IH.
Qed.

(** The source visits the neighbours row by row. *)
Lemma floodFill_as_order depth x y g :
  floodFill depth x y g = floodFillOrd offsets8 depth x y g.
Proof.
  revert x y g. induction depth as [|depth IH]; intros x y g; [done|].
  rewrite floodFill_unfold, floodFillOrd_unfold, forEach_grid.
  unfold offsets8. change (grid around around) with
    [(-1, -1); (0, -1); (1, -1); (-1, 0); (0, 0); (1, 0); (-1, 1); (0, 1); (1, 1)].
  cbn [forEach fst snd Z.eqb Pos.eqb andb negb mbind result_bind].
  repeat (apply bind_cong;
    [ repeat first [ reflexivity
                   | apply IH
                   | apply bind_ext; intros ?
                   | match goal with
                     | |- (if ?b then _ else _) = (if ?b then _ else _) => destruct b
                     end ]
    | intros ? ]).
  reflexivity.
Qed.

Lemma filter_length_le {A} (P P' : A → bool) (l : list A) :
  (∀ a, a ∈ l → P' a = true → P a = true) →
  (length (List.filter P' l) ≤ length (List.filter P l))%nat.
Proof.
  induction l as [|a l IH]; intros Himp; simpl; [done|].
  assert (length (List.filter P' l) ≤ length (List.filter P l))%nat as Hle.
  { apply IH. intros b Hb. apply Himp. by right. }
  destruct (P' a) eqn:HP'.
  - rewrite (Himp a); [simpl; lia|by left|done].
  - destruct (P a); simpl; lia.
Qed.

Lemma fillableCount_frames g g' :
  wellFormed g → frames opensOnly g g' → (fillableCount g' ≤ fillableCount g)%nat.
Proof.
  intros Hwf Hf. unfold fillableCount. rewrite (frames_cells _ _ _ Hf).
  apply filter_length_le. intros [x y] _. unfold cellHas. simpl.
  destruct (cellAt (field g') x y) as [c'| |] eqn:Hc'; [|done|done].
  destruct (frames_back _ _ _ _ _ _ Hf Hwf Hc') as (c & -> & Hcc).
  intros Hcl. by rewrite <- (opensOnly_fillable _ _ Hcc Hcl).
Qed.

(** Opening a fillable cell leaves one cell less to open. *)
Lemma fillableCount_open g g' x y c :
  wellFormed g → cellAt (field g) x y = Ok c → fillable c = true →
  setState makeOpenedState x y g = Ok g' →
  fillableCount g = Datatypes.S (fillableCount g').
Proof.
  intros Hwf Hc Hcl (Hs & _ & c0 & Hc0 & Hnew & Hother)%setState_Ok.
  unfold fillableCount. replace (cells g') with (cells g).
  2:{ unfold cells. by destruct (sameSession_fields _ _ Hs) as (-> & -> & _). }
  apply (filter_length_point _ _ _ (x, y)).
  - apply NoDup_cells.
  - apply in_cells. by eapply cellAt_inBoard.
  - by rewrite (cellHas_Ok _ _ _ _ _ Hnew).
  - by rewrite (cellHas_Ok _ _ _ _ _ Hc).
  - intros [x1 y1] _ Hne. unfold cellHas. simpl. by rewrite Hother.
Qed.

(** The recursion never runs deeper than the number of cells it may still
    open, so a budget above that number always suffices. *)
Lemma floodFillOrd_total order depth x y g :
  (∀ d, d ∈ order ↔ d ∈ offsets8) →
  wellFormed g → (fillableCount g < depth)%nat →
  ∃ g', floodFillOrd order depth x y g = Ok g'.
Proof.
  intros Hord. revert x y g.
  induction depth as [|depth IH]; intros x y g Hwf Hlt; [lia|].
  rewrite floodFillOrd_unfold.
  destruct (forEach_total (λ _ s, frames opensOnly g s) order
    (fun d g =>
      if inBoard g (x + fst d) (y + snd d) then
        c ← cellAt (field g) (x + fst d) (y + snd d);
        if fillable c then
          g1 ← setState makeOpenedState (x + fst d) (y + snd d) g;
          if isEmpty (content c)
          then floodFillOrd order depth (x + fst d) (y + snd d) g1 else Ok g1
        else Ok g
      else Ok g) g) as (g' & Hrun & _); [apply frames_refl, opensOnly_refl| |by eauto].
  intros _ d s _ Hf. pose proof (frames_wellFormed _ _ _ Hf Hwf) as Hwfs.
  destruct (inBoard s _ _) eqn:Hin; [|by eauto].
  destruct (inBoard_cellAt s _ _ Hwfs Hin) as [c Hc]. rewrite Hc. simpl.
  destruct (fillable c) eqn:Hcl; [|by eauto].
  destruct (updCell_defined (fun c => {| content := content c; state := makeOpenedState |})
              _ _ s c Hc) as [s2 Hset].
  fold (setState makeOpenedState) in Hset. rewrite Hset. simpl.
  assert (frames opensOnly s s2) as Hf2.
  { eapply updCell_frames; [apply opensOnly_refl| |exact Hset].
    intros c0 Hc0. rewrite Hc in Hc0. injection Hc0 as <-. by right. }
  destruct (isEmpty (content c)).
  - pose proof (fillableCount_open _ _ _ _ _ Hwfs Hc Hcl Hset) as Hcount.
    pose proof (fillableCount_frames _ _ Hwf Hf) as Hle.
    destruct (IH (x + fst d) (y + snd d) s2) as [s1 Hs1];
      [by eapply frames_wellFormed|lia|].
    exists s1. split; [done|].
    eapply frames_trans; [apply opensOnly_trans|exact Hf|].
    eapply frames_trans; [apply opensOnly_trans|exact Hf2|].
    by eapply (floodFillOrd_spec order depth); [|eapply frames_wellFormed|].
  - exists s2. split; [done|].
    eapply frames_trans; [apply opensOnly_trans|exact Hf|exact Hf2].
Qed.

Lemma fillableCount_fillDepth g : (fillableCount g < fillDepth g)%nat.
Proof.
  unfold fillableCount, fillDepth.
  pose proof (List.filter_length_le (cellHas fillable g) (cells g)) as Hle.
  unfold cells, upto in *. rewrite length_grid, !length_seqZ in Hle.
  destruct (Z.le_gt_cases 0 (W g)) as [HW|HW].
  - destruct (Z.le_gt_cases 0 (H g)) as [HH|HH].
    + rewrite Z2Nat.inj_mul by done. lia.
    + rewrite (Z2Nat.nonpos (H g)) in Hle by lia. lia.
  - rewrite (Z2Nat.nonpos (W g)) in Hle by lia. lia.
Qed.

(** Fields of the same shape with the same cells are equal. *)
Lemma field_ext g g' :
  wellFormed g → wellFormed g' → W g' = W g → H g' = H g →
  (∀ x y, cellAt (field g') x y = cellAt (field g) x y) →
  field g' = field g.
Proof.
  intros [Hh Hw] [Hh' Hw'] HW HH Hcells.
  rewrite Forall_lookup in Hw. rewrite Forall_lookup in Hw'.
  apply list_eq. intros i.
  destruct (field g !! i) as [row|] eqn:Hrow.
  - pose proof (lookup_lt_Some _ _ _ Hrow) as Hi.
    destruct (lookup_lt_is_Some_2 (field g') i) as [row' Hrow']; [lia|].
    rewrite Hrow'. f_equal. apply list_eq. intros j.
    specialize (Hcells (Z.of_nat j) (Z.of_nat i)).
    destruct (row !! j) as [c|] eqn:Hc.
    + assert (cellAt (field g) (Z.of_nat j) (Z.of_nat i) = Ok c) as Hcg.
      { apply cellAt_Ok. rewrite !Nat2Z.id. split; [lia|]. split; [lia|]. eauto. }
      rewrite Hcg in Hcells. apply cellAt_Ok in Hcells as (_ & _ & r & Hr & Hc').
      rewrite !Nat2Z.id in *. congruence.
    + apply lookup_ge_None. apply lookup_ge_None in Hc.
      rewrite (Hw' _ _ Hrow'). rewrite (Hw _ _ Hrow) in Hc. lia.
  - apply lookup_ge_None. apply lookup_ge_None in Hrow. lia.
Qed.

Lemma cellAt_cases f x y : (∃ c, cellAt f x y = Ok c) ∨ cellAt f x y = Undefined.
Proof.
  unfold cellAt, at_. destruct (0 <=? y); [|by right].
  destruct (f !! Z.to_nat y) as [row|]; [|by right]. simpl.
  destruct (0 <=? x); [|by right].
  destruct (row !! Z.to_nat x); [left; eauto|by right].
Qed.

(** What a completed fill did, cell by cell. *)
Lemma fill_exact g g' x y :
  wellFormed g →
  frames opensOnly g g' → sealed g' x y →
  (∀ px py pc, newlyOpened g g' px py → cellAt (field g) px py = Ok pc →
     isEmpty (content pc) = true → sealed g' px py) →
  (∀ qx qy, newlyOpened g g' qx qy → fillRegion g x y qx qy) →
  ∀ qx qy c, cellAt (field g) qx qy = Ok c →
    (fillRegion g x y qx qy →
       cellAt (field g') qx qy = Ok {| content := content c; state := OpenedState |}) ∧
    (¬ fillRegion g x y qx qy → cellAt (field g') qx qy = Ok c).
Proof.
  intros Hwf Hf HB HC HD.
  assert (∀ nx ny c, cellAt (field g) nx ny = Ok c → fillable c = true →
            (∃ px py, sealed g' px py ∧ adjacent px py nx ny) →
            cellAt (field g') nx ny = Ok {| content := content c; state := OpenedState |})
    as Hopen.
  { intros nx ny c Hc Hcl (px & py & Hseal & Hadj).
    destruct Hf as (_ & _ & Hcw). destruct (Hcw _ _ _ Hc) as (c' & Hc' & [->|[_ ->]]); [|done].
    rewrite (Hseal _ _ _ Hadj Hc') in Hcl. done. }
  assert (∀ qx qy, fillRegion g x y qx qy →
            ∃ c, cellAt (field g) qx qy = Ok c ∧ fillable c = true ∧
                 cellAt (field g') qx qy = Ok {| content := content c; state := OpenedState |})
    as Hcomplete.
  { induction 1 as [nx ny c Hadj Hc Hcl|px py pc nx ny c _ IH Hpc He Hadj Hc Hcl].
    - exists c. split; [done|]. split; [done|]. apply Hopen; eauto.
    - exists c. split; [done|]. split; [done|]. apply Hopen; [done|done|].
      exists px, py. split; [|done].
      destruct IH as (pc' & Hpc' & Hpcl & Hpo). assert (pc' = pc) as -> by congruence.
      eapply HC; [|exact Hpc|exact He]. by eexists pc, _. }
  intros qx qy c Hc. split.
  - intros (c0 & Hc0 & _ & Hres)%Hcomplete. congruence.
  - intros Hnot. destruct Hf as (_ & _ & Hcw).
    destruct (Hcw _ _ _ Hc) as (c' & Hc' & [->|[Hcl ->]]); [done|].
    destruct Hnot. apply HD. by eexists c, _.
Qed.

(** Two completed fills of the same board from the same cell agree: the
    opened set does not depend on the order of the traversal. *)
Lemma fill_unique g ga gb x y :
  wellFormed g →
  (frames opensOnly g ga ∧ sealed ga x y ∧
   (∀ px py pc, newlyOpened g ga px py → cellAt (field g) px py = Ok pc →
      isEmpty (content pc) = true → sealed ga px py) ∧
   (∀ qx qy, newlyOpened g ga qx qy → fillRegion g x y qx qy)) →
  (frames opensOnly g gb ∧ sealed gb x y ∧
   (∀ px py pc, newlyOpened g gb px py → cellAt (field g) px py = Ok pc →
      isEmpty (content pc) = true → sealed gb px py) ∧
   (∀ qx qy, newlyOpened g gb qx qy → fillRegion g x y qx qy)) →
  ga = gb.
Proof.
  intros Hwf (Hfa & HBa & HCa & HDa) (Hfb & HBb & HCb & HDb).
  pose proof (fill_exact g ga x y Hwf Hfa HBa HCa HDa) as Hexa.
  pose proof (fill_exact g gb x y Hwf Hfb HBb HCb HDb) as Hexb.
  assert (field ga = field gb) as Hfield.
  { pose proof (frames_sameBoard _ _ _ Hfa) as (HWa & HHa & _).
    pose proof (frames_sameBoard _ _ _ Hfb) as (HWb & HHb & _).
    apply field_ext; [by eapply frames_wellFormed|by eapply frames_wellFormed
                     |congruence|congruence|].
    intros qx qy.
    destruct (cellAt_cases (field gb) qx qy) as [[cb Hcb]|Hcb].
    - rewrite Hcb. destruct (frames_back _ _ _ _ _ _ Hfb Hwf Hcb) as (c & Hc & Hccb).
      destruct (Hexa _ _ _ Hc) as [Ha1 Ha2]. destruct (Hexb _ _ _ Hc) as [Hb1 Hb2].
      destruct Hfa as (_ & _ & Hcwa). destruct (Hcwa _ _ _ Hc) as (ca & Hca & Hcca).
      rewrite Hca.
      destruct Hcca as [->|[Hcl ->]].
      + destruct Hccb as [->|[Hcl ->]]; [done|].
        assert (fillRegion g x y qx qy) as Hreg by (apply HDb; by eexists c, _).
        rewrite (Ha1 Hreg) in Hca. done.
      + assert (fillRegion g x y qx qy) as Hreg by (apply HDa; by eexists c, _).
        rewrite (Hb1 Hreg) in Hcb. done.
    - rewrite Hcb. destruct (cellAt_cases (field ga) qx qy) as [[ca Hca]|Hca]; [|done].
      destruct (frames_back _ _ _ _ _ _ Hfa Hwf Hca) as (c & Hc & _).
      destruct Hfb as (_ & _ & Hcw). destruct (Hcw _ _ _ Hc) as (? & ? & _). congruence. }
  destruct Hfa as (Hsa & _). destruct Hfb as (Hsb & _).
  unfold sameSession in *. rewrite Hsa, Hsb, Hfield. done.
Qed.

Lemma play_reachable inputs g g' :
  reachable g → play inputs g = Ok g' → reachable g'.
Proof.
  unfold play. intros Hr Hrun.
  eapply (forEach_preserves reachable); [exact Hrun|done|].
  intros [rnd x y|x y|dt|] s s1 Hs Hstep; simpl in Hstep.
  - by eapply reach_reveal.
  - by eapply reach_flag.
  - destruct (fle f0 dt) eqn:Hdt; [|done]. injection Hstep as <-. by apply reach_tick.
  - injection Hstep as <-. by apply reach_reset.
Qed.

Lemma isEmpty_not_mine k : isEmpty k = true → isMine k = false.
Proof. by destruct k. Qed.

Lemma leftClick_closed rnd x y g c :
  cellAt (field g) x y = Ok c → state c = ClosedState →
  gameOver g = false → win g = false →
  leftClickCell rnd x y g = (g0 ← firstClickStep rnd x y g; openCell x y g0).
Proof.
  intros Hc Hs Hgo Hw. unfold leftClickCell. rewrite Hc. simpl. rewrite Hs. simpl.
  unfold revealFromState. rewrite Hgo, Hw, Hc. simpl. by rewrite Hs.
Qed.

(** Cutting a path at its last visit of the clicked cell: the region seen
    from the board with the clicked cell already opened is the same. *)
Lemma fillRegion_root g g1 x y c :
  wellFormed g → cellAt (field g) x y = Ok c →
  setState makeOpenedState x y g = Ok g1 →
  ∀ qx qy, fillRegion g x y qx qy → (qx = x ∧ qy = y) ∨ fillRegion g1 x y qx qy.
Proof.
  intros Hwf Hc (_ & _ & c0 & Hc0 & Hnew & Hother)%setState_Ok.
  induction 1 as [nx ny cn Hadj Hcn Hcl|px py pc nx ny cn _ IH Hpc He Hadj Hcn Hcl].
  - right. eapply fill_near; [done| |done]. rewrite Hother; [done|].
    intros [= -> ->]. destruct Hadj as (_ & _ & []). done.
  - destruct (decide ((nx, ny) = (x, y))) as [[= -> ->]|Hne]; [by left|right].
    rewrite <- Hother in Hcn by done.
    destruct IH as [[-> ->]|IH].
    + by eapply fill_near.
    + destruct (decide ((px, py) = (x, y))) as [[= -> ->]|Hnp]; [by eapply fill_near|].
      rewrite <- Hother in Hpc by done. by eapply fill_far.
Qed.

Lemma isOpen_state s : isOpen s = true → s = OpenedState.
Proof. by destruct s. Qed.

Lemma fillable_inv c :
  fillable c = true →
  isOpen (state c) = false ∧ isFlagged (state c) = false ∧ isMine (content c) = false.
Proof.
  unfold fillable. rewrite !andb_true_iff, !negb_true_iff. tauto.
Qed.

Lemma closed_fillable c :
  state c = ClosedState → isMine (content c) = false → fillable c = true.
Proof. unfold fillable. by intros -> ->. Qed.

(** ** Reveal and flag as whole operations *)

Lemma keepsContent_refl c : keepsContent c c.
Proof. done. Qed.
Lemma keepsContent_trans a b c : keepsContent a b → keepsContent b c → keepsContent a c.
Proof. unfold keepsContent. congruence. Qed.
Lemma opensOnly_keepsContent c c' : opensOnly c c' → keepsContent c c'.
Proof. apply opensOnly_content. Qed.

Lemma cellwise_trans (R : Cell → Cell → Prop) g1 g2 g3 :
  (∀ a b c, R a b → R b c → R a c) →
  cellwise R g1 g2 → cellwise R g2 g3 → cellwise R g1 g3.
Proof.
  intros HR H1 H2 x y c Hc. destruct (H1 _ _ _ Hc) as (c1 & Hc1 & HR1).
  destruct (H2 _ _ _ Hc1) as (c2 & Hc2 & HR2). eauto.
Qed.

Lemma cellwise_same_field (R : Cell → Cell → Prop) g g' :
  (∀ c, R c c) → field g' = field g → cellwise R g g'.
Proof. intros HR E x y c Hc. exists c. by rewrite E. Qed.

Lemma checkWin_field g g' : checkWin g = Ok g' → field g' = field g.
Proof. by intros [->| ->]%checkWin_cases. Qed.

(** The two ways [openCell] can end. *)
Lemma openCell_Ok x y g g' :
  wellFormed g → openCell x y g = Ok g' →
  ∃ g1 c, cellAt (field g) x y = Ok c ∧
    setState makeOpenedState x y g = Ok g1 ∧
    ((isMine (content c) = true ∧ triggerExplosion g1 = Ok g') ∨
     (isMine (content c) = false ∧
      ∃ g2, frames opensOnly g1 g2 ∧ checkWin g2 = Ok g')).
Proof.
  intros Hwf. unfold openCell. intros (g1 & Hset & Hrest)%bind_Ok.
  pose proof Hset as (_ & Hwf1 & c & Hc & Hnew & _)%setState_Ok.
  rewrite Hnew in Hrest. cbn [mbind result_bind content] in Hrest.
  exists g1, c. split; [done|]. split; [done|].
  destruct (isMine (content c)) eqn:Hm; [by left|right]. split; [done|].
  apply bind_Ok in Hrest as (g2 & Hfill & Hcheck). exists g2. split; [|done].
  destruct (isEmpty (content c)).
  - rewrite floodFill_as_order in Hfill.
    eapply floodFillOrd_spec; [|by apply Hwf1|exact Hfill]. done.
  - injection Hfill as <-. apply frames_refl, opensOnly_refl.
Qed.

Lemma cellwise_weaken (R R' : Cell → Cell → Prop) g g' :
  (∀ a b, R a b → R' a b) → cellwise R g g' → cellwise R' g g'.
Proof. intros HR Hc x y c Hxy. destruct (Hc _ _ _ Hxy) as (c' & ? & ?). eauto. Qed.

Lemma cellwise_back (R : Cell → Cell → Prop) g g' x y c' :
  wellFormed g → wellFormed g' → W g' = W g → H g' = H g →
  cellwise R g g' → cellAt (field g') x y = Ok c' →
  ∃ c, cellAt (field g) x y = Ok c ∧ R c c'.
Proof.
  intros Hwf Hwf' HW HH Hcw Hc'.
  pose proof (cellAt_inBoard _ _ _ _ Hwf' Hc') as Hin.
  assert (inBoard g x y = true) as Hin' by (unfold inBoard in *; by rewrite <- HW, <- HH).
  destruct (inBoard_cellAt g x y Hwf Hin') as [c Hc].
  destruct (Hcw _ _ _ Hc) as (c2 & Hc2 & HR).
  exists c. split; [done|]. congruence.
Qed.

(** What [openCell] does to the session. *)
Lemma openCell_effects x y g g' :
  wellFormed g → openCell x y g = Ok g' →
  wellFormed g' ∧ sameBoard g g' ∧ cellwise keepsContent g g' ∧
  firstClick g' = firstClick g ∧ timeElapsed g' = timeElapsed g ∧
  ∃ c, cellAt (field g) x y = Ok c ∧
    ((isMine (content c) = true ∧
      gameOver g' = true ∧ win g' = win g ∧ timerRunning g' = false ∧
      explosion g' = true ∧ explosionTimer g' = f0_2 ∧
      ∀ x' y' c', cellAt (field g') x' y' = Ok c' → state c' = OpenedState) ∨
     (isMine (content c) = false ∧
      gameOver g' = gameOver g ∧ explosion g' = explosion g ∧
      explosionTimer g' = explosionTimer g ∧
      ((win g' = win g ∧ timerRunning g' = timerRunning g) ∨
       (win g' = true ∧ timerRunning g' = false)))).
Proof.
  intros Hwf Hrun.
  destruct (openCell_Ok _ _ _ _ Hwf Hrun) as (g1 & c & Hc & Hset & Hcase).
  assert (frames keepsContent g g1) as Hf1.
  { eapply updCell_frames; [apply keepsContent_refl| |exact Hset]. done. }
  pose proof (frames_wellFormed _ _ _ Hf1 Hwf) as Hwf1.
  pose proof (frames_sameBoard _ _ _ Hf1) as Hb1.
  destruct Hf1 as (Hs1 & _ & Hcw1).
  destruct (sameSession_fields _ _ Hs1)
    as (_ & _ & _ & Hgo1 & Hw1 & Hfc1 & Hex1 & Hext1 & Htr1 & Hte1).
  destruct Hcase as [[Hm Hboom]|(Hm & g2 & Hf2 & Hcheck)].
  - destruct (triggerExplosion_Ok _ _ Hwf1 Hboom) as (Hwf' & Heq & Hcw).
    split; [done|]. split.
    { eapply sameBoard_trans; [exact Hb1|]. rewrite Heq. unfold sameBoard. simpl.
      split_and!; try done. intros _. by rewrite <- Heq. }
    split.
    { eapply cellwise_trans; [apply keepsContent_trans|exact Hcw1|].
      eapply cellwise_weaken; [|exact Hcw]. by intros a b [? _]. }
    split; [rewrite Heq; simpl; congruence|]. split; [rewrite Heq; simpl; congruence|].
    exists c. split; [done|]. left.
    split_and!; try done; try (rewrite Heq; simpl; congruence).
    intros x' y' c' Hc'.
    assert (W g' = W g1 ∧ H g' = H g1) as [HW' HH'] by by rewrite Heq.
    by destruct (cellwise_back _ g1 g' x' y' c' Hwf1 Hwf' HW' HH' Hcw Hc')
      as (? & _ & _ & ?).
  - pose proof (frames_wellFormed _ _ _ Hf2 Hwf1) as Hwf2.
    pose proof (frames_sameBoard _ _ _ Hf2) as Hb2.
    destruct Hf2 as (Hs2 & _ & Hcw2).
    destruct (sameSession_fields _ _ Hs2)
      as (HW2 & HH2 & _ & Hgo2 & Hw2 & Hfc2 & Hex2 & Hext2 & Htr2 & Hte2).
    assert (cellwise keepsContent g g2) as Hcw.
    { eapply cellwise_trans; [apply keepsContent_trans|exact Hcw1|].
      eapply cellwise_weaken; [apply opensOnly_keepsContent|exact Hcw2]. }
    assert (sameBoard g g2) as Hb by by eapply sameBoard_trans.
    destruct (checkWin_cases _ _ Hcheck) as [->| ->].
    + split; [done|]. split; [done|]. split; [done|]. split; [congruence|].
      split; [congruence|]. exists c. split; [done|]. right.
      split_and!; try congruence. left. split; congruence.
    + split; [done|]. split; [done|]. split; [done|]. split; [simpl; congruence|].
      split; [simpl; congruence|]. exists c. split; [done|]. right.
      simpl. split_and!; try congruence. by right.
Qed.

Lemma leftClick_cases rnd x y g g' :
  leftClickCell rnd x y g = Ok g' →
  ∃ c, cellAt (field g) x y = Ok c ∧
    ((state c ≠ ClosedState ∧ g' = g) ∨
     (state c = ClosedState ∧ (gameOver g = true ∨ win g = true) ∧ g' = g) ∨
     (state c = ClosedState ∧ gameOver g = false ∧ win g = false ∧
      ∃ g0, firstClickStep rnd x y g = Ok g0 ∧ openCell x y g0 = Ok g')).
Proof.
  unfold leftClickCell. intros (c & Hc & Hrun)%bind_Ok. exists c. split; [done|].
  destruct (state c) eqn:Hs; simpl in Hrun.
  - right. unfold revealFromState in Hrun.
    destruct (gameOver g) eqn:Hgo; simpl in Hrun.
    { left. injection Hrun as <-. auto. }
    destruct (win g) eqn:Hw; simpl in Hrun.
    { left. injection Hrun as <-. auto. }
    right. rewrite Hc in Hrun. simpl in Hrun. rewrite Hs in Hrun. simpl in Hrun.
    apply bind_Ok in Hrun as (g0 & H0 & Hopen). eauto 6.
  - left. by injection Hrun as <-.
  - left. by injection Hrun as <-.
Qed.

Lemma rightClick_cases x y g g' :
  rightClickCell x y g = Ok g' →
  ∃ c, cellAt (field g) x y = Ok c ∧
    ((state c = OpenedState ∧ g' = g) ∨
     (state c = FlaggedState ∧ setState makeClosedState x y g = Ok g') ∨
     (state c = ClosedState ∧ (gameOver g = true ∨ win g = true) ∧ g' = g) ∨
     (state c = ClosedState ∧ gameOver g = false ∧ win g = false ∧
      ∃ g1, setState makeFlaggedState x y g = Ok g1 ∧ checkWin g1 = Ok g')).
Proof.
  unfold rightClickCell. intros (c & Hc & Hrun)%bind_Ok. exists c. split; [done|].
  destruct (state c) eqn:Hs; simpl in Hrun.
  - right. right. unfold toggleFlagFromState in Hrun.
    destruct (gameOver g) eqn:Hgo; simpl in Hrun.
    { left. injection Hrun as <-. auto. }
    destruct (win g) eqn:Hw; simpl in Hrun.
    { left. injection Hrun as <-. auto. }
    right. rewrite Hc in Hrun. simpl in Hrun. rewrite Hs in Hrun. simpl in Hrun.
    apply bind_Ok in Hrun as (g1 & H1 & Hcheck). eauto 6.
  - left. by injection Hrun as <-.
  - right. left. done.
Qed.

Lemma flagsOnly_refl c : flagsOnly c c.
Proof. done. Qed.

Lemma wellFormed_resetField g : wellFormed (resetField g).
Proof.
  split; simpl.
  - by rewrite length_replicate.
  - apply Forall_forall. intros row Hrow%elem_of_replicate. destruct Hrow as [-> _].
    by rewrite length_replicate.
Qed.

Lemma cellAt_resetField g x y c :
  cellAt (field (resetField g)) x y = Ok c → c = makeInitialCell.
Proof.
  intros (_ & _ & row & Hrow & Hc)%cellAt_Ok. simpl in Hrow.
  apply lookup_replicate in Hrow as [-> _]. by apply lookup_replicate in Hc as [-> _].
Qed.

Lemma pristine_resetField g : pristine (resetField g).
Proof.
  intros _. split_and!; try done.
  intros x y c ->%cellAt_resetField. done.
Qed.

Lemma update_fields dt g :
  let g' := update dt g in
  W g' = W g ∧ H g' = H g ∧ MINES g' = MINES g ∧ gameOver g' = gameOver g ∧
  win g' = win g ∧ firstClick g' = firstClick g ∧ timerRunning g' = timerRunning g ∧
  field g' = field g.
Proof.
  unfold update. destruct (explosion g); simpl.
  - destruct (flt _ _); simpl; destruct (timerRunning g && _ && _); done.
  - destruct (timerRunning g && _ && _); done.
Qed.

Lemma update_timeElapsed dt g :
  timeElapsed (update dt g) =
  if timerRunning g && negb (gameOver g) && negb (win g)
  then fadd (timeElapsed g) dt else timeElapsed g.
Proof.
  unfold update. destruct (explosion g); simpl.
  - destruct (flt _ _); simpl; destruct (timerRunning g && _ && _); done.
  - destruct (timerRunning g && _ && _); done.
Qed.

(** ** Invariants of reachable sessions *)

Lemma setState_flagsOnly s x y g g' :
  isOpen s = false → setState s x y g = Ok g' → frames flagsOnly g g'.
Proof.
  intros Hs Hset. eapply updCell_frames; [apply flagsOnly_refl| |exact Hset].
  intros c _. by split.
Qed.

Lemma pristine_frames g g' :
  wellFormed g → frames flagsOnly g g' → pristine g → pristine g'.
Proof.
  intros Hwf Hf Hp Hfc. pose proof Hf as (Hs & _).
  destruct (sameSession_fields _ _ Hs) as (_ & _ & _ & Hgo & Hw & Hfc' & _ & _ & Htr & Hte).
  destruct Hp as (? & ? & ? & ? & Hcells); [congruence|].
  split_and!; try congruence.
  intros x y c' Hc'. destruct (frames_back _ _ _ _ _ _ Hf Hwf Hc') as (c & Hc & Hk & Ho).
  destruct (Hcells _ _ _ Hc) as [Hk' Ho']. split; [congruence|auto].
Qed.

(** Before generation a flag never wins: the flagged cell is itself a
    closed non-mine cell. *)
Lemma checkWin_pristine_flag g g1 g' x y c :
  wellFormed g → pristine g → firstClick g = true →
  cellAt (field g) x y = Ok c →
  setState makeFlaggedState x y g = Ok g1 → checkWin g1 = Ok g' → g' = g1.
Proof.
  intros Hwf Hp Hfc Hc Hset Hcheck.
  pose proof (setState_flagsOnly makeFlaggedState _ _ _ _ eq_refl Hset) as Hf.
  pose proof (frames_wellFormed _ _ _ Hf Hwf) as Hwf1.
  destruct (Hp Hfc) as (_ & Hw & _ & _ & Hcells).
  destruct (Hcells _ _ _ Hc) as [Hk _].
  apply setState_Ok in Hset as (Hs & _ & c0 & Hc0 & Hnew & _).
  assert (c0 = c) as -> by congruence.
  assert (win g1 = false) as Hw1.
  { destruct (sameSession_fields _ _ Hs) as (_ & _ & _ & _ & -> & _). done. }
  destruct (checkWin_total g1 Hwf1 Hw1) as [[[Hopen|[_ Hflags]] _]|[_ Hrun]].
  - specialize (Hopen _ _ _ Hnew). simpl in Hopen. rewrite Hk in Hopen.
    by specialize (Hopen eq_refl).
  - specialize (Hflags _ _ _ Hnew). simpl in Hflags. rewrite Hk in Hflags.
    by specialize (Hflags eq_refl).
  - congruence.
Qed.

Lemma reachable_invariant g :
  reachable g →
  wellFormed g ∧ exclusiveEnd g ∧ pristine g ∧ (gameOver g = true → allOpened g).
Proof.
  induction 1 as [w h mines Hw Hh|g rnd x y g' _ (Hwf & Hex & Hp & Hlost) Hrun
                 |g x y g' _ (Hwf & Hex & Hp & Hlost) Hrun
                 |g dt _ (Hwf & Hex & Hp & Hlost) Hdt
                 |g _ _].
  - split; [apply wellFormed_resetField|]. split; [done|].
    split; [apply pristine_resetField|done].
  - destruct (leftClick_cases _ _ _ _ _ Hrun)
      as (c & Hc & [[_ ->]|[(_ & _ & ->)|(Hs & Hgo & Hw & g0 & H0 & Hopen)]]); [done|done|].
    destruct (firstClickStep_Ok _ _ _ _ _ Hwf H0)
      as (Hwf0 & _ & _ & Hgo0 & Hw0 & Hfc0 & _).
    destruct (openCell_effects _ _ _ _ Hwf0 Hopen)
      as (Hwf' & _ & _ & Hfc' & _ & c1 & _ & Hcase).
    split; [done|]. split; [|split].
    + unfold exclusiveEnd.
      destruct Hcase as [(_ & _ & Hw' & _)|(_ & Hgo' & _)].
      * rewrite Hw', Hw0, Hw. apply andb_false_r.
      * by rewrite Hgo', Hgo0, Hgo.
    + intros Hfc. congruence.
    + intros Hgo'. destruct Hcase as [(_ & _ & _ & _ & _ & _ & Hall)|(_ & Hgo2 & _)];
        [exact Hall|congruence].
  - destruct (rightClick_cases _ _ _ _ Hrun)
      as (c & Hc & [[_ ->]|[[Hs Hset]|[(_ & _ & ->)|(Hs & Hgo & Hw & g1 & Hset & Hcheck)]]]);
      [done| |done|].
    + pose proof (setState_flagsOnly makeClosedState _ _ _ _ eq_refl Hset) as Hf.
      split; [by eapply frames_wellFormed|]. split; [|split; [by eapply pristine_frames|]].
      * destruct Hf as (Hss & _). unfold exclusiveEnd.
        by destruct (sameSession_fields _ _ Hss) as (_ & _ & _ & -> & -> & _).
      * destruct Hf as (Hss & _).
        destruct (sameSession_fields _ _ Hss) as (_ & _ & _ & -> & _).
        intros Hgo. specialize (Hlost Hgo _ _ _ Hc). congruence.
    + pose proof (setState_flagsOnly makeFlaggedState _ _ _ _ eq_refl Hset) as Hf.
      pose proof (frames_wellFormed _ _ _ Hf Hwf) as Hwf1.
      pose proof (pristine_frames _ _ Hwf Hf Hp) as Hp1.
      pose proof Hf as (Hss & _).
      destruct (sameSession_fields _ _ Hss) as (_ & _ & _ & Hgo1 & Hw1 & Hfc1 & _).
      destruct (checkWin_cases _ _ Hcheck) as [->| ->].
      * split; [done|]. split; [unfold exclusiveEnd; by rewrite Hgo1, Hgo|].
        split; [done|congruence].
      * split; [done|]. split; [unfold exclusiveEnd; simpl; by rewrite Hgo1, Hgo|].
        split; [|simpl; congruence].
        intros Hfc. simpl in Hfc.
        assert (stopTimer (set_win true g1) = g1) as Heq.
        { eapply (checkWin_pristine_flag g g1); try done. congruence. }
        rewrite Heq. apply Hp1. congruence.
  - destruct (update_fields dt g) as (HW & HH & _ & Hgo & Hw & Hfc & Htr & Hfield).
    split; [by eapply wellFormed_same|]. split; [unfold exclusiveEnd; by rewrite Hgo, Hw|].
    split.
    + intros Hfc'. rewrite Hfc in Hfc'. destruct (Hp Hfc') as (? & ? & Htr0 & Hte0 & Hcells).
      rewrite update_timeElapsed, Htr0. simpl. rewrite Hfield.
      split_and!; try congruence. exact Hcells.
    + unfold allOpened. rewrite Hgo, Hfield. exact Hlost.
  - split; [apply wellFormed_resetField|]. split; [done|].
    split; [apply pristine_resetField|done].
Qed.

(** ** The operations return on valid input *)

Lemma checkWin_defined g : wellFormed g → ∃ g', checkWin g = Ok g'.
Proof.
  intros Hwf. unfold checkWin.
  destruct (checkWinOpen_total g Hwf) as [[_ ->]|[_ ->]]; simpl; [eauto|].
  destruct (win g); simpl; [eauto|].
  destruct (checkWinFlags_total g Hwf) as [[_ ->]|[_ ->]]; eauto.
Qed.

Lemma openCell_total x y g c :
  wellFormed g → cellAt (field g) x y = Ok c → ∃ g', openCell x y g = Ok g'.
Proof.
  intros Hwf Hc. unfold openCell.
  destruct (updCell_defined (fun c => {| content := content c; state := makeOpenedState |})
              x y g c Hc) as [g1 Hset].
  fold (setState makeOpenedState) in Hset. rewrite Hset. cbn [mbind result_bind].
  pose proof Hset as (_ & Hwf1 & c0 & Hc0 & Hnew & _)%setState_Ok. specialize (Hwf1 Hwf).
  rewrite Hnew. cbn [mbind result_bind content].
  destruct (isMine (content c0)).
  { destruct (triggerExplosion_total g1 Hwf1) as (g' & ? & _). eauto. }
  assert (∃ g2, (if isEmpty (content c0) then floodFill (fillDepth g1) x y g1 else Ok g1)
                = Ok g2 ∧ wellFormed g2) as (g2 & -> & Hwf2).
  { destruct (isEmpty (content c0)); [|eauto].
    assert (∀ d : Z * Z, d ∈ offsets8 ↔ d ∈ offsets8) as Hsrc by done.
    destruct (floodFillOrd_total offsets8 (fillDepth g1) x y g1 Hsrc Hwf1
                (fillableCount_fillDepth g1)) as [g2 Hfill].
    exists g2. rewrite floodFill_as_order. split; [done|].
    destruct (floodFillOrd_spec _ _ _ _ _ _ Hsrc Hwf1 Hfill) as (Hf & _).
    by eapply frames_wellFormed. }
  cbn [mbind result_bind]. by apply checkWin_defined.
Qed.

(** A right click on the board always returns. *)
Lemma rightClick_total x y g c :
  wellFormed g → cellAt (field g) x y = Ok c → ∃ g', rightClickCell x y g = Ok g'.
Proof.
  intros Hwf Hc. unfold rightClickCell. rewrite Hc. cbn [mbind result_bind].
  destruct (state c) eqn:Hs; simpl; [|eauto|].
  - unfold toggleFlagFromState. destruct (gameOver g || win g); [eauto|].
    rewrite Hc. cbn [mbind result_bind]. rewrite Hs. simpl.
    destruct (updCell_defined (fun c => {| content := content c; state := makeFlaggedState |})
                x y g c Hc) as [g1 Hset].
    fold (setState makeFlaggedState) in Hset. rewrite Hset. cbn [mbind result_bind].
    apply checkWin_defined. by apply setState_Ok in Hset as (_ & Hwf1 & _); auto.
  - apply (updCell_defined _ x y g c Hc).
Qed.

(** A left click on the board always returns, provided the draws let the
    generator finish when this is the first accepted reveal. *)
Lemma leftClick_total rnd x y g c :
  wellFormed g → cellAt (field g) x y = Ok c →
  (firstClick g = true → ∃ gb, generate rnd x y g = Ok gb) →
  ∃ g', leftClickCell rnd x y g = Ok g'.
Proof.
  intros Hwf Hc Hgen. unfold leftClickCell. rewrite Hc. cbn [mbind result_bind].
  destruct (state c) eqn:Hs; simpl; [|eauto|eauto].
  unfold revealFromState. destruct (gameOver g || win g); [eauto|].
  rewrite Hc. cbn [mbind result_bind]. rewrite Hs. simpl.
  assert (∃ g0, firstClickStep rnd x y g = Ok g0) as [g0 H0].
  { unfold firstClickStep. destruct (firstClick g); [|eauto].
    destruct Hgen as [gb ->]; [done|]. simpl. eauto. }
  rewrite H0. cbn [mbind result_bind].
  destruct (firstClickStep_Ok _ _ _ _ _ Hwf H0) as (Hwf0 & _ & Hcw & _).
  destruct (Hcw _ _ _ Hc) as (c0 & Hc0 & _).
  by eapply openCell_total.
Qed.

(** ** The neighbour list is the set of in-bounds neighbours *)

Lemma elem_of_neighbours g x y nx ny :
  (nx, ny) ∈ neighbours g x y ↔ adjacent x y nx ny ∧ inBoard g nx ny = true.
Proof.
  unfold neighbours. rewrite list_elem_of_In, List.filter_In, List.in_map_iff.
  rewrite adjacent_offsets. split.
  - intros [(d & [= <- <-] & Hd%list_elem_of_In) Hin]. eauto.
  - intros [(d & Hd & -> & ->) Hin]. split; [|done]. exists d.
    split; [done|by apply list_elem_of_In].
Qed.

Lemma NoDup_neighbours g x y : NoDup (neighbours g x y).
Proof.
  unfold neighbours. apply NoDup_ListNoDup, List.NoDup_filter, NoDup_ListNoDup.
  assert (Inj eq eq (λ d : Z * Z, (x + fst d, y + snd d))) as Hinj.
  { intros [a b] [a' b'] [= ? ?]. f_equal; lia. }
  apply (NoDup_fmap_2 (λ d : Z * Z, (x + fst d, y + snd d))).
  apply (bool_decide_unpack _). by vm_compute.
Qed.

Lemma NoDup_mineCells g : NoDup (mineCells g).
Proof. apply NoDup_ListNoDup, List.NoDup_filter, NoDup_ListNoDup, NoDup_cells. Qed.

Lemma NoDup_flaggedCells g : NoDup (flaggedCells g).
Proof. apply NoDup_ListNoDup, List.NoDup_filter, NoDup_ListNoDup, NoDup_cells. Qed.

(** ** The example sessions are reachable *)

Lemma lineBoard_reachable : reachable lineBoard.
Proof.
  apply (play_reachable [Reveal [3; 0] 0 0] (newGame 6 1 1));
    [by apply reach_new|reflexivity].
Qed.

Lemma lostBoard_reachable : reachable lostBoard.
Proof.
  apply (play_reachable [Reveal [] 3 0] lineBoard);
    [apply lineBoard_reachable|reflexivity].
Qed.

Lemma wonBoard_reachable : reachable wonBoard.
Proof.
  apply (play_reachable [Flag 3 0; Reveal [3; 0] 0 0] (newGame 4 1 1));
    [by apply reach_new|reflexivity].
Qed.

Lemma gapBoard_reachable : reachable gapBoard.
Proof.
  apply (play_reachable [Flag 1 0; Flag 3 0; Reveal [7; 0] 2 0; Flag 1 0; Flag 3 0]
           (newGame 8 1 1)); [by apply reach_new|reflexivity].
Qed.

Lemma wellFormed_lineBoard : wellFormed lineBoard.
Proof. split; [reflexivity|]. repeat constructor. Defined.

Lemma wellFormed_gapBoard : wellFormed gapBoard.
Proof. split; [reflexivity|]. repeat constructor. Defined.

(** ** Flood fill: the specified property *)

(** C1 (as amended).  Revealing a Closed, Empty cell of a generated,
    non-terminal board succeeds and opens exactly the clicked cell and the
    region reachable from it through Empty cells that were Closed when the
    reveal began, up to and including the numbered cells on its border:
    the walk never passes a mine, a flagged cell, or a cell that had
    already been Opened.  No mine and no flagged cell is opened, contents
    are untouched, and the resulting field is the same for every order in
    which the eight neighbours are visited. *)
Theorem reveal_empty_opens_region rnd x y g c :
  wellFormed g → firstClick g = false → gameOver g = false → win g = false →
  cellAt (field g) x y = Ok c → state c = ClosedState → isEmpty (content c) = true →
  ∃ g1 g2 g',
    setState makeOpenedState x y g = Ok g1 ∧
    floodFill (fillDepth g1) x y g1 = Ok g2 ∧
    checkWin g2 = Ok g' ∧
    leftClickCell rnd x y g = Ok g' ∧
    (∀ qx qy cq, cellAt (field g) qx qy = Ok cq →
       ∃ cq', cellAt (field g') qx qy = Ok cq' ∧ content cq' = content cq ∧
         (((qx = x ∧ qy = y) ∨ fillRegion g x y qx qy) → state cq' = OpenedState) ∧
         (¬ ((qx = x ∧ qy = y) ∨ fillRegion g x y qx qy) → state cq' = state cq)) ∧
    (∀ qx qy cq cq', cellAt (field g) qx qy = Ok cq → cellAt (field g') qx qy = Ok cq' →
       isOpen (state cq) = false → isOpen (state cq') = true →
       isMine (content cq) = false ∧ isFlagged (state cq) = false) ∧
    (∀ order, (∀ d, d ∈ order ↔ d ∈ offsets8) →
       floodFillOrd order (fillDepth g1) x y g1 = Ok g2).
Proof.
  intros Hwf Hfc Hgo Hwin Hc Hst He.
  pose proof (isEmpty_not_mine _ He) as Hm.
  pose proof (closed_fillable _ Hst Hm) as Hcl.
  destruct (updCell_defined (fun c => {| content := content c; state := makeOpenedState |})
              x y g c Hc) as [g1 Hset].
  fold (setState makeOpenedState) in Hset.
  assert (frames opensOnly g g1) as Hf1.
  { eapply updCell_frames; [apply opensOnly_refl| |exact Hset].
    intros c0 Hc0. rewrite Hc in Hc0. injection Hc0 as <-. by right. }
  pose proof (frames_wellFormed _ _ _ Hf1 Hwf) as Hwf1.
  pose proof Hset as (Hs1 & _ & c0 & Hc0 & Hnew & Hother)%setState_Ok.
  assert (c0 = c) as -> by congruence. clear Hc0.
  assert (∀ d : Z * Z, d ∈ offsets8 ↔ d ∈ offsets8) as Hsrc by done.
  destruct (floodFillOrd_total offsets8 (fillDepth g1) x y g1 Hsrc Hwf1
              (fillableCount_fillDepth g1)) as [g2 Hfill].
  pose proof (floodFillOrd_spec _ _ _ _ _ _ Hsrc Hwf1 Hfill) as Hspec.
  pose proof Hspec as (Hf2 & HB & HC & HD).
  rewrite <- floodFill_as_order in Hfill.
  pose proof (frames_wellFormed _ _ _ Hf2 Hwf1) as Hwf2.
  assert (frames opensOnly g g2) as Hf.
  { eapply frames_trans; [apply opensOnly_trans|exact Hf1|exact Hf2]. }
  assert (win g2 = false) as Hwin2.
  { destruct Hf as (Hs & _). destruct (sameSession_fields _ _ Hs) as (_&_&_&_& -> &_). done. }
  assert (∃ g', checkWin g2 = Ok g' ∧ field g' = field g2) as (g' & Hcheck & Hfield).
  { destruct (checkWin_total g2 Hwf2 Hwin2) as [[_ ->]|[_ ->]]; eauto. }
  exists g1, g2, g'. split; [done|]. split; [done|]. split; [done|]. split; [|split; [|split]].
  - rewrite (leftClick_closed rnd x y g c) by done.
    unfold firstClickStep. rewrite Hfc. cbn [mbind result_bind]. unfold openCell.
    rewrite Hset. cbn [mbind result_bind]. rewrite Hnew. cbn [mbind result_bind content].
    rewrite Hm, He, Hfill. done.
  - intros qx qy cq Hcq. rewrite Hfield.
    destruct Hf as (_ & _ & Hcw). destruct (Hcw _ _ _ Hcq) as (cq' & Hcq' & Hrel).
    exists cq'. split; [done|]. split; [by apply opensOnly_content|].
    destruct (decide ((qx, qy) = (x, y))) as [[= -> ->]|Hne].
    + split; [|tauto]. intros _.
      destruct Hf2 as (_ & _ & Hcw2). destruct (Hcw2 _ _ _ Hnew) as (c2 & Hc2 & Hrel2).
      assert (c2 = cq') as -> by congruence.
      apply isOpen_state. by eapply opensOnly_open.
    + assert (cellAt (field g1) qx qy = Ok cq) as Hcq1 by by rewrite Hother.
      destruct (fill_exact g1 g2 x y Hwf1 Hf2 HB HC HD _ _ _ Hcq1) as [Hin Hout].
      split.
      * intros [[-> ->]|Hreg]; [done|].
        destruct (fillRegion_root g g1 x y c Hwf Hc Hset _ _ Hreg) as [[-> ->]|Hreg1]; [done|].
        rewrite (Hin Hreg1) in Hcq'. by injection Hcq' as <-.
      * intros Hnot. rewrite Hout in Hcq'; [by injection Hcq' as <-|].
        intros Hreg1. apply Hnot. right. by eapply fillRegion_frames.
  - intros qx qy cq cq' Hcq Hcq' Hclosed Hopen. rewrite Hfield in Hcq'.
    destruct Hf as (_ & _ & Hcw). destruct (Hcw _ _ _ Hcq) as (cq2 & Hcq2 & Hrel).
    assert (cq2 = cq') as -> by congruence.
    destruct Hrel as [->|[Hclq _]]; [congruence|].
    by apply fillable_inv in Hclq as (_ & ? & ?).
  - intros order Hord.
    destruct (floodFillOrd_total order (fillDepth g1) x y g1 Hord Hwf1
                (fillableCount_fillDepth g1)) as [g2' Hfill'].
    pose proof (floodFillOrd_spec _ _ _ _ _ _ Hord Hwf1 Hfill') as Hspec'.
    by rewrite (fill_unique g1 g2 g2' x y Hwf1 Hspec Hspec').
Qed.

Lemma reveal_empty_opens_region_witness :
  wellFormed gapBoard ∧ firstClick gapBoard = false ∧
  gameOver gapBoard = false ∧ win gapBoard = false ∧
  cellAt (field gapBoard) 0 0 = Ok {| content := EmptyContent; state := ClosedState |} ∧
  ∃ g', leftClickCell [] 0 0 gapBoard = Ok g' ∧
    ∃ c', cellAt (field g') 1 0 = Ok c' ∧ state c' = OpenedState.
Proof.
  split; [exact wellFormed_gapBoard|]. split_and!; try reflexivity.
  destruct (reveal_empty_opens_region [] 0 0 gapBoard
              {| content := EmptyContent; state := ClosedState |})
    as (g1 & g2 & g' & _ & _ & _ & Hclick & Hcells & _);
    [exact wellFormed_gapBoard|reflexivity..|].
  exists g'. split; [exact Hclick|].
  destruct (Hcells 1 0 {| content := EmptyContent; state := ClosedState |} eq_refl)
    as (c' & Hc' & _ & Hin & _).
  exists c'. split; [exact Hc'|]. apply Hin. right.
  apply (fill_near gapBoard 0 0 1 0 {| content := EmptyContent; state := ClosedState |});
    [unfold adjacent; lia|reflexivity|reflexivity].
Defined.

(** C1, counterexample to the property as the specification states it.
    On [gapBoard] column 0 is Closed and Empty, and column 3 is reachable
    from it through the Empty columns 1 and 2 without crossing a mine or a
    flag; but column 2 is already Opened, flood fill does not pass it, and
    column 3 stays Closed. *)
Lemma reveal_stops_at_opened_cells :
  reachable gapBoard ∧ firstClick gapBoard = false ∧
  gameOver gapBoard = false ∧ win gapBoard = false ∧
  cellAt (field gapBoard) 0 0 = Ok {| content := EmptyContent; state := ClosedState |} ∧
  specifiedRegion gapBoard 0 0 3 0 ∧
  ∃ g', leftClickCell [] 0 0 gapBoard = Ok g' ∧
        cellAt (field g') 3 0 = Ok {| content := EmptyContent; state := ClosedState |}.
Proof.
  split; [exact gapBoard_reachable|]. split_and!; try reflexivity.
  - apply (specified_far gapBoard 0 0 2 0 {| content := EmptyContent; state := OpenedState |}
             3 0 {| content := EmptyContent; state := ClosedState |});
      [|reflexivity|reflexivity|unfold adjacent; lia|reflexivity..].
    apply (specified_far gapBoard 0 0 1 0 {| content := EmptyContent; state := ClosedState |}
             2 0 {| content := EmptyContent; state := OpenedState |});
      [|reflexivity|reflexivity|unfold adjacent; lia|reflexivity..].
    apply (specified_near gapBoard 0 0 1 0 {| content := EmptyContent; state := ClosedState |});
      [unfold adjacent; lia|reflexivity..].
  - eexists. split; reflexivity.
Qed.

(** ** Generated boards: the specified property *)

Lemma number_makeNumberContent n : 0 ≤ n → number (makeNumberContent n) = n.
Proof.
  intros Hn. unfold makeNumberContent, CellContentFactory.makeNumber.
  destruct (Z.leb_spec n 0); simpl; lia.
Qed.

(** C2.  On a well-formed board with [0 <= MINES < W*H - 9] there are draws
    of [rand()] on which [generate] finishes, and whenever it finishes,
    exactly [MINES] cells carry a mine, no mine lies in the 3x3
    neighbourhood of the safe cell, and the number of every non-mine cell
    is the brute-force count of the mines among its in-bounds neighbours. *)
Theorem generate_board safeX safeY g :
  wellFormed g → 0 ≤ W g → 0 ≤ H g → 0 ≤ MINES g → MINES g < W g * H g - 9 →
  (∃ rnd g', generate rnd safeX safeY g = Ok g') ∧
  ∀ rnd g', generate rnd safeX safeY g = Ok g' →
    Z.of_nat (length (mineCells g')) = MINES g' ∧
    (∀ x y c, cellAt (field g') x y = Ok c → inSafeZone safeX safeY x y →
       isMine (content c) = false) ∧
    (∀ x y c, cellAt (field g') x y = Ok c → isMine (content c) = false →
       number (content c) = mineNeighbours g' x y).
Proof.
  intros Hwf HW HH Hm Hfit. split; [apply generate_can_finish; [done..|lia]|].
  intros rnd g' Hgen.
  destruct (generate_Ok _ _ _ _ _ Hwf Hgen) as (Hf & Hsafe & Hcount & Hnum).
  split; [by rewrite (frames_MINES _ _ _ Hf), Hcount|]. split; [exact Hsafe|].
  intros x y c Hc Hnm. rewrite (Hnum _ _ _ Hc Hnm).
  apply number_makeNumberContent. unfold mineNeighbours. lia.
Qed.

Lemma generate_board_witness :
  Z.of_nat (length (mineCells generatedBoard)) = MINES generatedBoard ∧
  (∀ x y c, cellAt (field generatedBoard) x y = Ok c → inSafeZone 0 0 x y →
     isMine (content c) = false) ∧
  (∀ x y c, cellAt (field generatedBoard) x y = Ok c → isMine (content c) = false →
     number (content c) = mineNeighbours generatedBoard x y).
Proof.
  destruct (generate_board 0 0 (newGame 4 4 2)) as [_ Hall].
  - apply wellFormed_resetField.
  - simpl. lia.
  - simpl. lia.
  - simpl. lia.
  - simpl. lia.
  - apply (Hall [3; 3; 0; 3] generatedBoard). reflexivity.
Defined.

(** ** Terminal absorption *)

(** What does hold of terminal absorption: a left click never changes a
    terminal session, and neither does a right click on a cell that is not
    Flagged; after a loss no cell is Flagged, so nothing changes at all. *)
Lemma terminal_absorbs g :
  reachable g → gameOver g = true ∨ win g = true →
  (∀ rnd x y g', leftClickCell rnd x y g = Ok g' → g' = g) ∧
  (∀ x y c g', cellAt (field g) x y = Ok c → state c ≠ FlaggedState →
     rightClickCell x y g = Ok g' → g' = g) ∧
  (gameOver g = true → ∀ x y g', rightClickCell x y g = Ok g' → g' = g).
Proof.
  intros (_ & _ & _ & Hlost)%reachable_invariant Hend.
  assert (∀ x y c g', cellAt (field g) x y = Ok c → state c ≠ FlaggedState →
            rightClickCell x y g = Ok g' → g' = g) as Hright.
  { intros x y c g' Hc Hnf Hrun.
    destruct (rightClick_cases _ _ _ _ Hrun)
      as (c' & Hc' & [[_ ->]|[[Hs _]|[(_ & _ & ->)|(_ & Hgo & Hw & _)]]]); try done.
    - congruence.
    - destruct Hend; congruence. }
  split; [|split; [exact Hright|]].
  - intros rnd x y g' Hrun.
    destruct (leftClick_cases _ _ _ _ _ Hrun)
      as (c & Hc & [[_ ->]|[(_ & _ & ->)|(_ & Hgo & Hw & _)]]); try done.
    destruct Hend; congruence.
  - intros Hgo x y g' Hrun. pose proof Hrun as (c & Hc & _)%rightClick_cases.
    apply (Hright x y c g' Hc); [|done]. rewrite (Hlost Hgo _ _ _ Hc). done.
Qed.

(** C3.  On [wonBoard] the game is won and column 3 carries a flag; a
    further right click on it goes through [FlaggedState::onRightClick],
    which bypasses the terminal guard of [toggleFlagFromState], and turns
    the cell back to Closed. *)
Lemma unflag_after_win_changes_cell :
  reachable wonBoard ∧ win wonBoard = true ∧
  cellAt (field wonBoard) 3 0 = Ok {| content := MineContent; state := FlaggedState |} ∧
  ∃ g', rightClickCell 3 0 wonBoard = Ok g' ∧
        cellAt (field g') 3 0 = Ok {| content := MineContent; state := ClosedState |}.
Proof.
  split; [exact wonBoard_reachable|]. split; [reflexivity|]. split; [reflexivity|].
  eexists. split; reflexivity.
Qed.

(** ** Win determination: the specified property *)

(** C4.  In a non-terminal session [checkWin] returns, and it sets [win]
    exactly when every non-mine cell is Opened or the Flagged cells are
    exactly [MINES] many and all on mines.  When it sets [win] it stops the
    timer and changes nothing else; otherwise it changes nothing at all.  In
    particular a flag on a non-mine cell only withholds the flag-based win:
    [gameOver] stays false. *)
Theorem checkWin_iff g :
  wellFormed g → gameOver g = false → win g = false →
  ∃ g', checkWin g = Ok g' ∧
    (win g' = true ↔ allSafeOpen g ∨ winByFlags g) ∧
    (win g' = true → timerRunning g' = false ∧ g' = stopTimer (set_win true g)) ∧
    (win g' = false → g' = g) ∧
    gameOver g' = false.
Proof.
  intros Hwf Hgo Hw.
  destruct (checkWin_total g Hwf Hw) as [[Hyes ->]|[Hno ->]]; eexists; (split; [done|]).
  - simpl. split_and!; done.
  - rewrite Hw. split_and!; done.
Qed.

Lemma checkWin_iff_witness :
  wellFormed lineBoard ∧ gameOver lineBoard = false ∧ win lineBoard = false ∧
  ∃ g', checkWin lineBoard = Ok g' ∧
    (win g' = true ↔ allSafeOpen lineBoard ∨ winByFlags lineBoard) ∧
    (win g' = true → timerRunning g' = false ∧ g' = stopTimer (set_win true lineBoard)) ∧
    (win g' = false → g' = lineBoard) ∧
    gameOver g' = false.
Proof.
  split; [exact wellFormed_lineBoard|]. split; [reflexivity|]. split; [reflexivity|].
  apply (checkWin_iff lineBoard); [exact wellFormed_lineBoard|reflexivity|reflexivity].
Defined.

(** ** Loss: the specified property *)

(** C5.  In a generated, non-terminal session, revealing a Closed cell that
    holds a mine succeeds, sets [gameOver], stops the timer, switches the
    explosion flag on with the positive countdown [0.2f], and leaves every
    cell of the board Opened. *)
Theorem reveal_mine_loses rnd x y g c :
  wellFormed g → firstClick g = false → gameOver g = false → win g = false →
  cellAt (field g) x y = Ok c → state c = ClosedState → isMine (content c) = true →
  ∃ g', leftClickCell rnd x y g = Ok g' ∧
    gameOver g' = true ∧ timerRunning g' = false ∧
    explosion g' = true ∧ flt f0 (explosionTimer g') = true ∧
    (∀ x' y', inBoard g' x' y' = true →
       ∃ c', cellAt (field g') x' y' = Ok c' ∧ isOpen (state c') = true).
Proof.
  intros Hwf Hfc Hgo Hw Hc Hs Hm.
  rewrite (leftClick_closed rnd x y g c) by done.
  unfold firstClickStep. rewrite Hfc. cbn [mbind result_bind].
  destruct (updCell_defined (fun c => {| content := content c; state := makeOpenedState |})
              x y g c Hc) as [g1 Hset].
  fold (setState makeOpenedState) in Hset.
  pose proof Hset as (_ & Hwf1 & c0 & Hc0 & Hnew & _)%setState_Ok.
  assert (c0 = c) as -> by congruence.
  destruct (triggerExplosion_total g1 (Hwf1 Hwf)) as (g' & Hboom & _).
  assert (openCell x y g = Ok g') as Hopen.
  { unfold openCell. rewrite Hset. cbn [mbind result_bind]. rewrite Hnew.
    cbn [mbind result_bind content]. by rewrite Hm. }
  exists g'. split; [done|].
  destruct (openCell_effects _ _ _ _ Hwf Hopen)
    as (Hwf' & _ & _ & _ & _ & c1 & Hc1 & [(_ & ? & _ & ? & ? & Ht & Hall)|[Hm' _]]);
    [|congruence].
  split_and!; try done; [by rewrite Ht|].
  intros x' y' Hin. destruct (inBoard_cellAt g' x' y' Hwf' Hin) as [c' Hc'].
  exists c'. split; [done|]. by rewrite (Hall _ _ _ Hc').
Qed.

Lemma reveal_mine_loses_witness :
  ∃ g', leftClickCell [] 3 0 lineBoard = Ok g' ∧
    gameOver g' = true ∧ timerRunning g' = false ∧
    explosion g' = true ∧ flt f0 (explosionTimer g') = true ∧
    (∀ x' y', inBoard g' x' y' = true →
       ∃ c', cellAt (field g') x' y' = Ok c' ∧ isOpen (state c') = true).
Proof.
  apply (reveal_mine_loses [] 3 0 lineBoard {| content := MineContent; state := ClosedState |});
    [exact wellFormed_lineBoard|reflexivity..].
Defined.

(** ** Toggling a flag twice: the specified property *)

Lemma cell_eta c : {| content := content c; state := state c |} = c.
Proof. by destruct c. Qed.

(** C6 (as amended).  In a non-terminal session, a right click on a Closed
    cell flags it and runs the win check.  Unless that first click wins the
    game, a second right click on the same cell restores the session
    exactly: the cell is Closed again and every other cell and every session
    field is as before the first click. *)
Theorem toggle_twice_restores x y g c :
  wellFormed g → gameOver g = false → win g = false →
  cellAt (field g) x y = Ok c → state c = ClosedState →
  ∃ g1, rightClickCell x y g = Ok g1 ∧
    cellAt (field g1) x y = Ok {| content := content c; state := FlaggedState |} ∧
    (win g1 = false → rightClickCell x y g1 = Ok g).
Proof.
  intros Hwf Hgo Hw Hc Hs.
  destruct (updCell_defined (fun c => {| content := content c; state := makeFlaggedState |})
              x y g c Hc) as [gf Hset].
  fold (setState makeFlaggedState) in Hset.
  pose proof Hset as (Hsf & Hwff & c0 & Hc0 & Hnew & Hother)%setState_Ok.
  assert (c0 = c) as -> by congruence. clear Hc0. specialize (Hwff Hwf).
  destruct (sameSession_fields _ _ Hsf) as (HW & HH & _ & _ & Hwf_win & _).
  assert (win gf = false) as Hwinf by congruence.
  assert (rightClickCell x y g = (checkWin gf)) as Hfirst.
  { unfold rightClickCell. rewrite Hc. cbn [mbind result_bind]. rewrite Hs. simpl.
    unfold toggleFlagFromState. rewrite Hgo, Hw, Hc. simpl. rewrite Hs. simpl.
    by rewrite Hset. }
  rewrite Hfirst.
  destruct (checkWin_total gf Hwff Hwinf) as [[_ ->]|[_ ->]].
  - eexists. split; [done|]. split; [done|]. simpl. done.
  - exists gf. split; [done|]. split; [done|]. intros _.
    assert (rightClickCell x y gf = setState makeClosedState x y gf) as ->.
    { unfold rightClickCell. rewrite Hnew. reflexivity. }
    destruct (updCell_defined (fun c => {| content := content c; state := makeClosedState |})
                x y gf _ Hnew) as [g2 Hset2].
    fold (setState makeClosedState) in Hset2. rewrite Hset2. f_equal.
    pose proof Hset2 as (Hs2 & Hwf2 & c1 & Hc1 & Hnew2 & Hother2)%setState_Ok.
    assert (sameSession g g2) as Hsg by by eapply sameSession_trans.
    apply sameSession_eq; [done|].
    destruct (sameSession_fields _ _ Hsg) as (HW2 & HH2 & _).
    apply field_ext; [done|auto|done|done|].
    intros x1 y1. destruct (decide ((x1, y1) = (x, y))) as [[= -> ->]|Hne].
    + rewrite Hnew2, Hc. f_equal. rewrite Hnew in Hc1. injection Hc1 as <-. simpl.
      unfold makeClosedState. rewrite <- Hs. apply cell_eta.
    + by rewrite Hother2, Hother.
Qed.

Lemma toggle_twice_restores_witness :
  ∃ g1, rightClickCell 5 0 lineBoard = Ok g1 ∧
    cellAt (field g1) 5 0 = Ok {| content := EmptyContent; state := FlaggedState |} ∧
    (win g1 = false → rightClickCell 5 0 g1 = Ok lineBoard).
Proof.
  apply (toggle_twice_restores 5 0 lineBoard {| content := EmptyContent; state := ClosedState |});
    [exact wellFormed_lineBoard|reflexivity..].
Defined.

(** C6, counterexample to the property as the specification states it.
    On [lineBoard] the mine at column 3 is Closed and the game is running;
    flagging it wins the game, and after the second right click the cell is
    Closed again but [win] is set and the timer is stopped. *)
Lemma toggle_twice_can_win :
  reachable lineBoard ∧ gameOver lineBoard = false ∧ win lineBoard = false ∧
  timerRunning lineBoard = true ∧
  cellAt (field lineBoard) 3 0 = Ok {| content := MineContent; state := ClosedState |} ∧
  ∃ g1 g2, rightClickCell 3 0 lineBoard = Ok g1 ∧ rightClickCell 3 0 g1 = Ok g2 ∧
    cellAt (field g2) 3 0 = Ok {| content := MineContent; state := ClosedState |} ∧
    win g2 = true ∧ timerRunning g2 = false.
Proof.
  split; [exact lineBoard_reachable|]. split_and!; try reflexivity.
  do 2 eexists. split_and!; reflexivity.
Qed.

(** ** Exclusive end states: the specified property *)

(** C7.  In every session reachable from construction by reveals, flag
    toggles, ticks and restarts, [gameOver] and [win] are not both true. *)
Theorem gameOver_win_exclusive g :
  reachable g → ¬ (gameOver g = true ∧ win g = true).
Proof.
  intros (_ & Hex & _ & _)%reachable_invariant [Hgo Hw].
  unfold exclusiveEnd in Hex. by rewrite Hgo, Hw in Hex.
Qed.

Lemma gameOver_win_exclusive_witness :
  reachable lostBoard ∧ ¬ (gameOver lostBoard = true ∧ win lostBoard = true).
Proof.
  split; [exact lostBoard_reachable|].
  apply (gameOver_win_exclusive lostBoard). exact lostBoard_reachable.
Defined.

(** ** Time advance: the specified property *)

(** C8 (as amended).  [update dt] subtracts [dt] from the explosion countdown
    when the explosion flag is set, and clears the flag exactly when the
    new countdown is below zero (a countdown that lands on zero keeps the
    flag for now); it adds [dt] to the elapsed time exactly when the timer
    runs and the game is neither over nor won; every other field is left as
    it was. *)
Theorem update_spec dt g :
  explosionTimer (update dt g) =
    (if explosion g then fsub (explosionTimer g) dt else explosionTimer g) ∧
  explosion (update dt g) =
    (explosion g && negb (flt (fsub (explosionTimer g) dt) f0)) ∧
  timeElapsed (update dt g) =
    (if timerRunning g && negb (gameOver g) && negb (win g)
     then fadd (timeElapsed g) dt else timeElapsed g) ∧
  W (update dt g) = W g ∧ H (update dt g) = H g ∧ MINES (update dt g) = MINES g ∧
  gameOver (update dt g) = gameOver g ∧ win (update dt g) = win g ∧
  firstClick (update dt g) = firstClick g ∧
  timerRunning (update dt g) = timerRunning g ∧
  field (update dt g) = field g.
Proof.
  unfold update. destruct (explosion g) eqn:Hex.
  - cbn [explosionTimer set_explosionTimer].
    destruct (flt (fsub (explosionTimer g) dt) f0) eqn:Hlt;
      destruct (timerRunning g && negb (gameOver g) && negb (win g)) eqn:Hrun;
      cbn; rewrite ?Hrun, ?Hex; done.
  - destruct (timerRunning g && negb (gameOver g) && negb (win g)) eqn:Hrun;
      cbn; rewrite ?Hrun, ?Hex; done.
Qed.

(** C8, counterexample to the property as the specification states it.
    After a loss the countdown is [0.2f]; a tick of [0.2f] brings it to
    zero and the flag is still set. *)
Lemma update_keeps_flag_at_zero :
  reachable lostBoard ∧ explosion lostBoard = true ∧ fle f0 f0_2 = true ∧
  explosionTimer (update f0_2 lostBoard) = f0 ∧
  explosion (update f0_2 lostBoard) = true.
Proof.
  split; [exact lostBoard_reachable|]. by vm_compute.
Qed.

(** ** The first accepted reveal *)

Lemma inSafeZone_centre x y : inSafeZone x y x y.
Proof. unfold inSafeZone. lia. Qed.

(** The steps of the first accepted reveal of a session. *)
Lemma first_reveal_steps rnd x y g c g' :
  reachable g → firstClick g = true →
  cellAt (field g) x y = Ok c → state c = ClosedState →
  leftClickCell rnd x y g = Ok g' →
  ∃ gb g0 cb,
    generate rnd x y g = Ok gb ∧ wellFormed gb ∧
    frames keepsState g gb ∧ safeZoneClear x y gb ∧
    g0 = startTimerIfNeeded (set_firstClick false gb) ∧
    wellFormed g0 ∧ field g0 = field gb ∧
    timerRunning g0 = true ∧ timeElapsed g0 = f0 ∧
    gameOver g0 = false ∧ win g0 = false ∧ firstClick g0 = false ∧
    openCell x y g0 = Ok g' ∧
    cellAt (field g0) x y = Ok cb ∧ isMine (content cb) = false.
Proof.
  intros (Hwf & _ & Hp & _)%reachable_invariant Hfc Hc Hs Hrun.
  destruct (Hp Hfc) as (Hgo & Hw & Htr & Hte & Hcells).
  rewrite (leftClick_closed rnd x y g c) in Hrun by done.
  apply bind_Ok in Hrun as (g0 & H0 & Hopen).
  destruct (firstClickStep_Ok _ _ _ _ _ Hwf H0)
    as (Hwf0 & _ & _ & Hgo0 & Hw0 & Hfc0 & _ & _ & _ & Hgen).
  destruct (Hgen Hfc) as (gb & Hgb & Heq).
  destruct (generate_Ok _ _ _ _ _ Hwf Hgb) as (Hf & Hsafe & _).
  pose proof (frames_wellFormed _ _ _ Hf Hwf) as Hwfb.
  pose proof Hf as (Hsb & _ & Hcw).
  destruct (sameSession_fields _ _ Hsb) as (_ & _ & _ & _ & _ & _ & _ & _ & Htrb & _).
  assert (field g0 = field gb ∧ timerRunning g0 = true ∧ timeElapsed g0 = f0)
    as (Hfield & Htr0 & Hte0).
  { rewrite Heq. unfold startTimerIfNeeded. simpl. rewrite Htrb, Htr. done. }
  destruct (Hcw _ _ _ Hc) as (cb & Hcb & _).
  exists gb, g0, cb. split_and!; try done; try congruence.
  eapply Hsafe; [exact Hcb|apply inSafeZone_centre].
Qed.

(** Once the board is generated, nothing short of a restart changes the
    content of a cell or re-arms the first-click flag. *)
Lemma play_keeps_board inputs g gl :
  wellFormed g → firstClick g = false → Restart ∉ inputs →
  play inputs g = Ok gl →
  wellFormed gl ∧ firstClick gl = false ∧ cellwise keepsContent g gl.
Proof.
  intros Hwf Hfc Hno Hrun. unfold play in Hrun.
  apply (forEach_partial (λ _ s,
    wellFormed s ∧ firstClick s = false ∧ cellwise keepsContent g s)) in Hrun; [done| |].
  { split; [done|]. split; [done|]. by apply cellwise_same_field. }
  clear Hrun. intros _ i s s1 Hi (Hwfs & Hfcs & Hcw) Hstep.
  assert (wellFormed s1 ∧ firstClick s1 = false ∧ cellwise keepsContent s s1)
    as (? & ? & Hcw1);
    [|split; [done|]; split; [done|];
      eapply cellwise_trans; [apply keepsContent_trans|exact Hcw|exact Hcw1]].
  destruct i as [rnd x y|x y|dt|]; simpl in Hstep; [| | |done].
  - destruct (leftClick_cases _ _ _ _ _ Hstep)
      as (c & Hc & [[_ ->]|[(_ & _ & ->)|(Hs & Hgo & Hw & g0 & H0 & Hopen)]]).
    1,2: split; [done|]; split; [done|]; by apply cellwise_same_field.
    destruct (firstClickStep_Ok _ _ _ _ _ Hwfs H0) as (_ & _ & _ & _ & _ & _ & _ & _ & Hid & _).
    rewrite (Hid Hfcs) in Hopen.
    destruct (openCell_effects _ _ _ _ Hwfs Hopen) as (? & _ & ? & ? & _).
    split; [done|]. split; [congruence|done].
  - destruct (rightClick_cases _ _ _ _ Hstep)
      as (c & Hc & [[_ ->]|[[Hs Hset]|[(_ & _ & ->)|(Hs & Hgo & Hw & g1 & Hset & Hcheck)]]]).
    1,3: split; [done|]; split; [done|]; by apply cellwise_same_field.
    + pose proof (setState_flagsOnly makeClosedState _ _ _ _ eq_refl Hset) as (Hss & Hw1 & Hc1).
      destruct (sameSession_fields _ _ Hss) as (_ & _ & _ & _ & _ & Hfc1 & _).
      split; [auto|]. split; [congruence|].
      eapply cellwise_weaken; [|exact Hc1]. by intros a b [? _].
    + pose proof (setState_flagsOnly makeFlaggedState _ _ _ _ eq_refl Hset) as (Hss & Hw1 & Hc1).
      destruct (sameSession_fields _ _ Hss) as (HW1 & HH1 & _ & _ & _ & Hfc1 & _).
      assert (cellwise keepsContent s g1) as Hk.
      { eapply cellwise_weaken; [|exact Hc1]. by intros a b [? _]. }
      destruct (checkWin_cases _ _ Hcheck) as [->| ->].
      * split; [auto|]. split; [congruence|done].
      * split; [by eapply (wellFormed_same g1); [..|auto]|]. split; [simpl; congruence|done].
  - destruct (fle f0 dt); [|done]. injection Hstep as <-.
    destruct (update_fields dt s) as (HW & HH & _ & _ & _ & Hfc' & _ & Hfield).
    split; [by eapply wellFormed_same|]. split; [congruence|].
    by apply cellwise_same_field.
Qed.

(** C10.  The first accepted reveal of a session cannot lose: with draws
    on which the generator finishes the click returns, the clicked cell
    ends up Opened and is no mine, no Opened cell holds a mine, and
    [gameOver] stays false. *)
Theorem first_reveal_safe rnd x y g c gb :
  reachable g → firstClick g = true →
  cellAt (field g) x y = Ok c → state c = ClosedState →
  generate rnd x y g = Ok gb →
  ∃ g', leftClickCell rnd x y g = Ok g' ∧
    gameOver g' = false ∧
    (∃ c', cellAt (field g') x y = Ok c' ∧ state c' = OpenedState ∧
           isMine (content c') = false) ∧
    (∀ qx qy cq, cellAt (field g') qx qy = Ok cq → isOpen (state cq) = true →
       isMine (content cq) = false).
Proof.
  intros Hr Hfc Hc Hs Hgen.
  pose proof Hr as (Hwf & _ & Hp & _)%reachable_invariant.
  destruct (leftClick_total rnd x y g c Hwf Hc) as [g' Hrun]; [by eauto|].
  exists g'. split; [done|].
  destruct (first_reveal_steps _ _ _ _ _ _ Hr Hfc Hc Hs Hrun)
    as (gb' & g0 & cb & Hgen' & Hwfb & Hf & Hsafe & Heq & Hwf0 & Hfield & Htr0 & Hte0
        & Hgo0 & Hw0 & Hfc0 & Hopen & Hcb & Hmb).
  destruct (Hp Hfc) as (_ & _ & _ & _ & Hcells).
  destruct (openCell_effects _ _ _ _ Hwf0 Hopen)
    as (_ & _ & _ & _ & _ & c1 & Hc1 & Hcase).
  assert (c1 = cb) as -> by congruence.
  destruct Hcase as [[Hm _]|(_ & Hgo' & _)]; [congruence|].
  split; [congruence|].
  destruct (openCell_Ok _ _ _ _ Hwf0 Hopen) as (g1 & c2 & Hc2 & Hset & Hcase).
  assert (c2 = cb) as -> by congruence.
  destruct Hcase as [[Hm _]|(_ & g2 & Hf2 & Hcheck)]; [congruence|].
  pose proof Hset as (_ & Hwf1 & c3 & Hc3 & Hnew & Hother)%setState_Ok.
  assert (c3 = cb) as -> by congruence. specialize (Hwf1 Hwf0).
  rewrite (checkWin_field _ _ Hcheck). split.
  - destruct Hf2 as (_ & _ & Hcw). destruct (Hcw _ _ _ Hnew) as (c' & Hc' & Hrel).
    exists c'. split; [done|]. split.
    + apply isOpen_state. by eapply opensOnly_open.
    + by rewrite (opensOnly_content _ _ Hrel).
  - intros qx qy cq Hcq Hopenq.
    destruct (frames_back _ _ _ _ _ _ Hf2 Hwf1 Hcq) as (cq1 & Hcq1 & Hrel).
    rewrite (opensOnly_content _ _ Hrel).
    destruct Hrel as [->|[Hcl _]]; [|by apply fillable_inv in Hcl as (_ & _ & ?)].
    destruct (decide ((qx, qy) = (x, y))) as [[= -> ->]|Hne].
    + rewrite Hnew in Hcq1. by injection Hcq1 as <-.
    + rewrite Hother, Hfield in Hcq1 by done.
      destruct (frames_back _ _ _ _ _ _ Hf Hwf Hcq1) as (cq0 & Hcq0 & Hst).
      destruct (Hcells _ _ _ Hcq0) as [_ Hclosed].
      unfold keepsState in Hst. congruence.
Qed.

Lemma first_reveal_safe_witness :
  reachable (newGame 6 1 1) ∧ firstClick (newGame 6 1 1) = true ∧
  generate [3; 0] 0 0 (newGame 6 1 1) = Ok lineGenerated ∧
  ∃ g', leftClickCell [3; 0] 0 0 (newGame 6 1 1) = Ok g' ∧ gameOver g' = false.
Proof.
  assert (reachable (newGame 6 1 1)) as Hr by (apply reach_new; lia).
  split; [exact Hr|]. split; [reflexivity|]. split; [reflexivity|].
  destruct (first_reveal_safe [3; 0] 0 0 (newGame 6 1 1) makeInitialCell lineGenerated)
    as (g' & Hrun & Hgo & _); [exact Hr|reflexivity..|].
  exists g'. split; [exact Hrun|exact Hgo].
Defined.

(** ** The flag counter *)

Lemma flagsCount_total g :
  wellFormed g → flagsCount g = Ok (Z.of_nat (length (flaggedCells g))).
Proof.
  intros Hwf. unfold flagsCount.
  destruct (forCells_total
    (λ done f,
       f = Z.of_nat (length (List.filter (cellHas (λ c, isFlagged (state c)) g) done)))
    (upto (H g)) (upto (W g)) (λ _, upto (W g))
    (λ x y f, c ← cellAt (field g) x y;
       if isFlagged (state c) then Ok (f + 1) else Ok f) 0) as (n & Hrun & Hn).
  - done.
  - done.
  - intros done x y f Hx%elem_of_upto Hy%elem_of_upto Hf.
    destruct (inBoard_cellAt g x y Hwf) as [c Hc]; [by apply inBoard_iff|].
    rewrite Hc. cbn [mbind result_bind].
    rewrite filter_snoc, (cellHas_Ok _ _ _ _ _ Hc).
    destruct (isFlagged (state c)); eexists; (split; [done|]);
      rewrite ?length_app, ?app_nil_r; simpl; lia.
  - transitivity (Ok n); [exact Hrun|]. by rewrite Hn.
Qed.

Lemma flaggedCells_same g g' :
  W g' = W g → H g' = H g → field g' = field g → flaggedCells g' = flaggedCells g.
Proof. intros HW HH Hf. unfold flaggedCells, cells, cellHas. by rewrite HW, HH, Hf. Qed.

Lemma cellHas_cellwise (R : Cell → Cell → Prop) (P : Cell → bool) g g' p :
  (∀ c c', R c c' → P c' = P c) →
  wellFormed g → wellFormed g' → W g' = W g → H g' = H g →
  cellwise R g g' → cellHas P g' p = cellHas P g p.
Proof.
  intros HR Hwf Hwf' HW HH Hcw. destruct p as [x y]. unfold cellHas; simpl.
  destruct (cellAt_cases (field g) x y) as [[c Hc]|Hu].
  - destruct (Hcw _ _ _ Hc) as (c' & Hc' & HRc). rewrite Hc, Hc'. eauto.
  - rewrite Hu. destruct (cellAt_cases (field g') x y) as [[c' Hc']|Hu']; [|by rewrite Hu'].
    destruct (cellwise_back R g g' x y c' Hwf Hwf' HW HH Hcw Hc') as (c & Hc & _).
    congruence.
Qed.

Lemma flaggedCells_cellwise g g' :
  wellFormed g → wellFormed g' → W g' = W g → H g' = H g →
  cellwise keepsFlag g g' → flaggedCells g' = flaggedCells g.
Proof.
  intros Hwf Hwf' HW HH Hcw. unfold flaggedCells, cells. rewrite HW, HH.
  apply filter_length_ext. intros p _.
  by apply (cellHas_cellwise keepsFlag).
Qed.

Lemma elem_of_flaggedCells g x y :
  wellFormed g →
  (x, y) ∈ flaggedCells g ↔ ∃ c, cellAt (field g) x y = Ok c ∧ isFlagged (state c) = true.
Proof.
  intros Hwf. unfold flaggedCells.
  rewrite list_elem_of_In, filter_In, <- list_elem_of_In, in_cells. unfold cellHas; simpl. split.
  - intros [_ Hf]. destruct (cellAt (field g) x y) as [c| |]; [eauto|done|done].
  - intros (c & Hc & Hf). rewrite Hc. split; [|done]. by eapply cellAt_inBoard.
Qed.

Lemma flaggedCells_setState s x y g g1 c :
  wellFormed g → cellAt (field g) x y = Ok c → setState s x y g = Ok g1 →
  Z.of_nat (length (flaggedCells g1)) =
  Z.of_nat (length (flaggedCells g))
  + (if isFlagged s then 1 else 0) - (if isFlagged (state c) then 1 else 0).
Proof.
  intros Hwf Hc Hset.
  destruct (setState_Ok _ _ _ _ _ Hset) as (Hss & Hwf1 & c0 & Hc0 & Hc1 & Hoth).
  assert (c0 = c) as -> by congruence.
  destruct (sameSession_fields _ _ Hss) as (HW & HH & _).
  assert (cells g1 = cells g) as Hcells by (unfold cells; by rewrite HW, HH).
  assert ((x, y) ∈ cells g) as Hin by (apply in_cells; by eapply cellAt_inBoard).
  assert (∀ b, b ∈ cells g → b ≠ (x, y) →
            cellHas (λ c, isFlagged (state c)) g1 b = cellHas (λ c, isFlagged (state c)) g b)
    as Hrest.
  { intros [bx by_] _ Hne. unfold cellHas; simpl. rewrite (Hoth bx by_ Hne). done. }
  unfold flaggedCells. rewrite Hcells.
  destruct (isFlagged s) eqn:Es, (isFlagged (state c)) eqn:Ec.
  - rewrite (filter_length_ext (cellHas (λ c, isFlagged (state c)) g)
                               (cellHas (λ c, isFlagged (state c)) g1)); [lia|].
    intros b Hb. destruct (decide (b = (x, y))) as [->|Hne]; [|by apply Hrest].
    rewrite (cellHas_Ok _ _ _ _ _ Hc), (cellHas_Ok _ _ _ _ _ Hc1). simpl. congruence.
  - rewrite (filter_length_point (cellHas (λ c, isFlagged (state c)) g)
                                 (cellHas (λ c, isFlagged (state c)) g1) _ (x, y));
      [lia|apply NoDup_cells|done| | |done].
    + rewrite (cellHas_Ok _ _ _ _ _ Hc). simpl. congruence.
    + rewrite (cellHas_Ok _ _ _ _ _ Hc1). simpl. congruence.
  - rewrite (filter_length_point (cellHas (λ c, isFlagged (state c)) g1)
                                 (cellHas (λ c, isFlagged (state c)) g) _ (x, y));
      [lia|apply NoDup_cells|done| | |].
    + rewrite (cellHas_Ok _ _ _ _ _ Hc1). simpl. congruence.
    + rewrite (cellHas_Ok _ _ _ _ _ Hc). simpl. congruence.
    + intros b Hb Hne. symmetry. by apply Hrest.
  - rewrite (filter_length_ext (cellHas (λ c, isFlagged (state c)) g)
                               (cellHas (λ c, isFlagged (state c)) g1)); [lia|].
    intros b Hb. destruct (decide (b = (x, y))) as [->|Hne]; [|by apply Hrest].
    rewrite (cellHas_Ok _ _ _ _ _ Hc), (cellHas_Ok _ _ _ _ _ Hc1). simpl. congruence.
Qed.

(** X1.  [flagsCount] returns the number of Flagged cells: the length of
    the duplicate-free list of the coordinates whose cell is Flagged, a
    number between 0 and [W * H]. *)
Theorem flagsCount_counts_flagged g :
  wellFormed g → 0 ≤ W g → 0 ≤ H g →
  flagsCount g = Ok (Z.of_nat (length (flaggedCells g))) ∧
  NoDup (flaggedCells g) ∧
  (∀ x y, (x, y) ∈ flaggedCells g ↔
          ∃ c, cellAt (field g) x y = Ok c ∧ isFlagged (state c) = true) ∧
  0 ≤ Z.of_nat (length (flaggedCells g)) ≤ W g * H g.
Proof.
  intros Hwf HW HH. split; [by apply flagsCount_total|].
  split; [apply NoDup_flaggedCells|].
  split; [intros x y; by apply elem_of_flaggedCells|].
  split; [lia|]. rewrite <- (length_cells g HW HH).
  apply inj_le. unfold flaggedCells. apply List.filter_length_le.
Qed.

Lemma flagsCount_counts_flagged_witness :
  flagsCount wonBoard = Ok (Z.of_nat (length (flaggedCells wonBoard))) ∧
  0 ≤ Z.of_nat (length (flaggedCells wonBoard)) ≤ W wonBoard * H wonBoard.
Proof.
  assert (wellFormed wonBoard) as Hwf.
  { split; [reflexivity|]. repeat constructor. }
  destruct (flagsCount_counts_flagged wonBoard Hwf) as (Hc & _ & _ & Hb).
  - vm_compute. discriminate.
  - vm_compute. discriminate.
  - split; [exact Hc|exact Hb].
Defined.

Lemma checkWin_flaggedCells g g' : checkWin g = Ok g' → flaggedCells g' = flaggedCells g.
Proof.
  intros Hcw. apply flaggedCells_same; [| |by eapply checkWin_field];
    destruct (checkWin_cases _ _ Hcw) as [->| ->]; done.
Qed.

Lemma checkWin_wellFormed g g' : wellFormed g → checkWin g = Ok g' → wellFormed g'.
Proof.
  intros Hwf Hcw. apply (wellFormed_same g); [| |by eapply checkWin_field|done];
    destruct (checkWin_cases _ _ Hcw) as [->| ->]; done.
Qed.

(** X2.  A right click moves the flag counter by exactly one step: up on
    a Closed cell of a running game, down on a Flagged cell (whether or
    not the game has ended), and not at all otherwise.  The mines
    indicator [MINES - flagsCount()] moves the opposite way. *)
Theorem rightClick_moves_flag_count x y g c :
  wellFormed g → cellAt (field g) x y = Ok c →
  ∃ g' n,
    rightClickCell x y g = Ok g' ∧ flagsCount g = Ok n ∧
    flagsCount g' =
      Ok (n + match state c with
              | ClosedState => if gameOver g || win g then 0 else 1
              | FlaggedState => -1
              | OpenedState => 0
              end) ∧
    remaining g = Ok (MINES g - n) ∧
    remaining g' =
      Ok (MINES g - n - match state c with
                        | ClosedState => if gameOver g || win g then 0 else 1
                        | FlaggedState => -1
                        | OpenedState => 0
                        end).
Proof.
  intros Hwf Hc.
  destruct (rightClick_total x y g c Hwf Hc) as [g' Hrc].
  exists g', (Z.of_nat (length (flaggedCells g))).
  split; [done|]. split; [by apply flagsCount_total|].
  assert (∀ k, wellFormed g' → MINES g' = MINES g →
            Z.of_nat (length (flaggedCells g')) = Z.of_nat (length (flaggedCells g)) + k →
            flagsCount g' = Ok (Z.of_nat (length (flaggedCells g)) + k) ∧
            remaining g = Ok (MINES g - Z.of_nat (length (flaggedCells g))) ∧
            remaining g' = Ok (MINES g - Z.of_nat (length (flaggedCells g)) - k)) as Hfin.
  { intros k Hwf' HM Hk. unfold remaining.
    rewrite (flagsCount_total g Hwf), (flagsCount_total g' Hwf'), Hk, HM.
    cbn [mbind result_bind]. split; [done|]. split; [done|]. f_equal. lia. }
  destruct (rightClick_cases _ _ _ _ Hrc) as
    (c0 & Hc0 & [[Es ->]|[[Es Hset]|[(Es & Hterm & ->)|(Es & Hgo & Hw & g1 & Hset & Hcw)]]]);
    assert (c0 = c) as -> by congruence; rewrite Es.
  - apply Hfin; [done|done|lia].
  - destruct (setState_Ok _ _ _ _ _ Hset) as (Hss & Hwf1 & _).
    destruct (sameSession_fields _ _ Hss) as (_ & _ & HM & _).
    apply Hfin; [by apply Hwf1|done|].
    rewrite (flaggedCells_setState _ _ _ _ _ _ Hwf Hc Hset), Es. simpl. lia.
  - assert (gameOver g || win g = true) as ->
      by (destruct Hterm as [-> | ->]; by rewrite ?orb_true_r).
    apply Hfin; [done|done|lia].
  - rewrite Hgo, Hw. simpl.
    destruct (setState_Ok _ _ _ _ _ Hset) as (Hss & Hwf1 & _).
    destruct (sameSession_fields _ _ Hss) as (_ & _ & HM & _).
    apply Hfin.
    + eapply checkWin_wellFormed; [by apply Hwf1|done].
    + destruct (checkWin_cases _ _ Hcw) as [->| ->]; done.
    + rewrite (checkWin_flaggedCells _ _ Hcw).
      rewrite (flaggedCells_setState _ _ _ _ _ _ Hwf Hc Hset), Es. simpl. lia.
Qed.

Lemma rightClick_moves_flag_count_witness :
  ∃ g', rightClickCell 3 0 wonBoard = Ok g' ∧
        flagsCount wonBoard = Ok 1 ∧ flagsCount g' = Ok 0 ∧
        remaining wonBoard = Ok 0 ∧ remaining g' = Ok 1.
Proof.
  assert (wellFormed wonBoard) as Hwf.
  { split; [reflexivity|]. repeat constructor. }
  destruct (rightClick_moves_flag_count 3 0 wonBoard
              {| content := MineContent; state := FlaggedState |} Hwf eq_refl)
    as (g' & n & Hrc & Hn & Hn' & Hr & Hr').
  assert (n = 1) as -> by (vm_compute in Hn; congruence).
  exists g'. repeat split; assumption.
Defined.

(** ** Reveals and the flags *)

Lemma keepsFlag_trans a b c : keepsFlag a b → keepsFlag b c → keepsFlag a c.
Proof. unfold keepsFlag. congruence. Qed.

Lemma opensOnly_keepsFlag c c' : opensOnly c c' → keepsFlag c c'.
Proof.
  intros [->|[Hf ->]]; [done|]. apply fillable_inv in Hf as (_ & Hf & _).
  unfold keepsFlag. simpl. by rewrite Hf.
Qed.

(** X3.  A left click never plants or removes a flag, with one exception:
    the click that loses the game opens every cell, so no flag is left.
    [flagsCount] is unchanged by every other left click and zero after
    the losing one. *)
Theorem leftClick_keeps_flags rnd x y g g' :
  wellFormed g → leftClickCell rnd x y g = Ok g' →
  wellFormed g' ∧
  (gameOver g' = gameOver g →
     cellwise keepsFlag g g' ∧ flagsCount g' = flagsCount g) ∧
  (gameOver g' ≠ gameOver g →
     allOpened g' ∧ flagsCount g' = Ok 0).
Proof.
  intros Hwf Hlc.
  assert (cellwise keepsFlag g g) as Hsame
    by (apply cellwise_same_field; [done|done]).
  destruct (leftClick_cases _ _ _ _ _ Hlc) as
    (c & Hc & [[_ ->]|[(_ & _ & ->)|(Es & Hgo & Hw & g0 & Hfc & Hoc)]]);
    [done|done|].
  destruct (firstClickStep_Ok _ _ _ _ _ Hwf Hfc) as
    (Hwf0 & (HW0 & HH0 & _) & Hks0 & Hgo0 & _).
  destruct (openCell_Ok _ _ _ _ Hwf0 Hoc) as (g1 & c0 & Hc0 & Hset & Hcases).
  destruct (setState_Ok _ _ _ _ _ Hset) as (Hss1 & Hwf1 & _).
  destruct (sameSession_fields _ _ Hss1) as (HW1 & HH1 & _ & Hgo1 & _).
  specialize (Hwf1 Hwf0).
  destruct (Hks0 _ _ _ Hc) as (c0' & Hc0' & Hst0).
  assert (c0' = c0) as -> by congruence. unfold keepsState in Hst0.
  destruct Hcases as [[Hm Hexp]|(Hm & g2 & Hfr & Hcw)].
  - destruct (triggerExplosion_Ok _ _ Hwf1 Hexp) as (Hwf' & Hg' & Hall).
    assert (gameOver g' = true) as Hgo' by (rewrite Hg'; done).
    assert (allOpened g') as Hopen.
    { intros x' y' c' Hc'.
      destruct (cellwise_back _ g1 g' x' y' c' Hwf1 Hwf'
                  ltac:(by rewrite Hg') ltac:(by rewrite Hg') Hall Hc')
        as (c1 & _ & _ & Hs).
      done. }
    split; [done|]. split; [intros E; congruence|]. intros _. split; [done|].
    rewrite (flagsCount_total g' Hwf').
    destruct (flaggedCells g') as [|[px py] l] eqn:El; [done|exfalso].
    assert ((px, py) ∈ flaggedCells g') as Hin by (rewrite El; left).
    apply (elem_of_flaggedCells g' px py Hwf') in Hin as (c' & Hc' & Hf).
    rewrite (Hopen _ _ _ Hc') in Hf. done.
  - assert (wellFormed g2) as Hwf2 by (by eapply frames_wellFormed).
    assert (wellFormed g') as Hwf' by (by eapply checkWin_wellFormed).
    assert (gameOver g' = false) as Hgo'.
    { destruct Hfr as (Hss2 & _). destruct (sameSession_fields _ _ Hss2) as (_ & _ & _ & E & _).
      destruct (checkWin_cases _ _ Hcw) as [->| ->]; simpl; congruence. }
    split; [done|]. split; [|intros E; congruence]. intros _.
    assert (cellwise keepsFlag g g') as Hkf.
    { apply (cellwise_trans _ g g0 g'); [apply keepsFlag_trans| |].
      - eapply cellwise_weaken; [|exact Hks0]. intros a b E. unfold keepsFlag. by rewrite E.
      - apply (cellwise_trans _ g0 g1 g'); [apply keepsFlag_trans| |].
        + eapply (updCell_frames keepsFlag); [done| |exact Hset].
          intros c1 Hc1. assert (c1 = c0) as -> by congruence.
          unfold keepsFlag. simpl. by rewrite Hst0, Es.
        + apply (cellwise_trans _ g1 g2 g'); [apply keepsFlag_trans| |].
          * eapply cellwise_weaken; [apply opensOnly_keepsFlag|]. apply Hfr.
          * apply cellwise_same_field; [done|by eapply checkWin_field]. }
    split; [done|].
    rewrite (flagsCount_total g Hwf), (flagsCount_total g' Hwf').
    rewrite (flaggedCells_cellwise g g'); [done|done|done| | |done].
    + destruct Hfr as (Hss2 & _). destruct (sameSession_fields _ _ Hss2) as (E & _).
      destruct (checkWin_cases _ _ Hcw) as [->| ->]; simpl; congruence.
    + destruct Hfr as (Hss2 & _). destruct (sameSession_fields _ _ Hss2) as (_ & E & _).
      destruct (checkWin_cases _ _ Hcw) as [->| ->]; simpl; congruence.
Qed.

Lemma leftClick_keeps_flags_witness :
  ∃ g', leftClickCell [] 3 0 lineBoard = Ok g' ∧ allOpened g' ∧ flagsCount g' = Ok 0.
Proof.
  destruct (leftClick_keeps_flags [] 3 0 lineBoard lostBoard wellFormed_lineBoard eq_refl)
    as (_ & _ & Hlost).
  exists lostBoard. split; [reflexivity|]. apply Hlost. vm_compute. discriminate.
Defined.

(** ** The timer runs exactly while the game is in progress *)

Lemma generate_session rnd sx sy g gb :
  wellFormed g → generate rnd sx sy g = Ok gb → sameSession g gb.
Proof. intros Hwf Hgen. by destruct (generate_Ok _ _ _ _ _ Hwf Hgen) as ((Hss & _) & _). Qed.

Lemma timerRunning_firstClickStep rnd x y g g0 :
  wellFormed g → timerRunning g = inProgress g →
  gameOver g = false → win g = false →
  firstClickStep rnd x y g = Ok g0 → timerRunning g0 = true.
Proof.
  intros Hwf Htr Hgo Hw Hfc.
  destruct (firstClickStep_Ok _ _ _ _ _ Hwf Hfc) as (_ & _ & _ & _ & _ & _ & _ & _ & Hold & Hnew).
  destruct (firstClick g) eqn:Efc.
  - destruct (Hnew eq_refl) as (gb & Hgen & ->).
    destruct (sameSession_fields _ _ (generate_session _ _ _ _ _ Hwf Hgen))
      as (_ & _ & _ & _ & _ & _ & _ & _ & Etr & _).
    unfold startTimerIfNeeded. simpl. rewrite Etr.
    by destruct (timerRunning g).
  - rewrite (Hold eq_refl), Htr. unfold inProgress. by rewrite Efc, Hgo, Hw.
Qed.

(** X4.  In every session reachable through the public interface the
    timer runs exactly while the game is in progress: after the first
    accepted reveal and until the game is won or lost.  (So the guard
    [!gameOver && !win] of [update] never decides anything.) *)
Theorem timer_runs_iff_in_progress g :
  reachable g → timerRunning g = inProgress g.
Proof.
  induction 1 as [w h mines Hw Hh | g rnd x y g' Hr IH Hlc | g x y g' Hr IH Hrc
                 | g dt Hr IH Hdt | g Hr IH].
  - done.
  - destruct (reachable_invariant g Hr) as (Hwf & _).
    destruct (leftClick_cases _ _ _ _ _ Hlc) as
      (c & Hc & [[_ ->]|[(_ & _ & ->)|(Es & Hgo & Hw & g0 & Hfc & Hoc)]]); [done|done|].
    pose proof (timerRunning_firstClickStep _ _ _ _ _ Hwf IH Hgo Hw Hfc) as Htr0.
    destruct (firstClickStep_Ok _ _ _ _ _ Hwf Hfc) as (Hwf0 & _ & _ & Hgo0 & Hw0 & Hfc0 & _).
    destruct (openCell_effects _ _ _ _ Hwf0 Hoc) as
      (_ & _ & _ & Hfc' & _ & c0 & _ &
       [(_ & Hgo' & _ & Htr' & _)|(_ & Hgo' & _ & _ & [[Hw' Htr']|[Hw' Htr']])]);
      unfold inProgress; rewrite Hfc', Hfc0, Hgo', ?Hw', Htr'; simpl.
    + done.
    + by rewrite Htr0, Hgo0, Hw0, Hgo, Hw.
    + by rewrite andb_false_r.
  - destruct (reachable_invariant g Hr) as (Hwf & _).
    destruct (rightClick_cases _ _ _ _ Hrc) as
      (c & Hc & [[_ ->]|[[_ Hset]|[(_ & _ & ->)|(_ & Hgo & Hw & g1 & Hset & Hcw)]]]);
      [done| |done|].
    + destruct (setState_Ok _ _ _ _ _ Hset) as (Hss & _).
      destruct (sameSession_fields _ _ Hss) as
        (_ & _ & _ & E1 & E2 & E3 & _ & _ & E4 & _).
      unfold inProgress. by rewrite E1, E2, E3, E4.
    + destruct (setState_Ok _ _ _ _ _ Hset) as (Hss & _).
      destruct (sameSession_fields _ _ Hss) as
        (_ & _ & _ & E1 & E2 & E3 & _ & _ & E4 & _).
      destruct (checkWin_cases _ _ Hcw) as [->| ->]; unfold inProgress; simpl.
      * by rewrite E1, E2, E3, E4.
      * by rewrite !andb_false_r.
  - destruct (update_fields dt g) as (_ & _ & _ & E1 & E2 & E3 & E4 & _).
    unfold inProgress. by rewrite E1, E2, E3, E4.
  - done.
Qed.

Lemma timer_runs_iff_in_progress_witness :
  timerRunning lineBoard = inProgress lineBoard ∧
  timerRunning lostBoard = inProgress lostBoard.
Proof.
  split.
  - apply timer_runs_iff_in_progress. apply lineBoard_reachable.
  - apply timer_runs_iff_in_progress. apply lostBoard_reachable.
Defined.

Lemma update_explosion dt g : explosion (update dt g) = true → explosion g = true.
Proof.
  unfold update. destruct (explosion g) eqn:E; [done|].
  destruct (timerRunning g && negb (gameOver g) && negb (win g)); simpl; congruence.
Qed.

(** X5.  The explosion flash is on only in a lost game: in every reachable
    session [explosion] implies [gameOver]. *)
Theorem explosion_only_after_loss g :
  reachable g → explosion g = true → gameOver g = true.
Proof.
  induction 1 as [w h mines Hw Hh | g rnd x y g' Hr IH Hlc | g x y g' Hr IH Hrc
                 | g dt Hr IH Hdt | g Hr IH].
  - done.
  - destruct (reachable_invariant g Hr) as (Hwf & _).
    destruct (leftClick_cases _ _ _ _ _ Hlc) as
      (c & Hc & [[_ ->]|[(_ & _ & ->)|(Es & Hgo & Hw & g0 & Hfc & Hoc)]]); [done|done|].
    destruct (firstClickStep_Ok _ _ _ _ _ Hwf Hfc) as
      (Hwf0 & _ & _ & Hgo0 & _ & _ & He0 & _).
    destruct (openCell_effects _ _ _ _ Hwf0 Hoc) as
      (_ & _ & _ & _ & _ & c0 & _ & [(_ & Hgo' & _)|(_ & Hgo' & He' & _)]); [done|].
    rewrite Hgo', He', Hgo0, He0. exact IH.
  - destruct (rightClick_cases _ _ _ _ Hrc) as
      (c & Hc & [[_ ->]|[[_ Hset]|[(_ & _ & ->)|(_ & Hgo & Hw & g1 & Hset & Hcw)]]]);
      [done| |done|].
    + destruct (setState_Ok _ _ _ _ _ Hset) as (Hss & _).
      destruct (sameSession_fields _ _ Hss) as (_ & _ & _ & E1 & _ & _ & E2 & _).
      by rewrite E1, E2.
    + destruct (setState_Ok _ _ _ _ _ Hset) as (Hss & _).
      destruct (sameSession_fields _ _ Hss) as (_ & _ & _ & E1 & _ & _ & E2 & _).
      destruct (checkWin_cases _ _ Hcw) as [->| ->]; simpl; by rewrite E1, E2.
  - intros He%update_explosion.
    destruct (update_fields dt g) as (_ & _ & _ & E1 & _). rewrite E1. by apply IH.
  - done.
Qed.

Lemma explosion_only_after_loss_witness :
  explosion lostBoard = true ∧ gameOver lostBoard = true.
Proof.
  split; [reflexivity|].
  apply explosion_only_after_loss; [apply lostBoard_reachable|reflexivity].
Defined.

(** ** The generated board stays as generated *)

Lemma neighbours_same g g' x y :
  W g' = W g → H g' = H g → neighbours g' x y = neighbours g x y.
Proof. intros HW HH. unfold neighbours, inBoard. by rewrite HW, HH. Qed.

Lemma keepsContent_isMine c c' :
  keepsContent c c' → isMine (content c') = isMine (content c).
Proof. unfold keepsContent. by intros ->. Qed.

Lemma mineNeighbours_cellwise g g' x y :
  wellFormed g → wellFormed g' → W g' = W g → H g' = H g →
  cellwise keepsContent g g' → mineNeighbours g' x y = mineNeighbours g x y.
Proof.
  intros Hwf Hwf' HW HH Hcw. unfold mineNeighbours.
  rewrite (neighbours_same g g' x y HW HH). do 2 f_equal.
  apply filter_length_ext. intros p _.
  by apply (cellHas_cellwise keepsContent); [apply keepsContent_isMine|..].
Qed.

Lemma mineCells_cellwise g g' :
  wellFormed g → wellFormed g' → W g' = W g → H g' = H g →
  cellwise keepsContent g g' → mineCells g' = mineCells g.
Proof.
  intros Hwf Hwf' HW HH Hcw. unfold mineCells, cells. rewrite HW, HH.
  apply filter_length_ext. intros p _.
  by apply (cellHas_cellwise keepsContent); [apply keepsContent_isMine|..].
Qed.

Lemma generated_cellwise g g' :
  wellFormed g → wellFormed g' → W g' = W g → H g' = H g → MINES g' = MINES g →
  cellwise keepsContent g g' → generated g → generated g'.
Proof.
  intros Hwf Hwf' HW HH HM Hcw [Hnum Hcnt]. split.
  - intros x y c' Hc' Hm.
    destruct (cellwise_back _ g g' x y c' Hwf Hwf' HW HH Hcw Hc') as (c & Hc & Hk).
    unfold keepsContent in Hk.
    rewrite (mineNeighbours_cellwise g g' x y Hwf Hwf' HW HH Hcw), Hk.
    apply (Hnum x y c Hc). by rewrite <- Hk.
  - rewrite HM, (mineCells_cellwise g g' Hwf Hwf' HW HH Hcw). exact Hcnt.
Qed.

Lemma generated_same_field g g' :
  wellFormed g → W g' = W g → H g' = H g → MINES g' = MINES g → field g' = field g →
  generated g → generated g'.
Proof.
  intros Hwf HW HH HM Hf. apply generated_cellwise; [done| |done|done|done|].
  - by apply (wellFormed_same g).
  - by apply cellwise_same_field.
Qed.

Lemma reachable_generated g :
  reachable g → firstClick g = false → generated g.
Proof.
  induction 1 as [w h mines Hw Hh | g rnd x y g' Hr IH Hlc | g x y g' Hr IH Hrc
                 | g dt Hr IH Hdt | g Hr IH].
  - done.
  - destruct (reachable_invariant g Hr) as (Hwf & _).
    destruct (leftClick_cases _ _ _ _ _ Hlc) as
      (c & Hc & [[_ ->]|[(_ & _ & ->)|(Es & Hgo & Hw & g0 & Hfc & Hoc)]]); [done|done|].
    intros _.
    destruct (firstClickStep_Ok _ _ _ _ _ Hwf Hfc) as
      (Hwf0 & _ & _ & _ & _ & _ & _ & _ & Hold & Hnew).
    assert (generated g0) as Hg0.
    { destruct (firstClick g) eqn:Efc.
      - destruct (Hnew eq_refl) as (gb & Hgen & ->).
        destruct (generate_Ok _ _ _ _ _ Hwf Hgen) as (Hfr & _ & Hcnt & Hnum).
        assert (generated gb) as Hgb.
        { split; [exact Hnum|]. rewrite (frames_MINES _ _ _ Hfr). exact Hcnt. }
        destruct (startTimerIfNeeded_fields (set_firstClick false gb))
          as (E1 & E2 & E3 & _ & _ & _ & _ & _ & E4).
        apply (generated_same_field gb); [by eapply frames_wellFormed|done..].
      - rewrite (Hold eq_refl). by apply IH. }
    destruct (openCell_effects _ _ _ _ Hwf0 Hoc) as
      (Hwf' & (HW & HH & HM & _) & Hkc & _).
    by apply (generated_cellwise g0).
  - destruct (reachable_invariant g Hr) as (Hwf & _).
    destruct (rightClick_cases _ _ _ _ Hrc) as
      (c & Hc & [[_ ->]|[[_ Hset]|[(_ & _ & ->)|(_ & Hgo & Hw & g1 & Hset & Hcw)]]]);
      [done| |done|].
    + destruct (setState_Ok _ _ _ _ _ Hset) as (Hss & Hwf1 & _).
      destruct (sameSession_fields _ _ Hss) as (HW & HH & HM & _ & _ & E & _).
      rewrite E. intros Hfc.
      apply (generated_cellwise g); [done|by apply Hwf1|done..| |by apply IH].
      eapply (updCell_frames keepsContent); [done| |exact Hset]. done.
    + destruct (setState_Ok _ _ _ _ _ Hset) as (Hss & Hwf1 & _).
      destruct (sameSession_fields _ _ Hss) as (HW & HH & HM & _ & _ & E & _).
      assert (firstClick g' = firstClick g) as ->
        by (destruct (checkWin_cases _ _ Hcw) as [->| ->]; done).
      intros Hfc.
      apply (generated_same_field g1); [by apply Hwf1| | | |by eapply checkWin_field|].
      1-3: destruct (checkWin_cases _ _ Hcw) as [->| ->]; done.
      apply (generated_cellwise g); [done|by apply Hwf1|done..| |by apply IH].
      eapply (updCell_frames keepsContent); [done| |exact Hset]. done.
  - destruct (reachable_invariant g Hr) as (Hwf & _).
    destruct (update_fields dt g) as (E1 & E2 & E3 & _ & _ & E4 & _ & E5).
    rewrite E4. intros Hfc. apply (generated_same_field g); [done..|by apply IH].
  - done.
Qed.

Lemma mineNeighbours_range g x y : 0 ≤ mineNeighbours g x y ≤ 8.
Proof.
  unfold mineNeighbours, neighbours. split; [lia|].
  etrans; [apply inj_le, List.filter_length_le|].
  etrans; [apply inj_le, List.filter_length_le|].
  by rewrite length_map.
Qed.

Lemma isEmpty_makeNumberContent n : isEmpty (makeNumberContent n) = true ↔ n ≤ 0.
Proof.
  unfold makeNumberContent, CellContentFactory.makeNumber.
  destruct (Z.leb_spec n 0) as [Hle|Hgt]; simpl; [done|].
  destruct (Z.eqb_spec n 0); [lia|]. split; [done|lia].
Qed.

(** X6.  Once the board is generated it stays as generated for the rest
    of the session: every cell without a mine shows the number of mines
    among its up to eight neighbours (a number from 0 to 8), it is Empty
    exactly when that number is 0, and the board holds exactly [MINES]
    mines. *)
Theorem numbers_stay_correct g :
  reachable g → firstClick g = false →
  (∀ x y c, cellAt (field g) x y = Ok c → isMine (content c) = false →
     number (content c) = mineNeighbours g x y ∧
     0 ≤ mineNeighbours g x y ≤ 8 ∧
     (isEmpty (content c) = true ↔ mineNeighbours g x y = 0)) ∧
  (0 ≤ MINES g → Z.of_nat (length (mineCells g)) = MINES g).
Proof.
  intros Hr Hfc. destruct (reachable_generated g Hr Hfc) as [Hnum Hcnt].
  split; [|exact Hcnt]. intros x y c Hc Hm.
  pose proof (mineNeighbours_range g x y) as Hrange.
  rewrite (Hnum x y c Hc Hm).
  split; [apply number_makeNumberContent; lia|]. split; [done|].
  rewrite isEmpty_makeNumberContent. lia.
Qed.

Lemma numbers_stay_correct_witness :
  (∀ x y c, cellAt (field gapBoard) x y = Ok c → isMine (content c) = false →
     number (content c) = mineNeighbours gapBoard x y) ∧
  Z.of_nat (length (mineCells gapBoard)) = MINES gapBoard.
Proof.
  destruct (numbers_stay_correct gapBoard gapBoard_reachable eq_refl) as [Hnum Hcnt].
  split.
  - intros x y c Hc Hm. by destruct (Hnum x y c Hc Hm).
  - apply Hcnt. vm_compute. discriminate.
Defined.

(** ** An opened mine means a lost game *)

Lemma rightClick_effects x y g g' :
  wellFormed g → rightClickCell x y g = Ok g' →
  wellFormed g' ∧ W g' = W g ∧ H g' = H g ∧ MINES g' = MINES g ∧
  gameOver g' = gameOver g ∧ firstClick g' = firstClick g ∧
  (win g = true → win g' = true) ∧
  cellwise flagsOnly g g'.
Proof.
  intros Hwf Hrc.
  assert (cellwise flagsOnly g g) as Hsame
    by (apply cellwise_same_field; [apply flagsOnly_refl|done]).
  destruct (rightClick_cases _ _ _ _ Hrc) as
    (c & Hc & [[_ ->]|[[_ Hset]|[(_ & _ & ->)|(_ & Hgo & Hw & g1 & Hset & Hcw)]]]);
    [done| |done|].
  - destruct (setState_flagsOnly makeClosedState _ _ _ _ eq_refl Hset) as (Hss & Hwf1 & Hcw).
    destruct (sameSession_fields _ _ Hss) as (HW & HH & HM & E1 & E2 & E3 & _).
    rewrite E2. auto 10.
  - destruct (setState_flagsOnly makeFlaggedState _ _ _ _ eq_refl Hset)
      as (Hss & Hwf1 & Hcw1).
    destruct (sameSession_fields _ _ Hss) as (HW & HH & HM & E1 & E2 & E3 & _).
    pose proof (checkWin_field _ _ Hcw) as Hf.
    assert (W g' = W g1 ∧ H g' = H g1 ∧ MINES g' = MINES g1 ∧ gameOver g' = gameOver g1 ∧
            firstClick g' = firstClick g1) as (F1 & F2 & F3 & F4 & F5)
      by (destruct (checkWin_cases _ _ Hcw) as [->| ->]; done).
    split; [apply (wellFormed_same g1); [done|done|done|by apply Hwf1]|].
    split; [congruence|]. split; [congruence|]. split; [congruence|].
    split; [congruence|]. split; [congruence|]. split; [congruence|].
    intros qx qy cq Hq. destruct (Hcw1 _ _ _ Hq) as (cq' & Hq' & HR).
    exists cq'. by rewrite Hf.
Qed.

Lemma openCell_noOpenMine x y g g' :
  wellFormed g → noOpenMine g → openCell x y g = Ok g' → gameOver g' = false →
  noOpenMine g'.
Proof.
  intros Hwf Hno Hoc Hgo'.
  destruct (openCell_Ok _ _ _ _ Hwf Hoc) as (g1 & c & Hc & Hset & Hcases).
  destruct (setState_Ok _ _ _ _ _ Hset) as (Hss1 & Hwf1 & c0 & Hc0 & Hc1 & Hoth).
  assert (c0 = c) as -> by congruence. specialize (Hwf1 Hwf).
  destruct Hcases as [[Hm Hexp]|(Hm & g2 & Hfr & Hcw)].
  - destruct (triggerExplosion_Ok _ _ Hwf1 Hexp) as (_ & Hg' & _).
    rewrite Hg' in Hgo'. done.
  - intros qx qy c' Hq Hopen. rewrite (checkWin_field _ _ Hcw) in Hq.
    destruct (frames_back _ _ _ _ _ _ Hfr Hwf1 Hq) as (c1 & Hq1 & [->|[Hfill ->]]).
    + destruct (decide ((qx, qy) = (x, y))) as [[= -> ->]|Hne].
      * rewrite Hc1 in Hq1. injection Hq1 as <-. done.
      * rewrite (Hoth _ _ Hne) in Hq1. by apply (Hno qx qy).
    + simpl. by apply fillable_inv in Hfill as (_ & _ & ?).
Qed.

Lemma reachable_noOpenMine g :
  reachable g → gameOver g = false → noOpenMine g.
Proof.
  induction 1 as [w h mines Hw Hh | g rnd x y g' Hr IH Hlc | g x y g' Hr IH Hrc
                 | g dt Hr IH Hdt | g Hr IH].
  - intros _ x y c Hc. apply cellAt_resetField in Hc as ->. done.
  - destruct (reachable_invariant g Hr) as (Hwf & _ & Hpr & _).
    destruct (leftClick_cases _ _ _ _ _ Hlc) as
      (c & Hc & [[_ ->]|[(_ & _ & ->)|(Es & Hgo & Hw & g0 & Hfc & Hoc)]]); [done|done|].
    destruct (firstClickStep_Ok _ _ _ _ _ Hwf Hfc) as
      (Hwf0 & (HW & HH & _) & Hks & _ & _ & _ & _ & _ & Hold & _).
    intros Hgo'. apply (openCell_noOpenMine x y g0); [done| |done|done].
    destruct (firstClick g) eqn:Efc.
    + intros qx qy c0 Hq Hopen.
      destruct (cellwise_back _ g g0 qx qy c0 Hwf Hwf0 HW HH Hks Hq) as (cq & Hcq & Hst).
      destruct (Hpr Efc) as (_ & _ & _ & _ & Hcells).
      destruct (Hcells _ _ _ Hcq) as [_ Hclosed]. unfold keepsState in Hst. congruence.
    + rewrite (Hold eq_refl). by apply IH.
  - destruct (reachable_invariant g Hr) as (Hwf & _).
    destruct (rightClick_effects _ _ _ _ Hwf Hrc) as (Hwf' & HW & HH & _ & Hgo & _ & _ & Hcw).
    rewrite Hgo. intros Hgo' qx qy c' Hq Hopen.
    destruct (cellwise_back _ g g' qx qy c' Hwf Hwf' HW HH Hcw Hq) as (cq & Hcq & Hk & Hst).
    rewrite Hk. apply (IH Hgo' qx qy cq Hcq).
    destruct (isOpen (state cq)); [done|]. rewrite Hst in Hopen; done.
  - destruct (update_fields dt g) as (_ & _ & _ & E1 & _ & _ & _ & E2).
    rewrite E1. intros Hgo qx qy c Hq. rewrite E2 in Hq. by apply (IH Hgo qx qy).
  - intros _ x y c Hc. apply cellAt_resetField in Hc as ->. done.
Qed.

Lemma reachable_lost_open_mine g :
  reachable g → gameOver g = true →
  ∃ x y c, cellAt (field g) x y = Ok c ∧
           isOpen (state c) = true ∧ isMine (content c) = true.
Proof.
  induction 1 as [w h mines Hw Hh | g rnd x y g' Hr IH Hlc | g x y g' Hr IH Hrc
                 | g dt Hr IH Hdt | g Hr IH].
  - done.
  - destruct (reachable_invariant g Hr) as (Hwf & _).
    destruct (leftClick_cases _ _ _ _ _ Hlc) as
      (c & Hc & [[_ ->]|[(_ & _ & ->)|(Es & Hgo & Hw & g0 & Hfc & Hoc)]]); [done|done|].
    destruct (firstClickStep_Ok _ _ _ _ _ Hwf Hfc) as (Hwf0 & _ & _ & Hgo0 & _).
    intros Hgo'.
    destruct (openCell_effects _ _ _ _ Hwf0 Hoc) as
      (Hwf' & _ & Hkc & _ & _ & c0 & Hc0 & [(Hm & _ & _ & _ & _ & _ & Hall)|(_ & E & _)]);
      [|congruence].
    destruct (Hkc _ _ _ Hc0) as (c' & Hc' & Hk). unfold keepsContent in Hk.
    exists x, y, c'. split; [done|]. rewrite (Hall _ _ _ Hc'), Hk. done.
  - destruct (reachable_invariant g Hr) as (Hwf & _ & _ & Hopened).
    destruct (rightClick_effects _ _ _ _ Hwf Hrc) as (_ & _ & _ & _ & Hgo & _).
    rewrite Hgo. intros Hgo'.
    destruct (rightClick_cases _ _ _ _ Hrc) as
      (c & Hc & [[_ ->]|[[Es _]|[(Es & _)|(Es & _)]]]);
      [by apply IH|pose proof (Hopened Hgo' _ _ _ Hc); congruence..].
  - destruct (update_fields dt g) as (_ & _ & _ & E1 & _ & _ & _ & E2).
    rewrite E1, E2. exact IH.
  - done.
Qed.

(** X7.  In every reachable session some mine is Opened exactly when the
    game is lost: while [gameOver] is false no Opened cell carries a
    mine, and a lost game shows an Opened mine. *)
Theorem open_mine_iff_lost g :
  reachable g →
  (gameOver g = true ↔
   ∃ x y c, cellAt (field g) x y = Ok c ∧
            isOpen (state c) = true ∧ isMine (content c) = true).
Proof.
  intros Hr. split; [by apply reachable_lost_open_mine|].
  intros (x & y & c & Hc & Hopen & Hm).
  destruct (gameOver g) eqn:Hgo; [done|].
  rewrite (reachable_noOpenMine g Hr Hgo x y c Hc Hopen) in Hm. done.
Qed.

Lemma open_mine_iff_lost_witness :
  ∃ x y c, cellAt (field lostBoard) x y = Ok c ∧
           isOpen (state c) = true ∧ isMine (content c) = true.
Proof.
  apply (open_mine_iff_lost lostBoard lostBoard_reachable). reflexivity.
Defined.


(** ** Only a restart undoes progress *)

Lemma staysOpen_refl c : staysOpen c c.
Proof. by unfold staysOpen. Qed.

Lemma staysOpen_trans a b c : staysOpen a b → staysOpen b c → staysOpen a c.
Proof. unfold staysOpen. auto. Qed.

Lemma openCell_staysOpen x y g g' :
  wellFormed g → openCell x y g = Ok g' → cellwise staysOpen g g'.
Proof.
  intros Hwf Hoc.
  destruct (openCell_Ok _ _ _ _ Hwf Hoc) as (g1 & c & Hc & Hset & Hcases).
  destruct (setState_Ok _ _ _ _ _ Hset) as (_ & Hwf1 & _). specialize (Hwf1 Hwf).
  apply (cellwise_trans _ g g1 g'); [apply staysOpen_trans| |].
  - eapply (updCell_frames staysOpen); [apply staysOpen_refl| |exact Hset]. done.
  - destruct Hcases as [[Hm Hexp]|(Hm & g2 & Hfr & Hcw)].
    + destruct (triggerExplosion_Ok _ _ Hwf1 Hexp) as (_ & _ & Hall).
      eapply cellwise_weaken; [|exact Hall]. intros a b [_ Hs] _. by rewrite Hs.
    + apply (cellwise_trans _ g1 g2 g'); [apply staysOpen_trans| |].
      * eapply cellwise_weaken; [|apply Hfr]. intros a b Ho Ha. by apply (opensOnly_open a b).
      * apply cellwise_same_field; [apply staysOpen_refl|by eapply checkWin_field].
Qed.

Lemma step_keeps_progress i g g' :
  wellFormed g → i ≠ Restart → step i g = Ok g' →
  wellFormed g' ∧ W g' = W g ∧ H g' = H g ∧
  cellwise staysOpen g g' ∧
  (gameOver g = true → gameOver g' = true) ∧ (win g = true → win g' = true).
Proof.
  intros Hwf Hi Hstep.
  assert (cellwise staysOpen g g) as Hsame
    by (apply cellwise_same_field; [apply staysOpen_refl|done]).
  destruct i as [rnd x y|x y|dt|]; simpl in Hstep; [| | |done].
  - destruct (leftClick_cases _ _ _ _ _ Hstep) as
      (c & Hc & [[_ ->]|[(_ & _ & ->)|(Es & Hgo & Hw & g0 & Hfc & Hoc)]]); [done|done|].
    destruct (firstClickStep_Ok _ _ _ _ _ Hwf Hfc) as (Hwf0 & (HW0 & HH0 & _) & Hks & _).
    destruct (openCell_effects _ _ _ _ Hwf0 Hoc) as (Hwf' & (HW & HH & _) & _).
    split; [done|]. split; [congruence|]. split; [congruence|].
    split; [|split; congruence].
    apply (cellwise_trans _ g g0 g'); [apply staysOpen_trans| |by apply (openCell_staysOpen x y)].
    eapply cellwise_weaken; [|exact Hks]. intros a b E. unfold staysOpen. by rewrite E.
  - destruct (rightClick_effects _ _ _ _ Hwf Hstep) as
      (Hwf' & HW & HH & _ & Hgo & _ & Hw & _).
    split; [done|]. split; [done|]. split; [done|].
    split; [|split; [congruence|done]].
    destruct (rightClick_cases _ _ _ _ Hstep) as
      (c & Hc & [[_ ->]|[[Es Hset]|[(_ & _ & ->)|(Es & _ & _ & g1 & Hset & Hcw)]]]);
      [done| |done|].
    + eapply (updCell_frames staysOpen); [apply staysOpen_refl| |exact Hset].
      intros c0 Hc0. assert (c0 = c) as -> by congruence.
      unfold staysOpen. by rewrite Es.
    + apply (cellwise_trans _ g g1 g'); [apply staysOpen_trans| |].
      * eapply (updCell_frames staysOpen); [apply staysOpen_refl| |exact Hset].
        intros c0 Hc0. assert (c0 = c) as -> by congruence.
        unfold staysOpen. by rewrite Es.
      * apply cellwise_same_field; [apply staysOpen_refl|by eapply checkWin_field].
  - destruct (fle f0 dt); [|done]. injection Hstep as <-.
    destruct (update_fields dt g) as (E1 & E2 & _ & E3 & E4 & _ & _ & E5).
    split; [by apply (wellFormed_same g)|]. split; [done|]. split; [done|].
    split; [apply cellwise_same_field; [apply staysOpen_refl|done]|]. split; congruence.
Qed.

(** X8.  Nothing but a restart undoes progress: along any sequence of
    clicks and frame updates without a restart, an Opened cell stays
    Opened, a lost game stays lost and a won game stays won. *)
Theorem progress_is_kept inputs g gl :
  wellFormed g → Restart ∉ inputs → play inputs g = Ok gl →
  cellwise staysOpen g gl ∧
  (gameOver g = true → gameOver gl = true) ∧
  (win g = true → win gl = true).
Proof.
  intros Hwf Hno Hplay.
  refine (proj2 (forEach_partial
    (λ _ s, wellFormed s ∧ cellwise staysOpen g s ∧
            (gameOver g = true → gameOver s = true) ∧ (win g = true → win s = true))
    inputs step g gl Hplay _ _)).
  - split; [done|]. split; [apply cellwise_same_field; [apply staysOpen_refl|done]|done].
  - intros done i s s1 Hin (Hwfs & Hcw & Hgo & Hw) Hstep.
    destruct (step_keeps_progress i s s1 Hwfs) as (Hwf1 & _ & _ & Hcw1 & Hgo1 & Hw1);
      [intros ->; done|done|].
    split; [done|]. split; [|split; auto].
    by apply (cellwise_trans _ g s s1); [apply staysOpen_trans|..].
Qed.

Lemma progress_is_kept_witness :
  ∃ gl, play [Flag 5 0; Tick f0_2; Reveal [] 4 0] lineBoard = Ok gl ∧
        cellwise staysOpen lineBoard gl.
Proof.
  eexists. split; [reflexivity|].
  eapply (progress_is_kept [Flag 5 0; Tick f0_2; Reveal [] 4 0] lineBoard);
    [exact wellFormed_lineBoard| |reflexivity].
  intros Hin. repeat (apply elem_of_cons in Hin as [Hin|Hin]; [discriminate|]).
  by apply elem_of_nil in Hin.
Defined.

(** ** The first accepted reveal generates the board *)

Lemma reachable_dims g : reachable g → 0 ≤ W g ∧ 0 ≤ H g.
Proof.
  induction 1 as [w h mines Hw Hh | g rnd x y g' Hr IH Hlc | g x y g' Hr IH Hrc
                 | g dt Hr IH Hdt | g Hr IH].
  - done.
  - destruct (reachable_invariant g Hr) as (Hwf & _).
    destruct (leftClick_cases _ _ _ _ _ Hlc) as
      (c & Hc & [[_ ->]|[(_ & _ & ->)|(_ & _ & _ & g0 & Hfc & Hoc)]]); [done|done|].
    destruct (firstClickStep_Ok _ _ _ _ _ Hwf Hfc) as (Hwf0 & (HW0 & HH0 & _) & _).
    destruct (openCell_effects _ _ _ _ Hwf0 Hoc) as (_ & (HW & HH & _) & _). lia.
  - destruct (reachable_invariant g Hr) as (Hwf & _).
    destruct (rightClick_effects _ _ _ _ Hwf Hrc) as (_ & HW & HH & _). lia.
  - destruct (update_fields dt g) as (E1 & E2 & _). lia.
  - done.
Qed.

Lemma openCell_opens x y g g' :
  wellFormed g → openCell x y g = Ok g' →
  ∃ c c', cellAt (field g) x y = Ok c ∧ cellAt (field g') x y = Ok c' ∧
          state c' = OpenedState ∧ content c' = content c.
Proof.
  intros Hwf Hoc.
  destruct (openCell_Ok _ _ _ _ Hwf Hoc) as (g1 & c & Hc & Hset & Hcases).
  destruct (setState_Ok _ _ _ _ _ Hset) as (_ & Hwf1 & c0 & Hc0 & Hc1 & _).
  assert (c0 = c) as -> by congruence. specialize (Hwf1 Hwf).
  exists c. destruct Hcases as [[Hm Hexp]|(Hm & g2 & Hfr & Hcw)].
  - destruct (triggerExplosion_Ok _ _ Hwf1 Hexp) as (_ & _ & Hall).
    destruct (Hall _ _ _ Hc1) as (c' & Hc' & Hk & Hs). exists c'. simpl in Hk. done.
  - destruct Hfr as (_ & _ & Hcw12). destruct (Hcw12 _ _ _ Hc1) as (c2 & Hc2 & Hoo).
    exists c2. rewrite (checkWin_field _ _ Hcw). split; [done|]. split; [done|].
    destruct Hoo as [->|[Hf _]]; [done|]. by rewrite fillable_opened in Hf.
Qed.

Lemma play_dims inputs g gl :
  wellFormed g → Restart ∉ inputs → play inputs g = Ok gl →
  wellFormed gl ∧ W gl = W g ∧ H gl = H g.
Proof.
  intros Hwf Hno Hplay.
  refine (forEach_partial (λ _ s, wellFormed s ∧ W s = W g ∧ H s = H g)
            inputs step g gl Hplay _ _); [done|].
  intros done i s s1 Hin (Hwfs & HW & HH) Hstep.
  destruct (step_keeps_progress i s s1 Hwfs) as (Hwf1 & HW1 & HH1 & _);
    [intros ->; done|done|].
  split; [done|]. split; congruence.
Qed.

Lemma first_reveal_generates rnd x y g c gb :
  reachable g → firstClick g = true →
  cellAt (field g) x y = Ok c → state c = ClosedState →
  generate rnd x y g = Ok gb →
  ∃ g', leftClickCell rnd x y g = Ok g' ∧
    wellFormed g' ∧ W g' = W g ∧ H g' = H g ∧ MINES g' = MINES g ∧
    gameOver g' = false ∧ firstClick g' = false ∧
    cellwise keepsContent gb g' ∧ generated g' ∧ safeZoneClear x y g' ∧
    mineCells g' = mineCells gb ∧
    ∃ c', cellAt (field g') x y = Ok c' ∧ state c' = OpenedState ∧
          isMine (content c') = false.
Proof.
  intros Hr Hfc Hc Hs Hgen.
  destruct (reachable_invariant g Hr) as (Hwf & _).
  destruct (leftClick_total rnd x y g c Hwf Hc) as [g' Hrun]; [by eauto|].
  destruct (first_reveal_steps _ _ _ _ _ _ Hr Hfc Hc Hs Hrun)
    as (gb' & g0 & cb & Hgen' & Hwfb & Hf & Hsafe & Heq & Hwf0 & Hfield & Htr0 & Hte0
        & Hgo0 & Hw0 & Hfc0 & Hopen & Hcb & Hmb).
  assert (gb' = gb) as -> by congruence.
  destruct (generate_Ok _ _ _ _ _ Hwf Hgen) as (_ & _ & Hcnt & Hnum).
  destruct (frames_sameBoard _ _ _ Hf) as (HWb & HHb & HMb & _).
  assert (W g0 = W gb ∧ H g0 = H gb ∧ MINES g0 = MINES gb) as (HW0 & HH0 & HM0).
  { rewrite Heq. by destruct (startTimerIfNeeded_fields (set_firstClick false gb))
      as (? & ? & ? & _). }
  destruct (openCell_effects _ _ _ _ Hwf0 Hopen)
    as (Hwf' & (HW' & HH' & HM' & _) & Hcw & Hfc' & _ & c1 & Hc1 & Hcase).
  assert (c1 = cb) as -> by congruence.
  destruct Hcase as [[Hm _]|(_ & Hgo' & _)]; [congruence|].
  assert (cellwise keepsContent gb g') as Hkc.
  { intros qx qy cq Hcq. apply Hcw. by rewrite Hfield. }
  assert (generated gb) as Hgb by (split; [exact Hnum|by rewrite HMb]).
  exists g'. split; [done|]. split; [done|].
  split; [congruence|]. split; [congruence|]. split; [congruence|].
  split; [congruence|]. split; [congruence|]. split; [done|].
  split; [apply (generated_cellwise gb); [done|done|congruence..|done|done]|].
  split.
  { intros qx qy cq' Hcq' Hzone.
    destruct (cellwise_back keepsContent gb g' qx qy cq' Hwfb Hwf'
                ltac:(congruence) ltac:(congruence) Hkc Hcq') as (cq & Hcq & Hk).
    unfold keepsContent in Hk. rewrite Hk. by apply (Hsafe qx qy cq). }
  split; [apply mineCells_cellwise; [done|done|congruence|congruence|done]|].
  destruct (openCell_opens _ _ _ _ Hwf0 Hopen) as (c0 & c' & Hc0 & Hc' & Hs' & Hk').
  assert (c0 = cb) as -> by congruence.
  exists c'. split; [done|]. split; [done|]. by rewrite Hk'.
Qed.

(** C9.  In a session that is fresh or was reset and has seen no accepted
    reveal yet, the board holds no mine.  For a left click on a Closed
    cell there are draws on which the generator finishes when
    [MINES <= W * H - 9], and with any draws on which it finishes the
    click returns: it generates the board with the clicked cell as the
    safe centre, clears the first-click flag and starts the timer from
    zero before the cell is opened.  Afterwards the board holds exactly
    [MINES] mines, none of them in the 3x3 neighbourhood of the clicked
    cell, every cell without a mine carries the number of mines around
    it, the elapsed time is zero and the timer runs unless this very
    reveal already won the game.  No later input other than a restart
    re-arms the first-click flag, changes the content of any cell or
    moves a mine: the board is generated once per session. *)
Theorem first_reveal_generates_once x y g c :
  reachable g → firstClick g = true →
  cellAt (field g) x y = Ok c → state c = ClosedState →
  mineCells g = [] ∧
  (MINES g ≤ W g * H g - 9 → ∃ rnd gb, generate rnd x y g = Ok gb) ∧
  ∀ rnd gb, generate rnd x y g = Ok gb →
    ∃ g0 g',
      leftClickCell rnd x y g = Ok g' ∧
      safeZoneClear x y gb ∧
      g0 = startTimerIfNeeded (set_firstClick false gb) ∧
      timerRunning g0 = true ∧ timeElapsed g0 = f0 ∧
      openCell x y g0 = Ok g' ∧ cellwise keepsContent gb g' ∧
      firstClick g' = false ∧ timeElapsed g' = f0 ∧ timerRunning g' = negb (win g') ∧
      (0 ≤ MINES g → Z.of_nat (length (mineCells g')) = MINES g) ∧
      (∀ qx qy cq, cellAt (field g') qx qy = Ok cq → isMine (content cq) = false →
         number (content cq) = mineNeighbours g' qx qy) ∧
      safeZoneClear x y g' ∧
      (∀ inputs gl, Restart ∉ inputs → play inputs g' = Ok gl →
         firstClick gl = false ∧ cellwise keepsContent g' gl ∧
         mineCells gl = mineCells g').
Proof.
  intros Hr Hfc Hc Hs.
  pose proof Hr as (Hwf & _ & Hpr & _)%reachable_invariant.
  destruct (reachable_dims g Hr) as [HW HH].
  split.
  { apply mineCells_empty. intros qx qy cq Hcq.
    destruct (Hpr Hfc) as (_ & _ & _ & _ & Hcells). by destruct (Hcells _ _ _ Hcq). }
  split; [intros Hm; by apply generate_can_finish|].
  intros rnd gb Hgen.
  destruct (first_reveal_generates rnd x y g c gb Hr Hfc Hc Hs Hgen) as
    (g' & Hrun & Hwf' & HW' & HH' & HM' & _ & _ & Hkc & [Hnum Hcnt] & Hsafe' & _ & _).
  destruct (first_reveal_steps _ _ _ _ _ _ Hr Hfc Hc Hs Hrun)
    as (gb' & g0 & cb & Hgen' & Hwfb & Hf & Hsafe & Heq & Hwf0 & Hfield & Htr0 & Hte0
        & Hgo0 & Hw0 & Hfc0 & Hopen & Hcb & Hmb).
  assert (gb' = gb) as -> by congruence.
  destruct (openCell_effects _ _ _ _ Hwf0 Hopen)
    as (_ & _ & _ & Hfc' & Hte' & c1 & Hc1 & Hcase).
  assert (c1 = cb) as -> by congruence.
  destruct Hcase as [[Hm _]|(_ & _ & _ & _ & Htimer)]; [congruence|].
  exists g0, g'. split_and!; try done.
  - congruence.
  - congruence.
  - destruct Htimer as [[-> ->]|[-> ->]]; [by rewrite Hw0, Htr0|done].
  - intros Hm. rewrite <- HM'. apply Hcnt. by rewrite HM'.
  - intros qx qy cq Hcq Hmq. pose proof (mineNeighbours_range g' qx qy) as Hrange.
    rewrite (Hnum qx qy cq Hcq Hmq). apply number_makeNumberContent. lia.
  - intros inputs gl Hno Hplay.
    destruct (play_keeps_board inputs g' gl) as (Hwfl & Hfcl & Hkl);
      [done|congruence|done|done|].
    destruct (play_dims inputs g' gl Hwf' Hno Hplay) as (_ & HWl & HHl).
    split; [done|]. split; [done|]. by apply mineCells_cellwise.
Qed.

Lemma first_reveal_generates_once_witness :
  reachable (newGame 6 1 1) ∧ firstClick (newGame 6 1 1) = true ∧
  mineCells (newGame 6 1 1) = [] ∧
  generate [3; 0] 0 0 (newGame 6 1 1) = Ok lineGenerated ∧
  leftClickCell [3; 0] 0 0 (newGame 6 1 1) = Ok lineBoard ∧
  firstClick lineBoard = false ∧ timeElapsed lineBoard = f0 ∧
  timerRunning lineBoard = negb (win lineBoard) ∧
  Z.of_nat (length (mineCells lineBoard)) = 1.
Proof.
  assert (reachable (newGame 6 1 1)) as Hr by (apply reach_new; lia).
  assert (leftClickCell [3; 0] 0 0 (newGame 6 1 1) = Ok lineBoard) as Hl
    by (vm_compute; reflexivity).
  destruct (first_reveal_generates_once 0 0 (newGame 6 1 1) makeInitialCell)
    as (Hnone & _ & Hall); [exact Hr|reflexivity..|].
  destruct (Hall [3; 0] lineGenerated) as
    (g0 & g' & Hrun & _ & _ & _ & _ & _ & _ & Hfc & Hte & Htr & Hcnt & _);
    [vm_compute; reflexivity|].
  assert (g' = lineBoard) as -> by congruence.
  split; [exact Hr|]. split; [reflexivity|]. split; [exact Hnone|].
  split; [vm_compute; reflexivity|]. split; [exact Hl|].
  split; [exact Hfc|]. split; [exact Hte|]. split; [exact Htr|].
  apply Hcnt. vm_compute. discriminate.
Defined.

(** ** Vector accesses stay in range *)

Lemma placeMines_in_range rnd sx sy placed g :
  wellFormed g → 0 < W g → 0 < H g → Forall (λ r, 0 ≤ r) rnd →
  placeMines rnd sx sy placed g ≠ Undefined.
Proof.
  revert placed g. induction rnd as [|r|rx ry rnd IH] using pairs_ind;
    intros placed g Hwf HW HH Hrnd; simpl.
  1,2: by destruct (placed <? MINES g).
  destruct (placed <? MINES g); [|done].
  inversion Hrnd as [|? ? Hrx Hrnd1]; subst. inversion Hrnd1 as [|? ? Hry Hrnd2]; subst.
  unfold c_mod. destruct (Z.eqb_spec (W g) 0); [lia|]. destruct (Z.eqb_spec (H g) 0); [lia|].
  cbn [mbind result_bind].
  destruct (inBoard_cellAt g (Z.rem rx (W g)) (Z.rem ry (H g)) Hwf) as [c Hc].
  { apply inBoard_iff.
    pose proof (Z.rem_bound_pos rx (W g)) as Hbx.
    pose proof (Z.rem_bound_pos ry (H g)) as Hby. lia. }
  rewrite Hc. cbn [mbind result_bind].
  destruct (isMine (content c)); [by apply IH|].
  destruct (_ && _); [by apply IH|].
  destruct (updCell_defined (λ c, {| content := makeMineContent; state := state c |})
              _ _ g c Hc) as [g1 Hset].
  unfold setContent. rewrite Hset. cbn [mbind result_bind].
  destruct (updCell_Ok _ _ _ _ _ Hset) as (Hss & Hwf1 & _).
  destruct (sameSession_fields _ _ Hss) as (E1 & E2 & _).
  apply IH; [by apply Hwf1|lia|lia|done].
Qed.

Lemma generate_in_range rnd sx sy g :
  wellFormed g → 0 < W g → 0 < H g → Forall (λ r, 0 ≤ r) rnd →
  generate rnd sx sy g ≠ Undefined.
Proof.
  intros Hwf HW HH Hrnd. unfold generate.
  destruct (clearContent_total g Hwf) as (gc & -> & Hfr & _). cbn [mbind result_bind].
  assert (wellFormed gc) as Hwfc by (by eapply frames_wellFormed).
  destruct Hfr as (Hss & _). destruct (sameSession_fields _ _ Hss) as (E1 & E2 & _).
  pose proof (placeMines_in_range rnd sx sy 0 gc Hwfc ltac:(lia) ltac:(lia) Hrnd) as Hpm.
  destruct (placeMines rnd sx sy 0 gc) as [gp| |] eqn:Egp; [|done|done].
  cbn [mbind result_bind].
  destruct (placeMines_Ok _ _ _ _ _ _ Hwfc Egp) as (Hfp & _).
  destruct (computeNumbers_total gp) as (gn & -> & _); [by eapply frames_wellFormed|done].
Qed.

Lemma leftClick_in_range rnd x y g c :
  wellFormed g → cellAt (field g) x y = Ok c → Forall (λ r, 0 ≤ r) rnd →
  leftClickCell rnd x y g ≠ Undefined ∧
  (leftClickCell rnd x y g = Exhausted →
   firstClick g = true ∧ generate rnd x y g = Exhausted).
Proof.
  intros Hwf Hc Hrnd.
  pose proof (proj1 (inBoard_iff g x y) (cellAt_inBoard g x y c Hwf Hc)) as Hin.
  pose proof (generate_in_range rnd x y g Hwf ltac:(lia) ltac:(lia) Hrnd) as Hgen.
  destruct (firstClick g) eqn:Efc.
  - destruct (generate rnd x y g) as [gb| |] eqn:Egen; [|done|].
    + destruct (leftClick_total rnd x y g c Hwf Hc) as [gl Hl]; [eauto|].
      rewrite Hl. done.
    + split; [|done]. unfold leftClickCell. rewrite Hc. cbn [mbind result_bind].
      destruct (state c); simpl; [|done|done].
      unfold revealFromState. destruct (gameOver g || win g); [done|].
      rewrite Hc. cbn [mbind result_bind].
      destruct (isOpen (state c) || isFlagged (state c)); [done|].
      unfold firstClickStep. rewrite Efc, Egen. done.
  - destruct (leftClick_total rnd x y g c Hwf Hc) as [gl Hl]; [congruence|].
    rewrite Hl. done.
Qed.

(** X9.  The vector accesses of a click stay in range exactly when the
    click is on the board: with the non-negative draws [rand()] gives, a
    left click or right click on a well-formed board is undefined if and
    only if its coordinates are off the board.  A left click that does
    not return has run out of draws while generating the board. *)
Theorem click_defined_iff_on_board rnd x y g :
  wellFormed g → Forall (λ r, 0 ≤ r) rnd →
  (leftClickCell rnd x y g = Undefined ↔ inBoard g x y = false) ∧
  (rightClickCell x y g = Undefined ↔ inBoard g x y = false) ∧
  (leftClickCell rnd x y g = Exhausted →
     firstClick g = true ∧ generate rnd x y g = Exhausted) ∧
  rightClickCell x y g ≠ Exhausted.
Proof.
  intros Hwf Hrnd.
  destruct (cellAt_cases (field g) x y) as [[c Hc]|Hu].
  - pose proof (cellAt_inBoard g x y c Hwf Hc) as Hin.
    destruct (rightClick_total x y g c Hwf Hc) as [gr Hr]. rewrite Hr, Hin.
    destruct (leftClick_in_range rnd x y g c Hwf Hc Hrnd) as [Hl1 Hl2].
    split; [split; [done|done]|]. split; [split; done|]. split; done.
  - assert (inBoard g x y = false) as Hout.
    { destruct (inBoard g x y) eqn:E; [|done].
      destruct (inBoard_cellAt g x y Hwf E) as [c Hc]. congruence. }
    unfold leftClickCell, rightClickCell. rewrite Hu, Hout. simpl.
    split; [done|]. split; [done|]. split; done.
Qed.

Lemma click_defined_iff_on_board_witness :
  (leftClickCell [3; 0] 6 0 (newGame 6 1 1) = Undefined ↔
   inBoard (newGame 6 1 1) 6 0 = false) ∧
  (leftClickCell [3; 0] 5 0 (newGame 6 1 1) = Undefined ↔
   inBoard (newGame 6 1 1) 5 0 = false).
Proof.
  assert (Forall (λ r, 0 ≤ r) [3; 0]) as Hrnd by (repeat constructor; lia).
  split.
  - apply (click_defined_iff_on_board [3; 0] 6 0 (newGame 6 1 1));
      [apply wellFormed_resetField|exact Hrnd].
  - apply (click_defined_iff_on_board [3; 0] 5 0 (newGame 6 1 1));
      [apply wellFormed_resetField|exact Hrnd].
Defined.

(** ** Boards by difficulty *)

Lemma makeGameByDifficulty_cases choice :
  makeGameByDifficulty choice = newGame 10 10 10 ∨
  makeGameByDifficulty choice = newGame 14 14 20 ∨
  (choice = 3 ∧ makeGameByDifficulty choice = newGame 20 20 40).
Proof.
  destruct choice as [|p|p]; [by left| |by left].
  destruct p as [[p|p|]|[p|p|]|]; auto.
Qed.

Lemma makeGameByDifficulty_triple choice :
  makeGameByDifficulty choice =
  (let '(w, h, mines) :=
     if choice =? 2 then (14, 14, 20)
     else if choice =? 3 then (20, 20, 40) else (10, 10, 10) in
   newGame w h mines).
Proof.
  destruct choice as [|p|p]; [done| |done].
  destruct p as [[p|p|]|[p|p|]|]; try done; destruct p; done.
Qed.

Lemma fresh_game_starts w h mines x y :
  0 ≤ w → 0 ≤ h → 0 ≤ mines ≤ w * h - 9 →
  inBoard (newGame w h mines) x y = true →
  ∃ rnd gb g',
    generate rnd x y (newGame w h mines) = Ok gb ∧
    leftClickCell rnd x y (newGame w h mines) = Ok g' ∧
    gameOver g' = false ∧ firstClick g' = false ∧
    (∃ c', cellAt (field g') x y = Ok c' ∧ state c' = OpenedState ∧
           isMine (content c') = false) ∧
    Z.of_nat (length (mineCells g')) = mines ∧
    (∀ qx qy cq, cellAt (field g') qx qy = Ok cq → isMine (content cq) = false →
       number (content cq) = mineNeighbours g' qx qy) ∧
    safeZoneClear x y g'.
Proof.
  intros Hw Hh Hm Hin. set (g := newGame w h mines) in *.
  assert (reachable g) as Hr by (by constructor).
  destruct (reachable_invariant g Hr) as (Hwf & _).
  destruct (inBoard_cellAt g x y Hwf Hin) as [c Hc].
  assert (c = makeInitialCell) as -> by (by eapply cellAt_resetField).
  destruct (generate_can_finish x y g Hwf) as (rnd & gb & Hgen); [done|done|simpl; lia|].
  destruct (first_reveal_generates rnd x y g _ gb Hr eq_refl Hc eq_refl Hgen) as
    (g' & Hrun & Hwf' & _ & _ & HM' & Hgo & Hfc & _ & [Hnum Hcnt] & Hsafe & _ & Hopen).
  exists rnd, gb, g'. split_and!; try done.
  - rewrite Hcnt; [by rewrite HM'|]. rewrite HM'. simpl. lia.
  - intros qx qy cq Hcq Hmq. pose proof (mineNeighbours_range g' qx qy) as Hrange.
    rewrite (Hnum qx qy cq Hcq Hmq). apply number_makeNumberContent. lia.
Qed.

(** X10.  [makeGameByDifficulty] constructs a fresh game of 14x14 with 20
    mines for choice 2, 20x20 with 40 mines for choice 3 and 10x10 with
    10 mines for every other choice: not started, not ended, timer
    stopped at zero, every cell Closed and Empty.  On each of these
    boards the generator's rejection loop can finish: for every cell
    there are draws with which the first left click generates the board
    (exactly [MINES] mines, none around the clicked cell, every number
    right) and leaves the clicked cell Opened, without a mine and
    without losing. *)
Theorem difficulty_boards_can_start choice :
  ∃ w h mines,
    (w, h, mines) =
      (if choice =? 2 then (14, 14, 20)
       else if choice =? 3 then (20, 20, 40) else (10, 10, 10)) ∧
    (w, h, mines) ∈ [(10, 10, 10); (14, 14, 20); (20, 20, 40)] ∧
    (w = 20 → choice = 3) ∧
    makeGameByDifficulty choice = newGame w h mines ∧
    reachable (makeGameByDifficulty choice) ∧
    wellFormed (makeGameByDifficulty choice) ∧
    W (makeGameByDifficulty choice) = w ∧ H (makeGameByDifficulty choice) = h ∧
    MINES (makeGameByDifficulty choice) = mines ∧
    gameOver (makeGameByDifficulty choice) = false ∧
    win (makeGameByDifficulty choice) = false ∧
    firstClick (makeGameByDifficulty choice) = true ∧
    explosion (makeGameByDifficulty choice) = false ∧
    timerRunning (makeGameByDifficulty choice) = false ∧
    timeElapsed (makeGameByDifficulty choice) = f0 ∧
    ∀ x y, inBoard (makeGameByDifficulty choice) x y = true →
      cellAt (field (makeGameByDifficulty choice)) x y = Ok makeInitialCell ∧
      ∃ rnd gb g',
        generate rnd x y (makeGameByDifficulty choice) = Ok gb ∧
        leftClickCell rnd x y (makeGameByDifficulty choice) = Ok g' ∧
        gameOver g' = false ∧ firstClick g' = false ∧
        (∃ c', cellAt (field g') x y = Ok c' ∧ state c' = OpenedState ∧
               isMine (content c') = false) ∧
        Z.of_nat (length (mineCells g')) = mines ∧
        (∀ qx qy cq, cellAt (field g') qx qy = Ok cq → isMine (content cq) = false →
           number (content cq) = mineNeighbours g' qx qy) ∧
        safeZoneClear x y g'.
Proof.
  rewrite (makeGameByDifficulty_triple choice).
  assert (∀ w h mines, 0 ≤ w → 0 ≤ h → 0 ≤ mines ≤ w * h - 9 →
    reachable (newGame w h mines) ∧ wellFormed (newGame w h mines) ∧
    ∀ x y, inBoard (newGame w h mines) x y = true →
      cellAt (field (newGame w h mines)) x y = Ok makeInitialCell ∧
      ∃ rnd gb g',
        generate rnd x y (newGame w h mines) = Ok gb ∧
        leftClickCell rnd x y (newGame w h mines) = Ok g' ∧
        gameOver g' = false ∧ firstClick g' = false ∧
        (∃ c', cellAt (field g') x y = Ok c' ∧ state c' = OpenedState ∧
               isMine (content c') = false) ∧
        Z.of_nat (length (mineCells g')) = mines ∧
        (∀ qx qy cq, cellAt (field g') qx qy = Ok cq → isMine (content cq) = false →
           number (content cq) = mineNeighbours g' qx qy) ∧
        safeZoneClear x y g') as Hfresh.
  { intros w h mines Hw Hh Hm.
    split; [by constructor|]. split; [apply wellFormed_resetField|].
    intros x y Hin. split; [|by apply fresh_game_starts].
    destruct (inBoard_cellAt (newGame w h mines) x y (wellFormed_resetField _) Hin)
      as [c Hc].
    by rewrite Hc, (cellAt_resetField _ _ _ _ Hc). }
  destruct (Z.eqb_spec choice 2) as [->|H2]; [|destruct (Z.eqb_spec choice 3) as [->|H3]].
  - exists 14, 14, 20. destruct (Hfresh 14 14 20) as (Hr & Hwf & Hclick); [lia..|].
    split_and!; try done. right; by left.
  - exists 20, 20, 40. destruct (Hfresh 20 20 40) as (Hr & Hwf & Hclick); [lia..|].
    split_and!; try done. right; right; by left.
  - exists 10, 10, 10. destruct (Hfresh 10 10 10) as (Hr & Hwf & Hclick); [lia..|].
    split_and!; try done. by left.
Qed.

(** ** Layout *)

Lemma quot2_bounds d :
  (0 ≤ d → 0 ≤ d - 2 * Z.quot d 2 ≤ 1 ∧ 0 ≤ Z.quot d 2) ∧ (d ≤ 0 → Z.quot d 2 ≤ 0).
Proof. Z.to_euclidean_division_equations. lia. Qed.

Lemma c_div_cell a b q :
  0 < b → 0 ≤ a → c_div a b = Ok q ↔ (b * q ≤ a < b * (q + 1)).
Proof.
  intros Hb Ha. unfold c_div. destruct (Z.eqb_spec b 0); [lia|].
  split.
  - intros [= <-]. Z.to_euclidean_division_equations. nia.
  - intros Hq. f_equal. Z.to_euclidean_division_equations. nia.
Qed.

Lemma c_int_cases z :
  (int_range z ∧ c_int z = Ok z) ∨ (¬ int_range z ∧ c_int z = Undefined).
Proof.
  unfold c_int, int_range.
  destruct (Z.leb_spec (-2147483648) z), (Z.leb_spec z 2147483647); simpl;
    [left|right|right|right]; (split; [lia|done]).
Qed.

Lemma recompute_Ok g l l' :
  recompute g l = Ok l' ↔
  int_range (W g * CELL l) ∧ int_range (H g * CELL l) ∧
  int_range (WINDOW_W l - W g * CELL l) ∧
  l' = {| WINDOW_W := WINDOW_W l; WINDOW_H := WINDOW_H l; CELL := CELL l;
          OFFSET_Y := OFFSET_Y l;
          boardWidthPx := W g * CELL l; boardHeightPx := H g * CELL l;
          XOFFSET := Z.max 0 (Z.quot (WINDOW_W l - W g * CELL l) 2) |}.
Proof.
  unfold recompute.
  destruct (c_int_cases (W g * CELL l)) as [[Hw ->]|[Hw ->]];
    cbn [mbind result_bind]; [|split; [done|tauto]].
  destruct (c_int_cases (H g * CELL l)) as [[Hh ->]|[Hh ->]];
    cbn [mbind result_bind]; [|split; [done|tauto]].
  destruct (c_int_cases (WINDOW_W l - W g * CELL l)) as [[Hd ->]|[Hd ->]];
    cbn [mbind result_bind]; [|split; [done|tauto]].
  assert ((if Z.quot (WINDOW_W l - W g * CELL l) 2 <? 0 then 0
           else Z.quot (WINDOW_W l - W g * CELL l) 2) =
          Z.max 0 (Z.quot (WINDOW_W l - W g * CELL l) 2)) as ->.
  { destruct (Z.ltb_spec (Z.quot (WINDOW_W l - W g * CELL l) 2) 0); lia. }
  split; [intros [= <-]; done|]. intros (_ & _ & _ & ->). done.
Qed.

(** X11.  [Layout::recompute] returns unless one of its [int] operations
    overflows: the two products of a board dimension and the cell size,
    and the difference of the window width and the board width.  When it
    returns it centres the board horizontally: the board size in pixels
    is the board dimension times the cell size, the left margin is never
    negative, the two margins differ by at most one pixel when the board
    fits the window width, and the margin is zero when it does not.  The
    window size, the cell size and the top offset are kept, and
    recomputing once more returns the same layout. *)
Theorem recompute_centres g l :
  (recompute g l = Undefined ↔
   ¬ (int_range (W g * CELL l) ∧ int_range (H g * CELL l) ∧
      int_range (WINDOW_W l - W g * CELL l))) ∧
  ((∃ l', recompute g l = Ok l') ↔
   int_range (W g * CELL l) ∧ int_range (H g * CELL l) ∧
   int_range (WINDOW_W l - W g * CELL l)) ∧
  ∀ l', recompute g l = Ok l' →
    boardWidthPx l' = W g * CELL l ∧
    boardHeightPx l' = H g * CELL l ∧
    int_range (boardWidthPx l') ∧ int_range (boardHeightPx l') ∧
    0 ≤ XOFFSET l' ∧
    (W g * CELL l ≤ WINDOW_W l →
       0 ≤ (WINDOW_W l - (XOFFSET l' + W g * CELL l)) - XOFFSET l' ≤ 1) ∧
    (WINDOW_W l ≤ W g * CELL l → XOFFSET l' = 0) ∧
    (WINDOW_W l', WINDOW_H l', CELL l', OFFSET_Y l') =
      (WINDOW_W l, WINDOW_H l, CELL l, OFFSET_Y l) ∧
    recompute g l' = Ok l'.
Proof.
  split; [|split].
  - destruct (recompute g l) as [l'| |] eqn:E.
    + apply recompute_Ok in E as (? & ? & ? & _). split; [done|tauto].
    + split; [|done]. intros _ (Hw & Hh & Hd).
      assert (recompute g l = Ok
        {| WINDOW_W := WINDOW_W l; WINDOW_H := WINDOW_H l; CELL := CELL l;
           OFFSET_Y := OFFSET_Y l;
           boardWidthPx := W g * CELL l; boardHeightPx := H g * CELL l;
           XOFFSET := Z.max 0 (Z.quot (WINDOW_W l - W g * CELL l) 2) |}) as E'
        by (by apply recompute_Ok).
      congruence.
    + exfalso. unfold recompute in E.
      destruct (c_int_cases (W g * CELL l)) as [[_ Ew]|[_ Ew]]; rewrite Ew in E;
        cbn [mbind result_bind] in E; [|done].
      destruct (c_int_cases (H g * CELL l)) as [[_ Eh]|[_ Eh]]; rewrite Eh in E;
        cbn [mbind result_bind] in E; [|done].
      destruct (c_int_cases (WINDOW_W l - W g * CELL l)) as [[_ Ed]|[_ Ed]];
        rewrite Ed in E; cbn [mbind result_bind] in E; done.
  - split.
    + intros [l' E]. apply recompute_Ok in E. tauto.
    + intros (Hw & Hh & Hd). eexists. by apply recompute_Ok.
  - intros l' E. pose proof E as (Hw & Hh & Hd & ->)%recompute_Ok. simpl.
    destruct (quot2_bounds (WINDOW_W l - W g * CELL l)) as [Hpos Hneg].
    split; [done|]. split; [done|]. split; [done|]. split; [done|].
    split; [lia|]. split; [lia|]. split; [lia|]. split; [done|].
    apply recompute_Ok. simpl. done.
Qed.

Lemma recompute_centres_witness :
  recompute (mkGame 60000000 0 0 false false true false f0 false f0 []) defaultLayout
    = Undefined ∧
  ∃ l', recompute (newGame 20 20 40) defaultLayout = Ok l' ∧
        boardWidthPx l' = 800 ∧ XOFFSET l' = 0.
Proof.
  split.
  - apply recompute_centres. intros ([_ Hw] & _). vm_compute in Hw. by apply Hw.
  - exists (mkLayout 800 800 40 110 800 800 0).
    assert (recompute (newGame 20 20 40) defaultLayout = Ok (mkLayout 800 800 40 110 800 800 0))
      as E by (vm_compute; reflexivity).
    split; [exact E|].
    destruct (recompute_centres (newGame 20 20 40) defaultLayout) as (_ & _ & Hok).
    destruct (Hok _ E) as (Hbw & _ & _ & _ & _ & _ & Hx & _).
    split; [exact Hbw|]. apply Hx. vm_compute. discriminate.
Defined.

(** ** Mouse clicks *)

Lemma outside_not_inBoard g x y :
  (x <? 0) || (x >=? W g) || (y <? 0) || (y >=? H g) = negb (inBoard g x y).
Proof. unfold inBoard. lia. Qed.

Lemma handleEvent_forward rnd button mx my g layout ui x y :
  restartBtn ui mx my = false → menuBtn ui mx my = false →
  OFFSET_Y layout < my →
  XOFFSET layout ≤ mx < XOFFSET layout + boardWidthPx layout →
  c_div (mx - XOFFSET layout) (CELL layout) = Ok x →
  c_div (my - OFFSET_Y layout) (CELL layout) = Ok y →
  inBoard g x y = true →
  handleEvent rnd (Event.MouseButtonPressed button mx my) g layout ui =
  forwardClick rnd button x y g.
Proof.
  intros Hr Hm Hmy Hmx Hx Hy Hin. unfold handleEvent. rewrite Hr, Hm.
  destruct (Z.leb_spec my (OFFSET_Y layout)); [lia|].
  destruct (Z.ltb_spec mx (XOFFSET layout)); [lia|].
  destruct (Z.geb_spec mx (XOFFSET layout + boardWidthPx layout)); [lia|].
  simpl. rewrite Hx, Hy. cbn [mbind result_bind].
  rewrite outside_not_inBoard, Hin. simpl.
  unfold forwardClick. destruct button; cbn [mbind result_bind]; done.
Qed.

Lemma handleEvent_cases rnd e g layout ui :
  CELL layout ≠ 0 →
  (∃ a, handleEvent rnd e g layout ui = Ok (a, g)) ∨
  (∃ button mx my x y,
     e = Event.MouseButtonPressed button mx my ∧
     restartBtn ui mx my = false ∧ menuBtn ui mx my = false ∧
     OFFSET_Y layout < my ∧
     XOFFSET layout ≤ mx < XOFFSET layout + boardWidthPx layout ∧
     c_div (mx - XOFFSET layout) (CELL layout) = Ok x ∧
     c_div (my - OFFSET_Y layout) (CELL layout) = Ok y ∧
     inBoard g x y = true ∧
     handleEvent rnd e g layout ui = forwardClick rnd button x y g).
Proof.
  intros Hcell. destruct e as [|button mx my|]; [left; by eexists| |left; by eexists].
  destruct (restartBtn ui mx my) eqn:Hr; [left; simpl; rewrite Hr; by eexists|].
  destruct (menuBtn ui mx my) eqn:Hm; [left; simpl; rewrite Hr, Hm; by eexists|].
  destruct (Z.leb_spec my (OFFSET_Y layout)) as [Hle|Hgt].
  { left. simpl. rewrite Hr, Hm. destruct (Z.leb_spec my (OFFSET_Y layout)); [|lia].
    by eexists. }
  destruct (decide (XOFFSET layout ≤ mx < XOFFSET layout + boardWidthPx layout))
    as [Hmx|Hmx].
  2:{ left. simpl. rewrite Hr, Hm. destruct (Z.leb_spec my (OFFSET_Y layout)); [lia|].
      destruct (Z.ltb_spec mx (XOFFSET layout)); simpl; [by eexists|].
      destruct (Z.geb_spec mx (XOFFSET layout + boardWidthPx layout)); [by eexists|lia]. }
  assert (∀ a, c_div a (CELL layout) = Ok (Z.quot a (CELL layout))) as Hdiv.
  { intros a. unfold c_div. by destruct (Z.eqb_spec (CELL layout) 0). }
  destruct (inBoard g (Z.quot (mx - XOFFSET layout) (CELL layout))
                      (Z.quot (my - OFFSET_Y layout) (CELL layout))) eqn:Hin.
  - right. exists button, mx, my. eexists _, _.
    split; [done|]. split; [done|]. split; [done|]. split; [done|]. split; [done|].
    split; [apply Hdiv|]. split; [apply Hdiv|]. split; [exact Hin|].
    by apply handleEvent_forward.
  - left. simpl. rewrite Hr, Hm. destruct (Z.leb_spec my (OFFSET_Y layout)); [lia|].
    destruct (Z.ltb_spec mx (XOFFSET layout)); [lia|].
    destruct (Z.geb_spec mx (XOFFSET layout + boardWidthPx layout)); [lia|].
    simpl. rewrite !Hdiv. cbn [mbind result_bind].
    rewrite outside_not_inBoard, Hin. simpl. by eexists.
Qed.

(** X12.  [handleEvent] either leaves the game as it is, or forwards one
    click to the game: the event is then a mouse press off both buttons,
    the target cell is on the board, the pressed pixel lies in the
    [CELL] x [CELL] square of that cell, and the game is changed by
    [leftClickCell] for the left button and [rightClickCell] for the
    right one (other buttons change nothing). *)
Theorem handleEvent_dispatch rnd e g layout ui :
  0 < CELL layout →
  (∃ a, handleEvent rnd e g layout ui = Ok (a, g)) ∨
  (∃ button mx my x y,
     e = Event.MouseButtonPressed button mx my ∧
     restartBtn ui mx my = false ∧ menuBtn ui mx my = false ∧
     inBoard g x y = true ∧ inCellSquare layout x y mx my ∧
     handleEvent rnd e g layout ui = forwardClick rnd button x y g).
Proof.
  intros Hcell.
  destruct (handleEvent_cases rnd e g layout ui) as
    [Hsame|(button & mx & my & x & y & -> & Hr & Hm & Hmy & Hmx & Hx & Hy & Hin & Hrun)];
    [lia|by left|right].
  exists button, mx, my, x, y.
  apply c_div_cell in Hx; [|done|lia]. apply c_div_cell in Hy; [|done|lia].
  split; [done|]. split; [done|]. split; [done|]. split; [done|].
  split; [|done]. unfold inCellSquare. lia.
Qed.

Lemma handleEvent_dispatch_witness :
  let e := Event.MouseButtonPressed Mouse.Right 450 130 in
  let layout := layoutFor wonBoard in
  let ui := mkUiWidgets (λ _ _, false) (λ _ _, false) in
  (∃ a, handleEvent [] e wonBoard layout ui = Ok (a, wonBoard)) ∨
  (∃ button mx my x y,
     e = Event.MouseButtonPressed button mx my ∧
     restartBtn ui mx my = false ∧ menuBtn ui mx my = false ∧
     inBoard wonBoard x y = true ∧ inCellSquare layout x y mx my ∧
     handleEvent [] e wonBoard layout ui = forwardClick [] button x y wonBoard).
Proof. intros e layout ui. apply handleEvent_dispatch. reflexivity. Defined.



(** X14.  [handleEvent] performs no out-of-range access and no division
    by zero: on a well-formed board, with a non-zero cell size and the
    non-negative draws [rand()] gives, it is never undefined, whatever
    the event and wherever the press. *)
Theorem handleEvent_in_range rnd e g layout ui :
  wellFormed g → CELL layout ≠ 0 → Forall (λ r, 0 ≤ r) rnd →
  handleEvent rnd e g layout ui ≠ Undefined.
Proof.
  intros Hwf Hcell Hrnd.
  destruct (handleEvent_cases rnd e g layout ui Hcell) as
    [[a ->]|(button & mx & my & x & y & _ & _ & _ & _ & _ & _ & _ & Hin & ->)]; [done|].
  destruct (inBoard_cellAt g x y Hwf Hin) as [c Hc].
  unfold forwardClick. destruct button; try done.
  - destruct (leftClick_in_range rnd x y g c Hwf Hc Hrnd) as [Hl _].
    by destruct (leftClickCell rnd x y g).
  - destruct (rightClick_total x y g c Hwf Hc) as [gr ->]. done.
Qed.

Lemma handleEvent_in_range_witness :
  handleEvent [3; 0] (Event.MouseButtonPressed Mouse.Left 90 130) (newGame 6 1 1)
    (layoutFor (newGame 6 1 1)) (mkUiWidgets (λ _ _, false) (λ _ _, false))
  ≠ Undefined.
Proof.
  apply handleEvent_in_range.
  - apply wellFormed_resetField.
  - discriminate.
  - repeat constructor; lia.
Defined.

(** ** The board in the window *)

(** X15.  For a board made by [makeGameByDifficulty], [recompute] on the
    initial layout returns, and with the layout it returns the rectangle
    drawn for a cell lies inside the 800 x 800 window area exactly when
    the cell is in one of the rows 0 to 16.  That is every cell of the
    10x10 and 14x14 boards; on the 20x20 board of choice 3 the
    rectangles of rows 17, 18 and 19 reach below the window area. *)
Theorem cell_rectangles_in_window choice x y :
  inBoard (makeGameByDifficulty choice) x y = true →
  ∃ layout,
    recompute (makeGameByDifficulty choice) defaultLayout = Ok layout ∧
    (fitsWindow layout (cellRect layout x y) ↔ y ≤ 16) ∧
    (choice ≠ 3 → y ≤ 13) ∧
    (choice = 3 → inBoard (makeGameByDifficulty choice) x 17 = true).
Proof.
  intros Hin. apply inBoard_iff in Hin.
  destruct (makeGameByDifficulty_cases choice) as [E|[E|[-> E]]]; rewrite E in *.
  - exists (mkLayout 800 800 40 110 400 400 200). split; [reflexivity|].
    unfold fitsWindow, cellRect, inBoard; simpl in *.
    split; [lia|]. split; [lia|]. intros ->. vm_compute in E. discriminate.
  - exists (mkLayout 800 800 40 110 560 560 120). split; [reflexivity|].
    unfold fitsWindow, cellRect, inBoard; simpl in *.
    split; [lia|]. split; [lia|]. intros ->. vm_compute in E. discriminate.
  - exists (mkLayout 800 800 40 110 800 800 0). split; [reflexivity|].
    unfold fitsWindow, cellRect, inBoard; simpl in *.
    split; [lia|]. split; [done|]. intros _. lia.
Qed.

Lemma cell_rectangles_in_window_witness :
  ¬ fitsWindow (layoutFor (makeGameByDifficulty 3))
      (cellRect (layoutFor (makeGameByDifficulty 3)) 0 17).
Proof.
  destruct (cell_rectangles_in_window 3 0 17) as (layout & Hrec & [Hfit _] & _);
    [reflexivity|].
  unfold layoutFor. rewrite Hrec. intros Hf. apply Hfit in Hf. lia.
Defined.

(** ** The clock *)

Lemma fmt_clock_check :
  forallb (λ t, String.eqb (fmt02d (Z.quot t 60) +:+ ":" +:+ fmt02d (Z.rem t 60)) (clock t))
          (seqZ 0 6000) = true.
Proof. vm_compute. reflexivity. Qed.

(** X16.  For an elapsed time whose whole seconds [t] are below 100
    minutes, [formatTime] gives the five characters [MM:SS]: the two
    decimal digits of [t / 60], a colon, and the two decimal digits of
    [t mod 60]. *)
Theorem formatTime_clock sec t :
  float_to_int sec = Ok t → 0 ≤ t < 6000 → formatTime sec = Ok (clock t).
Proof.
  intros Ht Hrange. unfold formatTime. rewrite Ht. cbn [mbind result_bind]. f_equal.
  pose proof fmt_clock_check as Hall. rewrite forallb_forall in Hall.
  apply String.eqb_eq. apply (Hall t).
  apply list_elem_of_In, elem_of_seqZ. lia.
Qed.

Lemma formatTime_clock_witness :
  formatTime (S754_finite false 13421773 (-16)) = Ok (clock 204).
Proof.
  apply formatTime_clock; [reflexivity|]. split; [discriminate|reflexivity].
Defined.

(** ** The frame *)

Lemma Forall2_functional {A B} (R R' : A → B → Prop) l k k' :
  (∀ a b b', R a b → R' a b' → b' = b) →
  Forall2 R l k → Forall2 R' l k' → k' = k.
Proof.
  intros Hfun Hk. revert k'.
  induction Hk as [|a b l k Hab Hrest IH]; intros k' Hk';
    inversion Hk' as [|? b' ? k1 Hab' Hrest']; subst; [done|].
  f_equal; [by eapply Hfun|by apply IH].
Qed.

Section Render.
Context {theme : ITheme}.

Lemma render_board g layout :
  wellFormed g →
  ∃ drawn,
    forEach (upto (H g)) (fun y drawn =>
      forEach (upto (W g)) (fun x drawn =>
        c ← cellAt (field g) x y;
        Ok (drawn ++ [drawCell g layout x y c])) drawn) [] = Ok drawn ∧
    Forall2 (drawnFrom g layout) (cells g) drawn.
Proof.
  intros Hwf.
  destruct (forCells_total
    (λ done drawn, Forall2 (drawnFrom g layout) done drawn)
    (upto (H g)) (upto (W g)) (λ _, upto (W g))
    (λ x y drawn, c ← cellAt (field g) x y; Ok (drawn ++ [drawCell g layout x y c])) [])
    as (drawn & Hrun & Hdrawn).
  - constructor.
  - done.
  - intros done x y drawn Hx%elem_of_upto Hy%elem_of_upto Hd.
    destruct (inBoard_cellAt g x y Hwf) as [c Hc]; [by apply inBoard_iff|].
    rewrite Hc. cbn [mbind result_bind]. eexists. split; [done|].
    apply Forall2_app; [done|]. constructor; [|constructor]. by exists c.
  - exists drawn. split; [exact Hrun|exact Hdrawn].
Qed.

Lemma render_Ok g layout frame :
  wellFormed g → render g layout = Ok frame →
  status frame = statusText g ∧
  minesIndicator frame =
    "Mines: " +:+ pretty (MINES g - Z.of_nat (length (flaggedCells g))) ∧
  (∃ t, formatTime (timeElapsed g) = Ok t ∧ timerText frame = "Time: " +:+ t) ∧
  Forall2 (drawnFrom g layout) (cells g) (board frame).
Proof.
  intros Hwf Hrender. unfold render, remaining in Hrender.
  rewrite (flagsCount_total g Hwf) in Hrender. cbn [mbind result_bind] in Hrender.
  apply bind_Ok in Hrender as (t & Ht & Hrender).
  destruct (render_board g layout Hwf) as (drawn & Hrun & Hdrawn).
  apply bind_Ok in Hrender as (drawn' & Hrun' & Hframe).
  assert (drawn' = drawn) as -> by congruence.
  injection Hframe as <-. simpl.
  split; [done|]. split; [done|]. split; [by exists t|done].
Qed.

Lemma render_total g layout t :
  wellFormed g → formatTime (timeElapsed g) = Ok t →
  ∃ frame, render g layout = Ok frame.
Proof.
  intros Hwf Ht. unfold render, remaining.
  rewrite (flagsCount_total g Hwf), Ht. cbn [mbind result_bind].
  destruct (render_board g layout Hwf) as (drawn & Hrun & _).
  eexists. transitivity (drawn ← Ok drawn;
    Ok {| status := statusText g;
          minesIndicator := "Mines: " +:+ pretty (MINES g - Z.of_nat (length (flaggedCells g)));
          timerText := "Time: " +:+ t; board := drawn |}); [|done].
  apply bind_cong; [exact Hrun|done].
Qed.

(** X17.  While the game is not lost the frame shows no mine: no cell is
    painted in the mine colour or the mine flash colour, and the flash
    colour is used only while the explosion flag is set. *)
Theorem render_hides_mines g layout frame :
  reachable g → render g layout = Ok frame →
  Forall2 (λ p d,
     drawnFrom g layout p d ∧
     (gameOver g = false → fill d ≠ mineColor ∧ fill d ≠ mineFlashColor) ∧
     (fill d = mineFlashColor → explosion g = true))
    (cells g) (board frame).
Proof.
  intros Hr Hrender. destruct (reachable_invariant g Hr) as (Hwf & _).
  destruct (render_Ok g layout frame Hwf Hrender) as (_ & _ & _ & Hboard).
  eapply Forall2_impl; [exact Hboard|].
  intros [x y] d Hd. split; [done|]. destruct Hd as (c & Hc & ->). simpl in Hc |- *.
  unfold drawCell. split.
  - intros Hgo. pose proof (reachable_noOpenMine g Hr Hgo x y c Hc) as Hno.
    destruct (isOpen (state c)); simpl.
    + rewrite (Hno eq_refl). done.
    + by destruct (isFlagged (state c)).
  - destruct (isOpen (state c)); simpl.
    + destruct (isMine (content c)); [|done]. by destruct (explosion g).
    + by destruct (isFlagged (state c)).
Qed.

(** X18.  The numbers on the screen are right: in the frame of a
    reachable session every Opened cell without a mine is painted in the
    opened colour and carries the decimal count of the mines among its
    neighbours, or no text when that count is zero. *)
Theorem render_numbers g layout frame :
  reachable g → render g layout = Ok frame →
  Forall2 (λ p d, ∀ c,
     cellAt (field g) (fst p) (snd p) = Ok c →
     isOpen (state c) = true → isMine (content c) = false →
     fill d = cellOpenedColor ∧
     text d =
       if 0 <? mineNeighbours g (fst p) (snd p)
       then Some (pretty (mineNeighbours g (fst p) (snd p)),
                  (XOFFSET layout + fst p * CELL layout + 10,
                   OFFSET_Y layout + snd p * CELL layout + 5))
       else None)
    (cells g) (board frame).
Proof.
  intros Hr Hrender. destruct (reachable_invariant g Hr) as (Hwf & _ & Hpr & _).
  destruct (render_Ok g layout frame Hwf Hrender) as (_ & _ & _ & Hboard).
  eapply Forall2_impl; [exact Hboard|].
  intros [x y] d (c0 & Hc0 & ->) c Hc Hopen Hm. simpl in *.
  assert (c0 = c) as -> by congruence.
  assert (firstClick g = false) as Hfc.
  { destruct (firstClick g) eqn:Efc; [|done].
    destruct (Hpr Efc) as (_ & _ & _ & _ & Hcells).
    destruct (Hcells _ _ _ Hc) as [_ Hclosed]. congruence. }
  destruct (reachable_generated g Hr Hfc) as [Hnum _].
  pose proof (mineNeighbours_range g x y) as Hrange.
  unfold drawCell. rewrite Hopen, Hm. simpl.
  rewrite (Hnum x y c Hc Hm), number_makeNumberContent by lia. done.
Qed.

(** X19.  The frame shows of the board only what the player may know:
    two sessions of the same size whose cells agree in their states and
    in the contents of the Opened ones, and which agree in the mine
    budget, the end flags, the explosion flag and the elapsed time, are
    rendered identically. *)
Theorem render_shows_only_visible g g' layout :
  sameView g g' → render g' layout = render g layout.
Proof.
  intros (Hwf & Hwf' & HW & HH & HM & Hgo & Hw & He & Ht & Hcw).
  assert (flaggedCells g' = flaggedCells g) as Hflags.
  { apply flaggedCells_cellwise; [done..|].
    eapply cellwise_weaken; [|exact Hcw]. intros a b [E _]. unfold keepsFlag. by rewrite E. }
  destruct (render_board g layout Hwf) as (drawn & Hrun & Hdrawn).
  destruct (render_board g' layout Hwf') as (drawn' & Hrun' & Hdrawn').
  assert (drawn' = drawn) as ->.
  { assert (cells g' = cells g) as Hcells by (unfold cells; by rewrite HW, HH).
    rewrite Hcells in Hdrawn'.
    eapply Forall2_functional; [|exact Hdrawn|exact Hdrawn'].
    intros [x y] d d' (c & Hc & ->) (c' & Hc' & ->). simpl in *.
    destruct (Hcw _ _ _ Hc) as (c1 & Hc1 & Hst & Hcont).
    assert (c1 = c') as -> by congruence.
    unfold drawCell. rewrite Hst, He.
    destruct (isOpen (state c)); [|done]. by rewrite (Hcont eq_refl). }
  unfold render, remaining.
  rewrite (flagsCount_total g Hwf), (flagsCount_total g' Hwf'), Hflags, HM, Ht.
  cbn [mbind result_bind].
  destruct (formatTime (timeElapsed g)) as [t| |]; [|done|done].
  cbn [mbind result_bind].
  transitivity (drawn ← Ok drawn;
    Ok {| status := statusText g;
          minesIndicator := "Mines: " +:+ pretty (MINES g - Z.of_nat (length (flaggedCells g)));
          timerText := "Time: " +:+ t; board := drawn |}).
  - apply bind_cong; [exact Hrun'|]. intros a. unfold statusText. by rewrite Hgo, Hw.
  - symmetry. apply bind_cong; [exact Hrun|done].
Qed.

(** X20.  The head-up display of a reachable session whose elapsed time
    [formatTime] can print: the frame is drawn, its status line reads
    YOU LOSE! exactly when the game is lost, YOU WIN! exactly when it is
    won and is empty otherwise, the timer line carries the formatted
    time, and the mines line shows [MINES] minus the number of Flagged
    cells, which is [MINES] itself after a loss. *)
Theorem render_hud g layout t :
  reachable g → formatTime (timeElapsed g) = Ok t →
  ∃ frame, render g layout = Ok frame ∧
    (status frame = "YOU LOSE!" ↔ gameOver g = true) ∧
    (status frame = "YOU WIN!" ↔ win g = true) ∧
    (status frame = "" ↔ gameOver g = false ∧ win g = false) ∧
    timerText frame = "Time: " +:+ t ∧
    minesIndicator frame =
      "Mines: " +:+ pretty (MINES g - Z.of_nat (length (flaggedCells g))) ∧
    (gameOver g = true → minesIndicator frame = "Mines: " +:+ pretty (MINES g)) ∧
    length (board frame) = length (cells g).
Proof.
  intros Hr Ht. destruct (reachable_invariant g Hr) as (Hwf & Hex & _ & Hopened).
  destruct (render_total g layout t Hwf Ht) as [frame Hrender].
  destruct (render_Ok g layout frame Hwf Hrender) as (Hs & Hm & (t' & Ht' & Htt) & Hboard).
  assert (t' = t) as -> by congruence.
  exists frame. split; [done|]. rewrite Hs. unfold statusText, exclusiveEnd in *.
  split; [destruct (win g), (gameOver g); simpl in *; split; done|].
  split; [destruct (win g), (gameOver g); simpl in *; split; done|].
  split; [destruct (win g), (gameOver g); simpl in *; intuition congruence|].
  split; [done|]. split; [done|]. split; [|by erewrite <- Forall2_length].
  intros Hgo. rewrite Hm.
  destruct (flaggedCells g) as [|[px py] l] eqn:El; [simpl; by rewrite Z.sub_0_r|exfalso].
  assert ((px, py) ∈ flaggedCells g) as Hin by (rewrite El; left).
  apply (elem_of_flaggedCells g px py Hwf) in Hin as (c & Hc & Hf).
  rewrite (Hopened Hgo _ _ _ Hc) in Hf. done.
Qed.
End Render.

Lemma render_hides_mines_witness :
  ∃ frame,
    render (theme := DefaultTheme) lineBoard (layoutFor lineBoard) = Ok frame ∧
    Forall (λ d, fill d ≠ mineColor ∧ fill d ≠ mineFlashColor) (board frame).
Proof.
  eexists. split; [vm_compute; reflexivity|].
  pose proof (render_hides_mines (theme := DefaultTheme) lineBoard
                (layoutFor lineBoard) _ lineBoard_reachable eq_refl) as Hall.
  apply Forall2_Forall_r with (Q := λ d, fill d ≠ mineColor ∧ fill d ≠ mineFlashColor)
    in Hall; [exact Hall|].
  apply Forall_forall. intros p _ d (_ & Hd & _). by apply Hd.
Defined.

Lemma render_numbers_witness :
  ∃ frame,
    render (theme := DefaultTheme) wonBoard (layoutFor wonBoard) = Ok frame ∧
    ∃ d, board frame !! 2%nat = Some d ∧ text d = Some ("1", (410, 115)).
Proof.
  eexists. split; [vm_compute; reflexivity|].
  pose proof (render_numbers (theme := DefaultTheme) wonBoard
                (layoutFor wonBoard) _ wonBoard_reachable eq_refl) as Hall.
  eexists. split; [reflexivity|].
  eapply (Forall2_lookup_lr _ _ _ 2%nat (2, 0)) in Hall; [|reflexivity|reflexivity].
  destruct (Hall _ eq_refl eq_refl eq_refl) as [_ Htext].
  vm_compute in Htext. vm_compute. exact Htext.
Defined.

Lemma render_shows_only_visible_witness :
  let hidden := set_field
    [[ {| content := EmptyContent; state := OpenedState |};
       {| content := EmptyContent; state := OpenedState |};
       {| content := NumberContent 1; state := OpenedState |};
       {| content := NumberContent 1; state := ClosedState |};
       {| content := MineContent; state := ClosedState |};
       {| content := NumberContent 1; state := ClosedState |} ]] lineBoard in
  hidden ≠ lineBoard ∧
  render (theme := DefaultTheme) hidden defaultLayout =
  render (theme := DefaultTheme) lineBoard defaultLayout.
Proof.
  intros hidden. split; [discriminate|].
  apply render_shows_only_visible.
  split; [exact wellFormed_lineBoard|]. split; [split; [reflexivity|repeat constructor]|].
  do 7 (split; [reflexivity|]).
  intros x y c Hc.
  pose proof (proj1 (inBoard_iff _ _ _) (cellAt_inBoard _ _ _ _ wellFormed_lineBoard Hc))
    as [Hx Hy].
  change (W lineBoard) with 6 in Hx. change (H lineBoard) with 1 in Hy.
  assert (y = 0) as -> by lia.
  assert (x = 0 ∨ x = 1 ∨ x = 2 ∨ x = 3 ∨ x = 4 ∨ x = 5) as Hcases by lia.
  destruct Hcases as [->|[->|[->|[->|[->| ->]]]]];
    vm_compute in Hc; injection Hc as <-;
    (eexists; split; [reflexivity|split; [reflexivity|]]); intros Hopen;
    (reflexivity || discriminate Hopen).
Defined.

Lemma render_hud_witness :
  ∃ frame,
    render (theme := DefaultTheme) lostBoard (layoutFor lostBoard) = Ok frame ∧
    status frame = "YOU LOSE!" ∧ timerText frame = "Time: 00:00" ∧
    minesIndicator frame = "Mines: 1".
Proof.
  destruct (render_hud (theme := DefaultTheme) lostBoard (layoutFor lostBoard)
              "00:00" lostBoard_reachable eq_refl)
    as (frame & Hrender & Hlose & _ & _ & Htime & _ & Hmines & _).
  exists frame. split; [exact Hrender|]. split; [by apply Hlose|].
  split; [exact Htime|]. by apply Hmines.
Defined.

(** ** Counting the mines around a cell *)

Lemma mineNeighbours_zero g x y :
  wellFormed g →
  (mineNeighbours g x y = 0 ↔
   ∀ nx ny c, adjacent x y nx ny → cellAt (field g) nx ny = Ok c →
     isMine (content c) = false).
Proof.
  intros Hwf. unfold mineNeighbours. split.
  - intros Hz nx ny c Hadj Hc.
    destruct (isMine (content c)) eqn:Hm; [exfalso|done].
    assert ((nx, ny) ∈ List.filter (cellHas (λ c, isMine (content c)) g) (neighbours g x y))
      as Hin.
    { apply list_elem_of_In, filter_In. split.
      - apply list_elem_of_In, elem_of_neighbours. split; [done|by eapply cellAt_inBoard].
      - by rewrite (cellHas_Ok _ _ _ _ _ Hc). }
    destruct (List.filter _ _); [by apply elem_of_nil in Hin|simpl in Hz; lia].
  - intros Hnone.
    destruct (List.filter _ _) as [|[nx ny] l] eqn:El; [done|exfalso].
    assert (In (nx, ny) (List.filter (cellHas (λ c, isMine (content c)) g) (neighbours g x y)))
      as Hin by (rewrite El; by left).
    apply filter_In in Hin as [Hin Hm].
    apply list_elem_of_In, elem_of_neighbours in Hin as [Hadj Hb].
    destruct (inBoard_cellAt g nx ny Hwf Hb) as [c Hc].
    rewrite (cellHas_Ok _ _ _ _ _ Hc) in Hm. rewrite (Hnone nx ny c Hadj Hc) in Hm. done.
Qed.

(** X21.  [countMinesAround] reads only cells on the board, so it returns
    for every centre, on or off the board: the number of mines among the
    cells that are adjacent to the centre and on the board, a number from
    0 to 8. *)
Theorem countMinesAround_range g x y :
  wellFormed g →
  countMinesAround g x y = Ok (mineNeighbours g x y) ∧
  0 ≤ mineNeighbours g x y ≤ 8 ∧
  NoDup (neighbours g x y) ∧
  (∀ nx ny, (nx, ny) ∈ neighbours g x y ↔ adjacent x y nx ny ∧ inBoard g nx ny = true) ∧
  (mineNeighbours g x y = 0 ↔
   ∀ nx ny c, adjacent x y nx ny → cellAt (field g) nx ny = Ok c →
     isMine (content c) = false).
Proof.
  intros Hwf. split; [by apply countMinesAround_total|].
  split; [apply mineNeighbours_range|]. split; [apply NoDup_neighbours|].
  split; [intros nx ny; apply elem_of_neighbours|by apply mineNeighbours_zero].
Qed.

Lemma countMinesAround_range_witness :
  countMinesAround generatedBoard (-1) 4 = Ok (mineNeighbours generatedBoard (-1) 4) ∧
  0 ≤ mineNeighbours generatedBoard (-1) 4 ≤ 8.
Proof.
  assert (wellFormed generatedBoard) as Hwf.
  { split; [reflexivity|]. repeat constructor. }
  destruct (countMinesAround_range generatedBoard (-1) 4 Hwf) as (Hrun & Hrange & _).
  split; [exact Hrun|exact Hrange].
Defined.

(** ** The clock stops at the end of the game *)

(** X22.  Once the game is won or lost the elapsed time no longer moves:
    along any sequence of clicks and frame updates without a restart,
    starting in a terminal session, [timeElapsed] keeps its value (and
    the session stays terminal). *)
Theorem clock_stops_at_end inputs g gl :
  wellFormed g → gameOver g = true ∨ win g = true →
  Restart ∉ inputs → play inputs g = Ok gl →
  timeElapsed gl = timeElapsed g ∧ (gameOver gl = true ∨ win gl = true).
Proof.
  intros Hwf Hterm Hno Hplay.
  refine (proj2 (forEach_partial
    (λ _ s, wellFormed s ∧ timeElapsed s = timeElapsed g ∧
            (gameOver s = true ∨ win s = true))
    inputs step g gl Hplay _ _)); [done|].
  intros done i s s1 Hin (Hwfs & Ht & Hts) Hstep.
  assert (i ≠ Restart) as Hi by (intros ->; done).
  destruct (step_keeps_progress i s s1 Hwfs Hi Hstep) as (Hwf1 & _ & _ & _ & Hgo1 & Hw1).
  split; [done|]. split; [|destruct Hts; auto].
  rewrite <- Ht. destruct i as [rnd x y|x y|dt|]; simpl in Hstep; [| | |done].
  - destruct (leftClick_cases _ _ _ _ _ Hstep) as
      (c & Hc & [[_ ->]|[(_ & _ & ->)|(_ & Hgo & Hw & _)]]); [done|done|].
    destruct Hts; congruence.
  - destruct (rightClick_cases _ _ _ _ Hstep) as
      (c & Hc & [[_ ->]|[[_ Hset]|[(_ & _ & ->)|(_ & Hgo & Hw & _)]]]); [done| |done|].
    + destruct (setState_Ok _ _ _ _ _ Hset) as (Hss & _).
      by destruct (sameSession_fields _ _ Hss) as (_ & _ & _ & _ & _ & _ & _ & _ & _ & E).
    + destruct Hts; congruence.
  - destruct (fle f0 dt); [|done]. injection Hstep as <-.
    rewrite update_timeElapsed.
    destruct Hts as [-> | ->]; by rewrite ?andb_false_r.
Qed.

Lemma clock_stops_at_end_witness :
  ∃ gl, play [Tick f0_2; Flag 3 0; Tick f0_2] wonBoard = Ok gl ∧
        timeElapsed gl = timeElapsed wonBoard.
Proof.
  eexists. split; [reflexivity|].
  eapply (clock_stops_at_end [Tick f0_2; Flag 3 0; Tick f0_2] wonBoard).
  - split; [reflexivity|]. repeat constructor.
  - right. reflexivity.
  - intros Hin. repeat (apply elem_of_cons in Hin as [Hin|Hin]; [discriminate|]).
    by apply elem_of_nil in Hin.
  - reflexivity.
Defined.

(** ** Before the first reveal *)

(** X23.  Until the first accepted reveal the frame of a reachable
    session shows a stopped clock at 00:00, an empty status line, and
    every cell closed or flagged without any number. *)
Theorem render_before_first_reveal {theme : ITheme} g layout :
  reachable g → firstClick g = true →
  ∃ frame, render g layout = Ok frame ∧
    status frame = "" ∧ timerText frame = "Time: 00:00" ∧
    Forall (λ d, fill d = cellClosedColor ∧ text d = None ∨
                 fill d = cellFlagColor ∧ ∃ pos, text d = Some (flagGlyph, pos))
           (board frame).
Proof.
  intros Hr Hfc. destruct (reachable_invariant g Hr) as (Hwf & _ & Hpr & _).
  destruct (Hpr Hfc) as (Hgo & Hw & _ & Ht & Hcells).
  destruct (render_total g layout "00:00" Hwf) as [frame Hrender]; [by rewrite Ht|].
  destruct (render_Ok g layout frame Hwf Hrender) as (Hs & _ & (t & Ht' & Htt) & Hboard).
  exists frame. split; [done|]. rewrite Ht in Ht'. injection Ht' as <-.
  split; [rewrite Hs; unfold statusText; by rewrite Hgo, Hw|]. split; [done|].
  eapply Forall2_Forall_r; [exact Hboard|].
  apply Forall_forall. intros [x y] _ d (c & Hc & ->). simpl in Hc.
  destruct (Hcells _ _ _ Hc) as [_ Hclosed]. unfold drawCell. rewrite Hclosed.
  destruct (isFlagged (state c)); simpl; [right|left]; eauto.
Qed.

Lemma render_before_first_reveal_witness :
  ∃ frame, render (theme := DefaultTheme) (newGame 6 1 1) defaultLayout = Ok frame ∧
    status frame = "" ∧ timerText frame = "Time: 00:00".
Proof.
  destruct (render_before_first_reveal (theme := DefaultTheme) (newGame 6 1 1) defaultLayout)
    as (frame & Hrender & Hs & Ht & _).
  - by constructor.
  - reflexivity.
  - exists frame. split; [exact Hrender|]. split; [exact Hs|exact Ht].
Defined.

(** ** The first reveal opens the neighbourhood *)

Lemma adjacent_inSafeZone x y nx ny : adjacent x y nx ny → inSafeZone x y nx ny.
Proof. intros (Hx & Hy & _). by split. Qed.

(** X24.  The first accepted reveal opens the whole neighbourhood of the
    clicked cell: the clicked cell has no mine around it, so it is Empty
    and flood fill runs; afterwards every on-board neighbour is free of
    mines and Opened, except those that carried a flag, which keep it. *)
Theorem first_reveal_opens_neighbourhood rnd x y g c g' :
  reachable g → firstClick g = true →
  cellAt (field g) x y = Ok c → state c = ClosedState →
  leftClickCell rnd x y g = Ok g' →
  (∃ c', cellAt (field g') x y = Ok c' ∧ isEmpty (content c') = true) ∧
  ∀ nx ny cn, adjacent x y nx ny → cellAt (field g) nx ny = Ok cn →
    ∃ cn', cellAt (field g') nx ny = Ok cn' ∧ isMine (content cn') = false ∧
           state cn' = (if isFlagged (state cn) then FlaggedState else OpenedState).
Proof.
  intros Hr Hfc Hc Hs Hl.
  destruct (reachable_invariant g Hr) as (Hwf & _ & Hpr & _).
  destruct (Hpr Hfc) as (_ & _ & _ & _ & Hcells).
  destruct (first_reveal_steps rnd x y g c g' Hr Hfc Hc Hs Hl) as
    (gb & g0 & cb & Hgen & Hwfb & Hfrb & Hsafe & _ & Hwf0 & Hf0 & _ & _ & _ & _ & _ &
     Hoc & Hcb & Hmb).
  destruct (generate_Ok _ _ _ _ _ Hwf Hgen) as (_ & _ & _ & Hnum).
  rewrite Hf0 in Hcb.
  assert (mineNeighbours gb x y = 0) as Hzero.
  { apply (mineNeighbours_zero gb x y Hwfb). intros nx ny cn Hadj Hcn.
    apply (Hsafe nx ny cn Hcn). by apply adjacent_inSafeZone. }
  assert (content cb = EmptyContent) as Hempty
    by (rewrite (Hnum x y cb Hcb Hmb), Hzero; done).
  unfold openCell in Hoc.
  apply bind_Ok in Hoc as (g1 & Hset & Hoc).
  destruct (setState_Ok _ _ _ _ _ Hset) as (Hss1 & Hwf1 & c0 & Hc0 & Hc1 & Hoth).
  specialize (Hwf1 Hwf0). rewrite Hf0 in Hc0. assert (c0 = cb) as -> by congruence.
  rewrite Hc1 in Hoc. cbn [mbind result_bind content] in Hoc.
  rewrite Hmb, Hempty in Hoc. cbn [isEmpty] in Hoc.
  apply bind_Ok in Hoc as (g2 & Hfill & Hcw).
  rewrite floodFill_as_order in Hfill.
  destruct (floodFillOrd_spec offsets8 _ x y g1 g2 ltac:(done) Hwf1 Hfill)
    as (Hfr & Hsealed & _).
  pose proof (checkWin_field _ _ Hcw) as Hfield. rewrite Hfield.
  split.
  - destruct Hfr as (_ & _ & Hcw12). destruct (Hcw12 _ _ _ Hc1) as (c2 & Hc2 & Hoo).
    exists c2. split; [done|]. rewrite (opensOnly_content _ _ Hoo). simpl. by rewrite Hempty.
  - intros nx ny cn Hadj Hcn.
    destruct Hfrb as (_ & _ & Hcwb). destruct (Hcwb _ _ _ Hcn) as (cnb & Hcnb & Hstb).
    unfold keepsState in Hstb.
    assert ((nx, ny) ≠ (x, y)) as Hne.
    { destruct Hadj as (_ & _ & Hne). intros [= -> ->]. by apply Hne. }
    assert (cellAt (field g1) nx ny = Ok cnb) as Hcn1 by (by rewrite (Hoth _ _ Hne), Hf0).
    destruct Hfr as (_ & _ & Hcw12). destruct (Hcw12 _ _ _ Hcn1) as (cn2 & Hcn2 & Hoo).
    pose proof (Hsafe nx ny cnb Hcnb (adjacent_inSafeZone _ _ _ _ Hadj)) as Hmn.
    exists cn2. split; [done|]. rewrite (opensOnly_content _ _ Hoo). split; [done|].
    pose proof (Hsealed nx ny cn2 Hadj Hcn2) as Hnf.
    destruct (Hcells _ _ _ Hcn) as [_ Hclosed].
    destruct Hoo as [->|[Hfillable ->]].
    + rewrite Hstb. unfold fillable in Hnf. rewrite Hstb, Hclosed, Hmn in Hnf.
      destruct (state cn); simpl in *; done.
    + apply fillable_inv in Hfillable as (_ & Hnflag & _). rewrite Hstb in Hnflag.
      by rewrite Hnflag.
Qed.

Lemma first_reveal_opens_neighbourhood_witness :
  leftClickCell [3; 0] 0 0 (newGame 6 1 1) = Ok lineBoard ∧
  ∃ cn', cellAt (field lineBoard) 1 0 = Ok cn' ∧ isMine (content cn') = false ∧
         state cn' = OpenedState.
Proof.
  assert (reachable (newGame 6 1 1)) as Hr by (by constructor).
  assert (leftClickCell [3; 0] 0 0 (newGame 6 1 1) = Ok lineBoard) as Hl
    by (vm_compute; reflexivity).
  split; [exact Hl|].
  destruct (first_reveal_opens_neighbourhood [3; 0] 0 0 (newGame 6 1 1) makeInitialCell
              lineBoard Hr eq_refl eq_refl eq_refl Hl) as [_ Hnb].
  apply (Hnb 1 0 makeInitialCell); [|reflexivity].
  split; [vm_compute; discriminate|].
  split; [vm_compute; discriminate|]. intros [Hx _]. discriminate Hx.
Defined.

(** ** The frame after a loss *)

(** X25.  The frame of a lost game shows the whole board: every cell is
    drawn Opened, the cells with a mine in the mine colour (the flash
    colour while the explosion flag is set) and all others in the opened
    colour, and no cell carries a flag glyph. *)
Theorem render_after_loss {theme : ITheme} g layout frame :
  reachable g → gameOver g = true → render g layout = Ok frame →
  Forall2 (λ p d, ∃ c,
     cellAt (field g) (fst p) (snd p) = Ok c ∧
     fill d = (if isMine (content c)
               then (if explosion g then mineFlashColor else mineColor)
               else cellOpenedColor) ∧
     fill d ≠ cellFlagColor ∧ fill d ≠ cellClosedColor)
    (cells g) (board frame).
Proof.
  intros Hr Hgo Hrender. destruct (reachable_invariant g Hr) as (Hwf & _ & _ & Hopened).
  destruct (render_Ok g layout frame Hwf Hrender) as (_ & _ & _ & Hboard).
  eapply Forall2_impl; [exact Hboard|].
  intros [x y] d (c & Hc & ->). simpl in *. exists c. split; [done|].
  unfold drawCell. rewrite (Hopened Hgo _ _ _ Hc). simpl.
  destruct (isMine (content c)); [|done]. by destruct (explosion g).
Qed.

Lemma render_after_loss_witness :
  ∃ frame,
    render (theme := DefaultTheme) lostBoard (layoutFor lostBoard) = Ok frame ∧
    ∃ d, board frame !! 3%nat = Some d ∧ fill d = mineFlashColor.
Proof.
  eexists. split; [vm_compute; reflexivity|].
  pose proof (render_after_loss (theme := DefaultTheme) lostBoard
                (layoutFor lostBoard) _ lostBoard_reachable eq_refl eq_refl)
    as Hall.
  eexists. split; [reflexivity|].
  eapply (Forall2_lookup_lr _ _ _ 3%nat (3, 0)) in Hall; [|reflexivity|reflexivity].
  destruct Hall as (c & Hc & Hfill & _). vm_compute in Hc. injection Hc as <-.
  exact Hfill.
Defined.
